(** * fetch-jira-stories.js: the record normalizer and the extraction pipeline

    A shallow embedding of [src/fetch-jira-stories.js].  The script reads
    JSON data returned by a remote search, so its values are modelled as
    the dynamically typed values of the language: every property read,
    optional chain, [||] default and [.map] call of the source is written
    with the operation of the same meaning on those values, and a thrown
    exception is an explicit result.  The effects of a run (console,
    request, file system, clock, exit) are threaded through a state, the
    answers of the outside being gathered in a record.

    The normalizer is embedded a second time over an explicit memory
    of objects and arrays handled by reference, and shown to do there
    what it does on values, which is what its determinism is stated on.

    The file has the values and the operations of the language first,
    then the script function by function under the names of the source,
    then the properties of the normalizer and of a run, and last concrete
    records and runs on which the properties are exercised. *)

From Stdlib Require Import String Ascii List ZArith NArith Bool Lia.
From Stdlib Require Import DecimalString.
Import ListNotations.
Open Scope string_scope.

(** ** Values *)

(** A number is a double.  The script never computes with the numbers it
    receives: it only tests them for truthiness, copies them and prints
    them, so a double is kept as its sign, odd mantissa and binary
    exponent. *)
Inductive number : Set :=
| NaN
| Infinite (negative : bool)
| Zero (negative : bool)
| Dyadic (negative : bool) (mantissa : positive) (exponent : Z).

Set Warnings "-register-all".

(** The values a parsed JSON body is made of, with [undefined] for what a
    read of a missing property yields.  An object keeps its own
    properties in order, as an object literal or a parsed body does. *)
Inductive value : Type :=
| VUndefined
| VNull
| VBool (b : bool)
| VNum (n : number)
| VStr (s : string)
| VArr (items : list value)
| VObj (props : list (string * value)).

(** What a [throw] carries: an error object, of which the script reads
    [message] and, for a failed request, [response]. *)
Record exn : Type := mkExn { message : string; response : value }.

Inductive result (A : Type) : Type :=
| Ok (a : A)
| Throw (e : exn).
Arguments Ok {A} a.
Arguments Throw {A} e.

Definition bind {A B} (r : result A) (k : A -> result B) : result B :=
  match r with
  | Ok a => k a
  | Throw e => Throw e
  end.

Declare Scope js_scope.
Delimit Scope js_scope with js.
Notation "x <- c ;; k" := (bind c (fun x => k))
  (at level 61, c at next level, right associativity) : js_scope.
Open Scope js_scope.

Fixpoint mapM {A B} (f : A -> result B) (l : list A) : result (list B) :=
  match l with
  | [] => Ok []
  | x :: r => y <- f x ;; ys <- mapM f r ;; Ok (y :: ys)
  end.

Definition TypeError (msg : string) : exn := mkExn msg VUndefined.

(** ** Primitive operations of the language *)

Definition number_truthy (n : number) : bool :=
  match n with
  | NaN | Zero _ => false
  | Infinite _ | Dyadic _ _ _ => true
  end.

(** ToBoolean: [undefined], [null], [false], [0], [-0], [NaN] and the
    empty string are falsy; every object and array is truthy. *)
Definition truthy (v : value) : bool :=
  match v with
  | VUndefined | VNull => false
  | VBool b => b
  | VNum n => number_truthy n
  | VStr s => negb (String.eqb s "")
  | VArr _ | VObj _ => true
  end.

Definition nullish (v : value) : bool :=
  match v with
  | VUndefined | VNull => true
  | _ => false
  end.

(** [a || b] where [b] cannot throw. *)
Definition or_else (a b : value) : value := if truthy a then a else b.

(** [a || b] where evaluating [b] may throw. *)
Definition or_elseM (a : value) (b : result value) : result value :=
  if truthy a then Ok a else b.

Fixpoint own (p : string) (props : list (string * value)) : option value :=
  match props with
  | [] => None
  | (k, v) :: r => if String.eqb k p then Some v else own p r
  end.

Definition own_or_undefined (p : string) (props : list (string * value)) : value :=
  match own p props with
  | Some v => v
  | None => VUndefined
  end.

Definition type_name (v : value) : string :=
  match v with
  | VNull => "null"
  | _ => "undefined"
  end.

(** [v.p] for the property names the script reads from remote data.  None
    of them is a member of [Object.prototype], [Array.prototype] or
    [String.prototype], so on an object the read is the read of an own
    property and on an array, a string, a number or a boolean it is
    [undefined]; on [undefined] and [null] it throws. *)
Definition get (p : string) (v : value) : result value :=
  match v with
  | VUndefined | VNull =>
      Throw (TypeError ("Cannot read properties of " ++ type_name v
                        ++ " (reading '" ++ p ++ "')"))
  | VObj props => Ok (own_or_undefined p props)
  | _ => Ok VUndefined
  end.

(** [v?.p]: [undefined] on a nullish [v], else [v.p], which then cannot
    throw. *)
Definition opt_get (p : string) (v : value) : value :=
  match v with
  | VObj props => own_or_undefined p props
  | _ => VUndefined
  end.

(** [v?.[0]]: the first element of an array, the first character of a
    string, the own property ["0"] of an object. *)
Definition opt_index0 (v : value) : value :=
  match v with
  | VArr (x :: _) => x
  | VStr (String c _) => VStr (String c "")
  | VObj props => own_or_undefined "0" props
  | _ => VUndefined
  end.

(** [d?.content?.[0]?.content?.[0]?.text]. *)
Definition rich_text (d : value) : value :=
  opt_get "text"
    (opt_index0 (opt_get "content" (opt_index0 (opt_get "content" d)))).

Definition is_string (v : value) : bool :=
  match v with
  | VStr _ => true
  | _ => false
  end.

Definition is_object (v : value) : bool :=
  match v with
  | VObj _ => true
  | _ => false
  end.

(** [v.p1.p2...pn], read left to right. *)
Definition path (ps : list string) (v : value) : result value :=
  fold_left (fun acc p => x <- acc ;; get p x) ps (Ok v).

(** [v?.map(f)], [callee] being the source text of [v?.map].  On a
    nullish [v] the call is skipped; on an array [f] is applied to the
    elements in order and the first throw ends the call; any other value
    has no callable [map]. *)
Definition opt_map (callee : string) (f : value -> result value) (v : value)
  : result value :=
  match v with
  | VUndefined | VNull => Ok VUndefined
  | VArr items => ys <- mapM f items ;; Ok (VArr ys)
  | _ => Throw (TypeError (callee ++ " is not a function"))
  end.

(** An integer count as a double (exact below 2^53; the length of an
    array is below 2^32). *)
Fixpoint odd_part (p : positive) : positive * Z :=
  match p with
  | xO q => let '(m, e) := odd_part q in (m, Z.succ e)
  | _ => (p, 0%Z)
  end.

Definition number_of_N (n : N) : number :=
  match n with
  | N0 => Zero false
  | Npos p => let '(m, e) := odd_part p in Dyadic false m e
  end.

(** [v.map(f)], [v] being the source text of the receiver. *)
Definition call_map (receiver : string) (f : value -> result value) (v : value)
  : result (list value) :=
  match v with
  | VUndefined | VNull =>
      Throw (TypeError ("Cannot read properties of " ++ type_name v
                        ++ " (reading 'map')"))
  | VArr items => mapM f items
  | _ => Throw (TypeError (receiver ++ ".map is not a function"))
  end.

(** The document [JSON.stringify] writes, as the tree its text denotes
    (the indentation is layout): a property whose value is [undefined]
    is left out, an [undefined] element of an array is written [null],
    as are [NaN] and the infinities, and [-0] is written [0]. *)
Fixpoint JSON_stringify (v : value) : value :=
  match v with
  | VUndefined => VNull
  | VNum NaN | VNum (Infinite _) => VNull
  | VNum (Zero _) => VNum (Zero false)
  | VArr items => VArr (map JSON_stringify items)
  | VObj props =>
      VObj ((fix members (l : list (string * value)) : list (string * value) :=
               match l with
               | [] => []
               | (k, VUndefined) :: r => members r
               | (k, x) :: r => (k, JSON_stringify x) :: members r
               end) props)
  | _ => v
  end.

(** Deep equality of two values: the same shape with the same primitives
    at the same places, two [NaN] being the same primitive. *)
Definition number_eqb (x y : number) : bool :=
  match x, y with
  | NaN, NaN => true
  | Infinite a, Infinite b => Bool.eqb a b
  | Zero a, Zero b => Bool.eqb a b
  | Dyadic a m e, Dyadic b n f => Bool.eqb a b && Pos.eqb m n && Z.eqb e f
  | _, _ => false
  end.

Fixpoint deep_equal (a b : value) : bool :=
  match a, b with
  | VUndefined, VUndefined => true
  | VNull, VNull => true
  | VBool x, VBool y => Bool.eqb x y
  | VNum x, VNum y => number_eqb x y
  | VStr x, VStr y => String.eqb x y
  | VArr xs, VArr ys =>
      (fix elements (xs ys : list value) : bool :=
         match xs, ys with
         | [], [] => true
         | x :: xs', y :: ys' => deep_equal x y && elements xs' ys'
         | _, _ => false
         end) xs ys
  | VObj ps, VObj qs =>
      (fix members (ps qs : list (string * value)) : bool :=
         match ps, qs with
         | [], [] => true
         | (k, x) :: ps', (l, y) :: qs' =>
             String.eqb k l && deep_equal x y && members ps' qs'
         | _, _ => false
         end) ps qs
  | _, _ => false
  end.

(** Two calls agree when both return deep-equal values or both throw the
    same error. *)
Definition same_outcome (r1 r2 : result value) : bool :=
  match r1, r2 with
  | Ok a, Ok b => deep_equal a b
  | Throw e1, Throw e2 =>
      String.eqb (message e1) (message e2)
      && deep_equal (response e1) (response e2)
  | _, _ => false
  end.

(** ** The world of a run *)

(** What a run does that can be observed from outside, in order. *)
Inductive event : Type :=
| Stdout (args : list value)                        (* console.log *)
| Stderr (args : list value)                        (* console.error *)
| HttpGet (url : string) (params : list (string * value))
| ExistsSync (dir : string)
| MkdirSync (dir : string)
| WriteFileSync (file : string) (document : value)
| Exit (code : Z).                                  (* process.exit *)

(** What the outside answers: the settlement of the one request, the
    state of the data directory, [path.join] of the platform (which joins
    with the separator of the platform and normalises the result),
    whether the two file-system writes go through, whether a write that
    throws had opened the file before, and the clock (the n-th
    [new Date()] of the run, as [toISOString] prints it). *)
Record World : Type := mkWorld {
  jiraApi_response : result value;
  dataDir : string;               (* path.join(__dirname, '..', 'data') *)
  path_join : string -> string -> string;
  dataDir_exists : bool;
  mkdirSync_outcome : result unit;
  writeFileSync_outcome : result unit;
  writeFileSync_opened : bool;
  clock : nat -> string
}.

(** What a file holds: the whole document of a write that went through,
    or what a write that failed after opening the file left of it.  The
    file then exists, its old content is gone, and of the new text some
    part is there, possibly none. *)
Inductive content : Type :=
| Whole (document : value)
| Torn.

(** The state a run threads: the events so far, oldest first, the files
    written so far, and the number of clock readings taken. *)
Record State : Type := mkState {
  trace : list event;
  files : list (string * content);
  clock_reads : nat
}.

Definition initial : State := mkState [] [] 0.

Definition IO (A : Type) : Type := State -> result A * State.

Definition ret {A} (a : A) : IO A := fun s => (Ok a, s).

Definition bindIO {A B} (c : IO A) (k : A -> IO B) : IO B :=
  fun s =>
    match c s with
    | (Ok a, s') => k a s'
    | (Throw e, s') => (Throw e, s')
    end.

Notation "x <~ c ;; k" := (bindIO c (fun x => k))
  (at level 61, c at next level, right associativity) : js_scope.
Notation "c ;;; k" := (bindIO c (fun _ => k))
  (at level 61, right associativity) : js_scope.

Definition lift {A} (r : result A) : IO A := fun s => (r, s).

Definition throw {A} (e : exn) : IO A := fun s => (Throw e, s).

(** [try { body } catch (error) { handler }]. *)
Definition try_catch {A} (body : IO A) (handler : exn -> IO A) : IO A :=
  fun s =>
    match body s with
    | (Ok a, s') => (Ok a, s')
    | (Throw e, s') => handler e s'
    end.

Definition emit (e : event) : IO unit :=
  fun s => (Ok tt, mkState (trace s ++ [e]) (files s) (clock_reads s)).

Definition console_log (args : list value) : IO unit := emit (Stdout args).
Definition console_error (args : list value) : IO unit := emit (Stderr args).
Definition process_exit (code : Z) : IO unit := emit (Exit code).

Fixpoint store (file : string) (document : content)
  (fs : list (string * content)) : list (string * content) :=
  match fs with
  | [] => [(file, document)]
  | (k, d) :: r =>
      if String.eqb k file then (k, document) :: r
      else (k, d) :: store file document r
  end.

(** The exit code of the process: the one given to [process.exit], and 0
    when the script runs to its end without calling it. *)
Fixpoint exit_code (t : list event) : Z :=
  match t with
  | [] => 0%Z
  | Exit c :: _ => c
  | _ :: r => exit_code r
  end.

(** ** The memory of a run *)

(** The objects and arrays of a running script live in a memory and are
    handled by reference: a variable or a property holds a primitive or
    the address of an object or an array, two names can hold the same
    address, and a write through one is seen through the other.  The
    normalizer is embedded a second time over such a memory, so that
    what it does to the memory can be stated. *)
Inductive word : Type :=
| WUndefined
| WNull
| WBool (b : bool)
| WNum (n : number)
| WStr (s : string)
| WRef (address : nat).

Inductive cell : Type :=
| ObjectCell (props : list (string * word))
| ArrayCell (items : list word).

(** The machine a call runs on: the memory, and the state of the run. *)
Record Machine : Type := mkMachine {
  memory : list cell;
  outside : State
}.

(** An operation may read and change the machine, and may throw. *)
Definition Op (A : Type) : Type := Machine -> result A * Machine.

Definition retM {A} (a : A) : Op A := fun m => (Ok a, m).

Definition throwM {A} (e : exn) : Op A := fun m => (Throw e, m).

Definition bindM {A B} (c : Op A) (k : A -> Op B) : Op B :=
  fun m =>
    match c m with
    | (Ok a, m') => k a m'
    | (Throw e, m') => (Throw e, m')
    end.

Notation "x <== c ;; k" := (bindM c (fun x => k))
  (at level 61, c at next level, right associativity) : js_scope.

(** The cell at an address. *)
Definition cell_at (a : nat) (m : Machine) : cell :=
  nth a (memory m) (ObjectCell []).

(** An object literal, an array literal and the array [map] returns each
    take a new cell, after the cells there are. *)
Definition new (c : cell) : Op word :=
  fun m =>
    (Ok (WRef (length (memory m))), mkMachine (memory m ++ [c]) (outside m)).

Definition truthy_word (w : word) : bool :=
  match w with
  | WUndefined | WNull => false
  | WBool b => b
  | WNum n => number_truthy n
  | WStr s => negb (String.eqb s "")
  | WRef _ => true
  end.

Definition nullish_word (w : word) : bool :=
  match w with
  | WUndefined | WNull => true
  | _ => false
  end.

Definition or_else_word (a b : word) : word := if truthy_word a then a else b.

Fixpoint own_word (p : string) (props : list (string * word)) : option word :=
  match props with
  | [] => None
  | (k, w) :: r => if String.eqb k p then Some w else own_word p r
  end.

Definition own_word_or_undefined (p : string) (props : list (string * word))
  : word :=
  match own_word p props with
  | Some w => w
  | None => WUndefined
  end.

(** [w.p], as [get]. *)
Definition read (p : string) (w : word) : Op word :=
  fun m =>
    match w with
    | WUndefined =>
        (Throw (TypeError ("Cannot read properties of undefined (reading '"
                           ++ p ++ "')")), m)
    | WNull =>
        (Throw (TypeError ("Cannot read properties of null (reading '"
                           ++ p ++ "')")), m)
    | WRef a =>
        match cell_at a m with
        | ObjectCell props => (Ok (own_word_or_undefined p props), m)
        | ArrayCell _ => (Ok WUndefined, m)
        end
    | _ => (Ok WUndefined, m)
    end.

(** [w?.p], as [opt_get]. *)
Definition opt_read (p : string) (w : word) : Op word :=
  fun m =>
    match w with
    | WRef a =>
        match cell_at a m with
        | ObjectCell props => (Ok (own_word_or_undefined p props), m)
        | ArrayCell _ => (Ok WUndefined, m)
        end
    | _ => (Ok WUndefined, m)
    end.

(** [w?.[0]], as [opt_index0]. *)
Definition opt_first (w : word) : Op word :=
  fun m =>
    match w with
    | WRef a =>
        match cell_at a m with
        | ObjectCell props => (Ok (own_word_or_undefined "0" props), m)
        | ArrayCell (x :: _) => (Ok x, m)
        | ArrayCell [] => (Ok WUndefined, m)
        end
    | WStr (String c _) => (Ok (WStr (String c "")), m)
    | _ => (Ok WUndefined, m)
    end.

(** [w.p1.p2...pn], as [path]. *)
Definition read_path (ps : list string) (w : word) : Op word :=
  fold_left (fun acc p => x <== acc ;; read p x) ps (retM w).

Fixpoint map_words (f : word -> Op word) (l : list word) : Op (list word) :=
  match l with
  | [] => retM []
  | x :: r => y <== f x ;; ys <== map_words f r ;; retM (y :: ys)
  end.

(** [w?.map(f)], as [opt_map]: the array returned is a new one. *)
Definition opt_map_words (callee : string) (f : word -> Op word) (w : word)
  : Op word :=
  fun m =>
    match w with
    | WUndefined | WNull => (Ok WUndefined, m)
    | WRef a =>
        match cell_at a m with
        | ArrayCell items => (ys <== map_words f items ;; new (ArrayCell ys)) m
        | ObjectCell _ => (Throw (TypeError (callee ++ " is not a function")), m)
        end
    | _ => (Throw (TypeError (callee ++ " is not a function")), m)
    end.

(** A word stands for a value when it is that primitive, or the address
    of an object or array cell whose parts stand for the parts of the
    value: the cells reached from the word hold a finite tree, as the
    cells of a parsed body do. *)
Inductive denotes (cells : list cell) : word -> value -> Prop :=
| denotes_undefined : denotes cells WUndefined VUndefined
| denotes_null : denotes cells WNull VNull
| denotes_bool b : denotes cells (WBool b) (VBool b)
| denotes_num n : denotes cells (WNum n) (VNum n)
| denotes_str s : denotes cells (WStr s) (VStr s)
| denotes_object a props members :
    nth_error cells a = Some (ObjectCell props) ->
    Forall2 (fun p q => fst p = fst q /\ denotes cells (snd p) (snd q))
      props members ->
    denotes cells (WRef a) (VObj members)
| denotes_array a items elements :
    nth_error cells a = Some (ArrayCell items) ->
    Forall2 (denotes cells) items elements ->
    denotes cells (WRef a) (VArr elements).

(** The machine [m'] is the machine [m] with more cells: no cell of [m]
    has changed, and the state of the run is the same. *)
Definition grows (m m' : Machine) : Prop :=
  (exists more, memory m' = memory m ++ more)%list /\ outside m' = outside m.

(** Two calls agree when both throw the same error, or both return, and
    then two different objects that stand for deep-equal values. *)
Definition agree (cells : list cell) (r1 r2 : result word) : Prop :=
  match r1, r2 with
  | Ok o1, Ok o2 =>
      o1 <> o2
      /\ exists out1 out2,
           denotes cells o1 out1 /\ denotes cells o2 out2
           /\ deep_equal out1 out2 = true
  | Throw e1, Throw e2 => e1 = e2
  | _, _ => False
  end.

(** A value laid out in memory, its parts first. *)
Fixpoint lay_out (v : value) (cells : list cell) : word * list cell :=
  match v with
  | VUndefined => (WUndefined, cells)
  | VNull => (WNull, cells)
  | VBool b => (WBool b, cells)
  | VNum n => (WNum n, cells)
  | VStr s => (WStr s, cells)
  | VArr items =>
      let '(ws, cells') :=
        (fix elements (l : list value) (cells : list cell)
           : list word * list cell :=
           match l with
           | [] => ([], cells)
           | x :: r =>
               let '(w, c1) := lay_out x cells in
               let '(ws, c2) := elements r c1 in
               (w :: ws, c2)
           end) items cells in
      (WRef (length cells'), cells' ++ [ArrayCell ws])%list
  | VObj props =>
      let '(ws, cells') :=
        (fix members (l : list (string * value)) (cells : list cell)
           : list (string * word) * list cell :=
           match l with
           | [] => ([], cells)
           | (k, x) :: r =>
               let '(w, c1) := lay_out x cells in
               let '(ws, c2) := members r c1 in
               ((k, w) :: ws, c2)
           end) props cells in
      (WRef (length cells'), cells' ++ [ObjectCell ws])%list
  end.

(** How deep the objects and arrays of a value nest. *)
Fixpoint height (v : value) : nat :=
  match v with
  | VArr items => S (fold_right (fun x h => Nat.max (height x) h) 0 items)
  | VObj props =>
      S (fold_right (fun kv h => Nat.max (height (snd kv)) h) 0 props)
  | _ => 0
  end.

(** A chain of addresses, each of a value that nests one deeper than the
    next. *)
Fixpoint ranked (cells : list cell) (chain : list nat) (n : nat) : Prop :=
  match chain, n with
  | [], 0 => True
  | a :: r, S n' =>
      (exists v, denotes cells (WRef a) v /\ height v = S n')
      /\ ranked cells r n'
  | _, _ => False
  end.

(** An operation over the memory does what a computation on values does
    when, from a machine on, it ends the same way, having only added
    cells, and returns a result that stands for the result of the
    computation. *)
Definition simulates {A B} (R : list cell -> A -> B -> Prop) (op : Op A)
  (r : result B) (m : Machine) : Prop :=
  exists m',
    grows m m'
    /\ match r with
       | Ok b => exists a, op m = (Ok a, m') /\ R (memory m') a b
       | Throw e => op m = (Throw e, m')
       end.

(** ** The accumulator of the status summary *)

(** The accumulator starts as [{}] and only ever receives the result of
    [(acc[k] || 0) + 1]: a count, or a text when [+] concatenates. *)
Inductive slot : Type :=
| Count (n : N)
| Text (s : string).

Fixpoint own_slot (k : string) (acc : list (string * slot)) : option slot :=
  match acc with
  | [] => None
  | (k', v) :: r => if String.eqb k' k then Some v else own_slot k r
  end.

(** The functions an object created by [{}] inherits from
    [Object.prototype], each with the name it prints under. *)
Definition Object_prototype_functions : list (string * string) :=
  [("constructor", "Object");
   ("__defineGetter__", "__defineGetter__");
   ("__defineSetter__", "__defineSetter__");
   ("hasOwnProperty", "hasOwnProperty");
   ("__lookupGetter__", "__lookupGetter__");
   ("__lookupSetter__", "__lookupSetter__");
   ("isPrototypeOf", "isPrototypeOf");
   ("propertyIsEnumerable", "propertyIsEnumerable");
   ("toString", "toString");
   ("valueOf", "valueOf");
   ("toLocaleString", "toLocaleString")].

Fixpoint assoc (k : string) (l : list (string * string)) : option string :=
  match l with
  | [] => None
  | (k', v) :: r => if String.eqb k' k then Some v else assoc k r
  end.

(** What [acc[k]] reads when [acc] has no own property [k], as the text
    [+] converts it to: the getter [__proto__] gives [Object.prototype]
    itself, an inherited function prints as native code, and any other
    key reads [undefined] (no text).  Every inherited value is an object,
    hence truthy. *)
Definition inherited_text (k : string) : option string :=
  if String.eqb k "__proto__" then Some "[object Object]"
  else match assoc k Object_prototype_functions with
       | Some name => Some ("function " ++ name ++ "() { [native code] }")
       | None => None
       end.

(** [(acc[k] || 0) + 1]. *)
Definition incremented (k : string) (acc : list (string * slot)) : slot :=
  match own_slot k acc with
  | Some (Count n) => Count (n + 1)
  | Some (Text s) => if String.eqb s "" then Count 1 else Text (s ++ "1")
  | None =>
      match inherited_text k with
      | Some t => Text (t ++ "1")
      | None => Count 1
      end
  end.

Fixpoint replace_slot (k : string) (v : slot) (acc : list (string * slot))
  : list (string * slot) :=
  match acc with
  | [] => []
  | (k', x) :: r =>
      if String.eqb k' k then (k', v) :: r else (k', x) :: replace_slot k v r
  end.

(** [acc[k] = v]: an own property is overwritten; otherwise the setter
    [__proto__] ignores a value that is neither an object nor [null],
    and any other key becomes a new own property. *)
Definition assign (k : string) (v : slot) (acc : list (string * slot))
  : list (string * slot) :=
  match own_slot k acc with
  | Some _ => replace_slot k v acc
  | None => if String.eqb k "__proto__" then acc else acc ++ [(k, v)]
  end.

Fixpoint reduce {A B} (f : B -> A -> result B) (l : list A) (acc : B)
  : result B :=
  match l with
  | [] => Ok acc
  | x :: r => acc' <- f acc x ;; reduce f r acc'
  end.

(** [Object.entries]: the own properties, those whose key is an array
    index first, by ascending index, then the others as inserted. *)
Definition digit (c : ascii) : option N :=
  let n := N_of_ascii c in
  if ((48 <=? n) && (n <=? 57))%N then Some (n - 48)%N else None.

Fixpoint digits (s : string) (acc : N) : option N :=
  match s with
  | EmptyString => Some acc
  | String c r =>
      match digit c with
      | Some d => digits r (10 * acc + d)%N
      | None => None
      end
  end.

Definition array_index (k : string) : option N :=
  match k with
  | EmptyString => None
  | String c r =>
      if Ascii.eqb c "0" then (if String.eqb r "" then Some 0%N else None)
      else match digits k 0 with
           | Some n => if (n <=? 4294967294)%N then Some n else None
           | None => None
           end
  end.

Fixpoint insert_index (i : N) (e : string * slot)
  (l : list (N * (string * slot))) : list (N * (string * slot)) :=
  match l with
  | [] => [(i, e)]
  | (j, e') :: r =>
      if (i <=? j)%N then (i, e) :: l else (j, e') :: insert_index i e r
  end.

Fixpoint indexed (acc : list (string * slot)) : list (N * (string * slot)) :=
  match acc with
  | [] => []
  | (k, v) :: r =>
      match array_index k with
      | Some i => insert_index i (k, v) (indexed r)
      | None => indexed r
      end
  end.

Definition Object_entries (acc : list (string * slot)) : list (string * slot) :=
  map snd (indexed acc)
  ++ filter (fun e => match array_index (fst e) with
                      | Some _ => false
                      | None => true
                      end) acc.

Definition newline : string := String (ascii_of_nat 10) "".

(** ** The normalizer *)

(** [JIRA_CONFIG], once the check at the top of the script has passed:
    each setting is then a non-empty string. *)
Record Config : Type := mkConfig {
  baseURL : string;
  email : string;
  apiToken : string;
  projectKey : string
}.

Section Script.

(** The module-level constant of the script. *)
Variable JIRA_CONFIG : Config.

(** [Number::toString] of the runtime, the shortest decimal text that
    reads back as the same double. *)
Variable NumberToString : number -> string.

(** ToString, as a template literal and a computed property key apply it,
    on values made from a parsed JSON body.  An array joins the texts of
    its elements with commas, [null] and [undefined] elements giving the
    empty text.  An object without an own [toString] inherits the one of
    [Object.prototype]; with an own [toString], which is never callable
    in parsed data, no conversion yields a primitive and the conversion
    throws. *)
Fixpoint ToString (v : value) : result string :=
  match v with
  | VUndefined => Ok "undefined"
  | VNull => Ok "null"
  | VBool true => Ok "true"
  | VBool false => Ok "false"
  | VNum n => Ok (NumberToString n)
  | VStr s => Ok s
  | VArr items =>
      (fix join (l : list value) : result string :=
         match l with
         | [] => Ok ""
         | x :: r =>
             a <- (if nullish x then Ok "" else ToString x) ;;
             match r with
             | [] => Ok a
             | _ :: _ => b <- join r ;; Ok (a ++ "," ++ b)
             end
         end) items
  | VObj props =>
      match own "toString" props with
      | None => Ok "[object Object]"
      | Some _ => Throw (TypeError "Cannot convert object to primitive value")
      end
  end.

(** Lines 94-96: the text of the first segment of the first block of a
    rich-text body, else the raw field, else the placeholder. *)
Definition description_of (issue : value) : result value :=
  d <- path ["fields"; "description"] issue ;;
  Ok (or_else (rich_text d) (or_else d (VStr "No description available"))).

(** Lines 97-100. *)
Definition status_of (issue : value) : result value :=
  name <- path ["fields"; "status"; "name"] issue ;;
  category <- path ["fields"; "status"; "statusCategory"; "name"] issue ;;
  Ok (VObj [("name", name); ("category", category)]).

(** Lines 101-104. *)
Definition priority_of (issue : value) : result value :=
  p <- path ["fields"; "priority"] issue ;;
  Ok (VObj [("name", or_else (opt_get "name" p) (VStr "None"));
            ("id", or_else (opt_get "id" p) VNull)]).

(** Lines 105-109 with [who = "assignee"], lines 110-114 with
    [who = "reporter"]. *)
Definition person_of (who : string) (issue : value) : result value :=
  a <- path ["fields"; who] issue ;;
  if truthy a then
    displayName <- path ["fields"; who; "displayName"] issue ;;
    emailAddress <- path ["fields"; who; "emailAddress"] issue ;;
    accountId <- path ["fields"; who; "accountId"] issue ;;
    Ok (VObj [("displayName", displayName);
              ("emailAddress", emailAddress);
              ("accountId", accountId)])
  else Ok VNull.

(** Lines 117 and 119: [issue.fields.<field>?.map(x => x.name) || []]. *)
Definition names_of (field : string) (issue : value) : result value :=
  c <- path ["fields"; field] issue ;;
  m <- opt_map ("issue.fields." ++ field ++ "?.map") (get "name") c ;;
  Ok (or_else m (VArr [])).

(** Line 118. *)
Definition labels_of (issue : value) : result value :=
  l <- path ["fields"; "labels"] issue ;;
  Ok (or_else l (VArr [])).

(** Line 120. *)
Definition storyPoints_of (issue : value) : result value :=
  sp <- path ["fields"; "customfield_10016"] issue ;;
  Ok (or_else sp VNull).

(** Lines 121-125, the function mapped over the links. *)
Definition link_entry (link : value) : result value :=
  type <- path ["type"; "name"] link ;;
  inward <- path ["type"; "inward"] link ;;
  direction <- or_elseM inward (path ["type"; "outward"] link) ;;
  inwardIssue <- get "inwardIssue" link ;;
  linkedIssue <-
    or_elseM (opt_get "key" inwardIssue)
      (outwardIssue <- get "outwardIssue" link ;;
       Ok (opt_get "key" outwardIssue)) ;;
  Ok (VObj [("type", type);
            ("direction", direction);
            ("linkedIssue", linkedIssue)]).

Definition issueLinks_of (issue : value) : result value :=
  l <- path ["fields"; "issuelinks"] issue ;;
  m <- opt_map "issue.fields.issuelinks?.map" link_entry l ;;
  Ok (or_else m (VArr [])).

(** Line 126. *)
Definition url_of (issue : value) : result value :=
  k <- get "key" issue ;;
  s <- ToString k ;;
  Ok (VStr (baseURL JIRA_CONFIG ++ "/browse/" ++ s)).

(** Lines 90-128.  The properties of the object literal are evaluated in
    the order written, and the first throw ends the call. *)
Definition transformUserStory (issue : value) : result value :=
  key <- get "key" issue ;;
  summary <- path ["fields"; "summary"] issue ;;
  description <- description_of issue ;;
  status <- status_of issue ;;
  priority <- priority_of issue ;;
  assignee <- person_of "assignee" issue ;;
  reporter <- person_of "reporter" issue ;;
  created <- path ["fields"; "created"] issue ;;
  updated <- path ["fields"; "updated"] issue ;;
  components <- names_of "components" issue ;;
  labels <- labels_of issue ;;
  fixVersions <- names_of "fixVersions" issue ;;
  storyPoints <- storyPoints_of issue ;;
  issueLinks <- issueLinks_of issue ;;
  url <- url_of issue ;;
  Ok (VObj [("key", key);
            ("summary", summary);
            ("description", description);
            ("status", status);
            ("priority", priority);
            ("assignee", assignee);
            ("reporter", reporter);
            ("created", created);
            ("updated", updated);
            ("components", components);
            ("labels", labels);
            ("fixVersions", fixVersions);
            ("storyPoints", storyPoints);
            ("issueLinks", issueLinks);
            ("url", url)]).

(** ** The normalizer in memory *)

(** ToString of a word.  The conversion of an array converts its
    elements, and an array met again while it is being converted gives
    the empty text; so the conversion goes no deeper than there are
    cells, which is how deep [depth] lets it go. *)
Fixpoint text_of_word (depth : nat) (joining : list nat) (cells : list cell)
  (w : word) : result string :=
  match w with
  | WUndefined => Ok "undefined"
  | WNull => Ok "null"
  | WBool true => Ok "true"
  | WBool false => Ok "false"
  | WNum n => Ok (NumberToString n)
  | WStr s => Ok s
  | WRef a =>
      match nth a cells (ObjectCell []) with
      | ObjectCell props =>
          match own_word "toString" props with
          | None => Ok "[object Object]"
          | Some _ =>
              Throw (TypeError "Cannot convert object to primitive value")
          end
      | ArrayCell items =>
          if existsb (Nat.eqb a) joining then Ok ""
          else
            match depth with
            | 0 => Ok ""
            | S depth' =>
                (fix join (l : list word) : result string :=
                   match l with
                   | [] => Ok ""
                   | x :: r =>
                       t <- (if nullish_word x then Ok ""
                             else text_of_word depth' (a :: joining) cells x) ;;
                       match r with
                       | [] => Ok t
                       | _ :: _ => ts <- join r ;; Ok (t ++ "," ++ ts)
                       end
                   end) items
            end
      end
  end.

Definition ToString_word (w : word) : Op string :=
  fun m => (text_of_word (length (memory m)) [] (memory m) w, m).

(** [d?.content?.[0]?.content?.[0]?.text]. *)
Definition rich_text_in_memory (d : word) : Op word :=
  body <== opt_read "content" d ;;
  block <== opt_first body ;;
  nodes <== opt_read "content" block ;;
  node <== opt_first nodes ;;
  opt_read "text" node.

(** Lines 94-96. *)
Definition description_in_memory (issue : word) : Op word :=
  d <== read_path ["fields"; "description"] issue ;;
  text <== rich_text_in_memory d ;;
  retM (or_else_word text (or_else_word d (WStr "No description available"))).

(** Lines 97-100. *)
Definition status_in_memory (issue : word) : Op word :=
  name <== read_path ["fields"; "status"; "name"] issue ;;
  category <== read_path ["fields"; "status"; "statusCategory"; "name"] issue ;;
  new (ObjectCell [("name", name); ("category", category)]).

(** Lines 101-104. *)
Definition priority_in_memory (issue : word) : Op word :=
  p <== read_path ["fields"; "priority"] issue ;;
  name <== opt_read "name" p ;;
  id <== opt_read "id" p ;;
  new (ObjectCell [("name", or_else_word name (WStr "None"));
                   ("id", or_else_word id WNull)]).

(** Lines 105-114. *)
Definition person_in_memory (who : string) (issue : word) : Op word :=
  a <== read_path ["fields"; who] issue ;;
  if truthy_word a then
    displayName <== read_path ["fields"; who; "displayName"] issue ;;
    emailAddress <== read_path ["fields"; who; "emailAddress"] issue ;;
    accountId <== read_path ["fields"; who; "accountId"] issue ;;
    new (ObjectCell [("displayName", displayName);
                     ("emailAddress", emailAddress);
                     ("accountId", accountId)])
  else retM WNull.

(** [x || []]: the empty array is a new one. *)
Definition or_empty_array (x : word) : Op word :=
  if truthy_word x then retM x else new (ArrayCell []).

(** Lines 117 and 119. *)
Definition names_in_memory (field : string) (issue : word) : Op word :=
  c <== read_path ["fields"; field] issue ;;
  m <== opt_map_words ("issue.fields." ++ field ++ "?.map") (read "name") c ;;
  or_empty_array m.

(** Line 118: the labels of the record are the array of the source
    itself, not a copy. *)
Definition labels_in_memory (issue : word) : Op word :=
  l <== read_path ["fields"; "labels"] issue ;;
  or_empty_array l.

(** Line 120. *)
Definition storyPoints_in_memory (issue : word) : Op word :=
  sp <== read_path ["fields"; "customfield_10016"] issue ;;
  retM (or_else_word sp WNull).

(** Lines 121-125. *)
Definition link_entry_in_memory (link : word) : Op word :=
  type <== read_path ["type"; "name"] link ;;
  inward <== read_path ["type"; "inward"] link ;;
  direction <== (if truthy_word inward then retM inward
                 else read_path ["type"; "outward"] link) ;;
  inwardIssue <== read "inwardIssue" link ;;
  inwardKey <== opt_read "key" inwardIssue ;;
  linkedIssue <==
    (if truthy_word inwardKey then retM inwardKey
     else outwardIssue <== read "outwardIssue" link ;;
          opt_read "key" outwardIssue) ;;
  new (ObjectCell [("type", type);
                   ("direction", direction);
                   ("linkedIssue", linkedIssue)]).

Definition issueLinks_in_memory (issue : word) : Op word :=
  l <== read_path ["fields"; "issuelinks"] issue ;;
  m <== opt_map_words "issue.fields.issuelinks?.map" link_entry_in_memory l ;;
  or_empty_array m.

(** Line 126. *)
Definition url_in_memory (issue : word) : Op word :=
  k <== read "key" issue ;;
  s <== ToString_word k ;;
  retM (WStr (baseURL JIRA_CONFIG ++ "/browse/" ++ s)).

(** Lines 90-128, over the memory: the record is a new object, made once
    its fifteen properties are evaluated. *)
Definition transformUserStory_in_memory (issue : word) : Op word :=
  key <== read "key" issue ;;
  summary <== read_path ["fields"; "summary"] issue ;;
  description <== description_in_memory issue ;;
  status <== status_in_memory issue ;;
  priority <== priority_in_memory issue ;;
  assignee <== person_in_memory "assignee" issue ;;
  reporter <== person_in_memory "reporter" issue ;;
  created <== read_path ["fields"; "created"] issue ;;
  updated <== read_path ["fields"; "updated"] issue ;;
  components <== names_in_memory "components" issue ;;
  labels <== labels_in_memory issue ;;
  fixVersions <== names_in_memory "fixVersions" issue ;;
  storyPoints <== storyPoints_in_memory issue ;;
  issueLinks <== issueLinks_in_memory issue ;;
  url <== url_in_memory issue ;;
  new (ObjectCell [("key", key);
                   ("summary", summary);
                   ("description", description);
                   ("status", status);
                   ("priority", priority);
                   ("assignee", assignee);
                   ("reporter", reporter);
                   ("created", created);
                   ("updated", updated);
                   ("components", components);
                   ("labels", labels);
                   ("fixVersions", fixVersions);
                   ("storyPoints", storyPoints);
                   ("issueLinks", issueLinks);
                   ("url", url)]).

(** ** The pipeline *)

(** The outside of this run. *)
Variable W : World.

(** [await jiraApi.get(url, { params })]: the request is sent and the
    promise settles as the world says. *)
Definition jiraApi_get (url : string) (params : list (string * value))
  : IO value :=
  emit (HttpGet url params) ;;; lift (jiraApi_response W).

Definition fs_existsSync (dir : string) : IO bool :=
  emit (ExistsSync dir) ;;; ret (dataDir_exists W).

Definition fs_mkdirSync (dir : string) : IO unit :=
  emit (MkdirSync dir) ;;; lift (mkdirSync_outcome W).

(** [fs.writeFileSync(file, text)] opens the file, which creates it or
    cuts it to nothing, and then writes the text.  A write that goes
    through leaves the whole document in the file.  A write that throws
    leaves the file system as it was when the file could not be opened,
    and leaves the file torn when it could. *)
Definition fs_writeFileSync (file : string) (document : value) : IO unit :=
  emit (WriteFileSync file document) ;;;
  fun s =>
    match writeFileSync_outcome W with
    | Ok _ =>
        (Ok tt,
         mkState (trace s) (store file (Whole document) (files s))
           (clock_reads s))
    | Throw e =>
        (Throw e,
         if writeFileSync_opened W
         then mkState (trace s) (store file Torn (files s)) (clock_reads s)
         else s)
    end.

(** [new Date().toISOString()]. *)
Definition new_Date_toISOString : IO string :=
  fun s => (Ok (clock W (clock_reads s)),
            mkState (trace s) (files s) (S (clock_reads s))).

Definition requested_fields : list string :=
  ["key"; "summary"; "description"; "status"; "priority"; "assignee";
   "reporter"; "created"; "updated"; "components"; "labels"; "fixVersions";
   "customfield_10016"; "issuelinks"].

(** A parameter declared with a default: the default stands in when the
    argument is [undefined], which it also is when it is left out. *)
Definition default_parameter (fallback argument : value) : value :=
  match argument with
  | VUndefined => fallback
  | _ => argument
  end.

(** Lines 47-83.  The bound is declared [maxResults = 100]. *)
Definition fetchUserStories (projectKey : string) (maxResults : value)
  : IO value :=
  let maxResults := default_parameter (VNum (number_of_N 100)) maxResults in
  try_catch
    (console_log
       [VStr ("🔍 Fetching user stories from project: " ++ projectKey ++ "...")] ;;;
     let jql := "project = " ++ projectKey
                ++ " AND issuetype = Story ORDER BY created DESC" in
     response <~ jiraApi_get "/search/jql"
                   [("jql", VStr jql);
                    ("maxResults", maxResults);
                    ("fields", VStr (String.concat "," requested_fields))] ;;
     total <~ lift (path ["data"; "total"] response) ;;
     total_text <~ lift (ToString total) ;;
     console_log [VStr ("✅ Found " ++ total_text ++ " user stories")] ;;;
     lift (path ["data"; "issues"] response))
    (fun error =>
       console_error
         [VStr "❌ Error fetching user stories:";
          or_else (opt_get "data" (response error)) (VStr (message error))] ;;;
       throw error).

(** [userStories.length]. *)
Definition length_of (userStories : list value) : number :=
  number_of_N (N.of_nat (length userStories)).

(** Lines 135-165. *)
Definition saveToJSON (userStories : list value) (filename : string)
  : IO string :=
  try_catch
    (let dataDir := dataDir W in
     present <~ fs_existsSync dataDir ;;
     (if negb present
      then fs_mkdirSync dataDir ;;;
           console_log [VStr "📁 Created data directory"]
      else ret tt) ;;;
     let filePath := path_join W dataDir filename in
     fetchedAt <~ new_Date_toISOString ;;
     let output :=
       VObj [("metadata",
              VObj [("projectKey", VStr (projectKey JIRA_CONFIG));
                    ("totalStories", VNum (length_of userStories));
                    ("fetchedAt", VStr fetchedAt);
                    ("jiraBaseUrl", VStr (baseURL JIRA_CONFIG))]);
             ("userStories", VArr userStories)] in
     fs_writeFileSync filePath (JSON_stringify output) ;;;
     console_log
       [VStr ("💾 Saved " ++ NumberToString (length_of userStories)
              ++ " user stories to: " ++ filePath)] ;;;
     ret filePath)
    (fun error =>
       console_error [VStr "❌ Error saving to JSON:"; VStr (message error)] ;;;
       throw error).

(** Lines 195-198, the summary by status. *)
Definition count_status (acc : list (string * slot)) (story : value)
  : result (list (string * slot)) :=
  name <- path ["status"; "name"] story ;;
  k <- ToString name ;;
  Ok (assign k (incremented k acc) acc).

Definition statusCounts (stories : list value) : result (list (string * slot)) :=
  reduce count_status stories [].

Definition slot_text (v : slot) : string :=
  match v with
  | Count n => NumberToString (number_of_N n)
  | Text s => s
  end.

Fixpoint forEach {A} (f : A -> IO unit) (l : list A) : IO unit :=
  match l with
  | [] => ret tt
  | x :: r => f x ;;; forEach f r
  end.

(** Lines 170-211. *)
Definition main : IO unit :=
  try_catch
    (console_log [VStr "🚀 Starting Jira user stories extraction..."] ;;;
     console_log [VStr ("📊 Project: " ++ projectKey JIRA_CONFIG)] ;;;
     console_log [VStr ("🔗 Jira URL: " ++ baseURL JIRA_CONFIG)] ;;;
     (* The bound is left out of the call of line 177. *)
     rawUserStories <~ fetchUserStories (projectKey JIRA_CONFIG) VUndefined ;;
     console_log [VStr "🔄 Transforming user stories..."] ;;;
     transformedUserStories <~
       lift (call_map "rawUserStories" transformUserStory rawUserStories) ;;
     (* [timestamp], the date part of this reading, is not used. *)
     timestamp <~ new_Date_toISOString ;;
     let filename := "jira-user-story.json" in
     savedPath <~ saveToJSON transformedUserStories filename ;;
     console_log [VStr (newline ++ "📈 Summary:")] ;;;
     console_log
       [VStr ("   Total user stories: "
              ++ NumberToString (length_of transformedUserStories))] ;;;
     console_log [VStr ("   File saved: " ++ savedPath)] ;;;
     console_log [VStr ("   Project: " ++ projectKey JIRA_CONFIG)] ;;;
     counts <~ lift (statusCounts transformedUserStories) ;;
     console_log [VStr (newline ++ "📊 Stories by status:")] ;;;
     forEach
       (fun entry =>
          console_log [VStr ("   " ++ fst entry ++ ": " ++ slot_text (snd entry))])
       (Object_entries counts) ;;;
     console_log [VStr (newline ++ "✅ Process completed successfully!")])
    (fun error =>
       console_error [VStr (newline ++ "❌ Process failed:"); VStr (message error)] ;;;
       process_exit 1).

(** The run of the script from the start of [main]. *)
Definition run : State := snd (main initial).

(** ** Notions the statements are written with *)

(** The object literal of lines 91-127. *)
Definition normalized (key summary description status priority assignee
  reporter created updated components labels fixVersions storyPoints
  issueLinks url : value) : value :=
  VObj [("key", key);
        ("summary", summary);
        ("description", description);
        ("status", status);
        ("priority", priority);
        ("assignee", assignee);
        ("reporter", reporter);
        ("created", created);
        ("updated", updated);
        ("components", components);
        ("labels", labels);
        ("fixVersions", fixVersions);
        ("storyPoints", storyPoints);
        ("issueLinks", issueLinks);
        ("url", url)].

(** The three fields of a person (lines 106-108). *)
Definition person_projection (src : value) : value :=
  VObj [("displayName", opt_get "displayName" src);
        ("emailAddress", opt_get "emailAddress" src);
        ("accountId", opt_get "accountId" src)].

(** The triple of a link (lines 122-124), when no read throws. *)
Definition link_projection (link : value) : value :=
  let type := opt_get "type" link in
  VObj [("type", opt_get "name" type);
        ("direction", or_else (opt_get "inward" type) (opt_get "outward" type));
        ("linkedIssue",
         or_else (opt_get "key" (opt_get "inwardIssue" link))
                 (opt_get "key" (opt_get "outwardIssue" link)))].

(** A source sequence the normalizer can map: absent (missing or
    [null]), or an array whose entries all pass [entry_ok]. *)
Definition absent_or_array (entry_ok : value -> Prop) (src : value) : Prop :=
  nullish src = true \/ exists items, src = VArr items /\ Forall entry_ok items.

(** The shape under which no read of the normalizer throws: the
    identifier, the summary and the status with its category are
    present as texts; components and versions, when present, are arrays
    without [null] entries; links, when present, are an array of links
    that each carry a type. *)
Definition well_shaped (issue : value) : Prop :=
  let fields := opt_get "fields" issue in
  let status := opt_get "status" fields in
  (exists id, opt_get "key" issue = VStr id)
  /\ (exists summary, opt_get "summary" fields = VStr summary)
  /\ (exists name, opt_get "name" status = VStr name)
  /\ (exists category,
         opt_get "name" (opt_get "statusCategory" status) = VStr category)
  /\ absent_or_array (fun c => nullish c = false) (opt_get "components" fields)
  /\ absent_or_array (fun v => nullish v = false) (opt_get "fixVersions" fields)
  /\ absent_or_array (fun l => nullish (opt_get "type" l) = false)
       (opt_get "issuelinks" fields).

(** The top-level properties that the normalizer copies with a default
    or builds itself. *)
Definition defaulted : list string :=
  ["description"; "status"; "priority"; "assignee"; "reporter"; "components";
   "labels"; "fixVersions"; "storyPoints"; "issueLinks"; "url"].

(** The accumulator after the keys [keys] were counted into [acc]. *)
Definition tally (keys : list string) (acc : list (string * slot))
  : list (string * slot) :=
  fold_left (fun acc k => assign k (incremented k acc) acc) keys acc.

(** How many of the keys [keys] are [k]. *)
Definition occurrences (k : string) (keys : list string) : N :=
  N.of_nat (count_occ string_dec keys k).

(** [acc] holds [n] for [k]: no property when [n] is 0, else the count. *)
Definition counted (k : string) (acc : list (string * slot)) (n : N) : Prop :=
  (n = 0%N /\ own_slot k acc = None)
  \/ (n <> 0%N /\ own_slot k acc = Some (Count n)).

(** A normalized record, cut down to the properties the summary reads. *)
Definition story_with_status (name : string) : value :=
  VObj [("key", VStr "PROJ-1");
        ("status", VObj [("name", VStr name); ("category", VStr "To Do")])].

(** The three stages, as [main] calls them.  Line 177. *)
Definition stage_fetch : result value :=
  fst (fetchUserStories (projectKey JIRA_CONFIG) VUndefined initial).

(** Line 181. *)
Definition stage_normalize (rawUserStories : value) : result (list value) :=
  call_map "rawUserStories" transformUserStory rawUserStories.

(** Line 186. *)
Definition stage_write (stories : list value) : result string :=
  fst (saveToJSON stories "jira-user-story.json" initial).

(** The document [saveToJSON] builds from the records and the reading of
    the clock it takes. *)
Definition document (stories : list value) (fetchedAt : string) : value :=
  VObj [("metadata",
         VObj [("projectKey", VStr (projectKey JIRA_CONFIG));
               ("totalStories", VNum (length_of stories));
               ("fetchedAt", VStr fetchedAt);
               ("jiraBaseUrl", VStr (baseURL JIRA_CONFIG))]);
        ("userStories", VArr stories)].

(** The path of the one file a run writes. *)
Definition output_file : string :=
  path_join W (dataDir W) "jira-user-story.json".

(** The three stages in sequence: the records and the file of a run in
    which none throws, else the error of the first that throws. *)
Definition pipeline : result (list value * string) :=
  raws <- stage_fetch ;;
  stories <- stage_normalize raws ;;
  file <- stage_write stories ;;
  Ok (stories, file).

(** The status name of a normalized record is a text. *)
Definition named_status (story : value) : Prop :=
  exists name, path ["status"; "name"] story = Ok (VStr name).

(** [s] with the events [evs] added. *)
Definition logged (s : State) (evs : list event) : State :=
  mkState (trace s ++ evs) (files s) (clock_reads s).

(** The events of a run, by name. *)
Definition opening : list event :=
  [Stdout [VStr "🚀 Starting Jira user stories extraction..."];
   Stdout [VStr ("📊 Project: " ++ projectKey JIRA_CONFIG)];
   Stdout [VStr ("🔗 Jira URL: " ++ baseURL JIRA_CONFIG)]].

Definition fetching : event :=
  Stdout [VStr ("🔍 Fetching user stories from project: "
                ++ projectKey JIRA_CONFIG ++ "...")].

Definition request : event :=
  HttpGet "/search/jql"
    [("jql", VStr ("project = " ++ projectKey JIRA_CONFIG
                   ++ " AND issuetype = Story ORDER BY created DESC"));
     ("maxResults", VNum (number_of_N 100));
     ("fields", VStr (String.concat "," requested_fields))].

Definition transforming : event :=
  Stdout [VStr "🔄 Transforming user stories..."].

Definition fetch_failure (e : exn) : event :=
  Stderr [VStr "❌ Error fetching user stories:";
          or_else (opt_get "data" (response e)) (VStr (message e))].

(** The diagnostic of [main] and the exit that follows it. *)
Definition failure_report (msg : string) : list event :=
  [Stderr [VStr (newline ++ "❌ Process failed:"); VStr msg]; Exit 1].

(** Kinds of events. *)
Definition is_exit (e : event) : bool :=
  match e with
  | Exit _ => true
  | _ => false
  end.

Definition is_file_system (e : event) : bool :=
  match e with
  | ExistsSync _ | MkdirSync _ | WriteFileSync _ _ => true
  | _ => false
  end.

Definition is_diagnostic (e : event) : bool :=
  match e with
  | Stderr _ => true
  | _ => false
  end.

(** ** Further notions: what is written, what is read, what is counted *)

(** Plain JSON data: no [undefined], [NaN], infinity or negative zero at
    any depth.  It is what a parsed body is made of. *)
Fixpoint is_json (v : value) : bool :=
  match v with
  | VUndefined => false
  | VNum NaN | VNum (Infinite _) | VNum (Zero true) => false
  | VArr items => forallb is_json items
  | VObj props => forallb (fun kv => is_json (snd kv)) props
  | _ => true
  end.

(** The exact shape under which no read of the normalizer throws:
    [issue], [issue.fields], the status and its category can be read
    from; components and versions are absent or arrays without [null]
    entries; links are absent or an array of links that each carry a
    type; and the key converts to a text. *)
Definition readable (issue : value) : Prop :=
  let fields := opt_get "fields" issue in
  let status := opt_get "status" fields in
  nullish issue = false
  /\ nullish fields = false
  /\ nullish status = false
  /\ nullish (opt_get "statusCategory" status) = false
  /\ absent_or_array (fun c => nullish c = false) (opt_get "components" fields)
  /\ absent_or_array (fun v => nullish v = false) (opt_get "fixVersions" fields)
  /\ absent_or_array (fun l => nullish (opt_get "type" l) = false)
       (opt_get "issuelinks" fields)
  /\ exists text, ToString (opt_get "key" issue) = Ok text.

(** The sum of the counts of a summary. *)
Fixpoint total (acc : list (string * slot)) : N :=
  match acc with
  | [] => 0%N
  | (_, Count n) :: r => (n + total r)%N
  | (_, Text _) :: r => total r
  end.

(** What a file holds, if the file exists. *)
Fixpoint read_file (file : string) (fs : list (string * content))
  : option content :=
  match fs with
  | [] => None
  | (k, d) :: r => if String.eqb k file then Some d else read_file file r
  end.

(** More kinds of events. *)
Definition is_request (e : event) : bool :=
  match e with
  | HttpGet _ _ => true
  | _ => false
  end.

Definition is_write (e : event) : bool :=
  match e with
  | WriteFileSync _ _ => true
  | _ => false
  end.

Definition is_mkdir (e : event) : bool :=
  match e with
  | MkdirSync _ => true
  | _ => false
  end.

Definition is_existsSync (e : event) : bool :=
  match e with
  | ExistsSync _ => true
  | _ => false
  end.

(** The request for the stories of a project, newest first, with a
    bound and the fourteen fields. *)
Definition search (projectKey : string) (maxResults : value) : event :=
  HttpGet "/search/jql"
    [("jql", VStr ("project = " ++ projectKey
                   ++ " AND issuetype = Story ORDER BY created DESC"));
     ("maxResults", maxResults);
     ("fields",
      VStr "key,summary,description,status,priority,assignee,reporter,created,updated,components,labels,fixVersions,customfield_10016,issuelinks")].

(** The diagnostic of [saveToJSON]. *)
Definition save_failure (e : exn) : event :=
  Stderr [VStr "❌ Error saving to JSON:"; VStr (message e)].

(** The end of [saveToJSON] from the state [s1] reached once the
    directory is there: the write, then the confirmation or the
    diagnostic. *)
Definition written (stories : list value) (filename : string) (s1 : State)
  : result string * State :=
  let file := path_join W (dataDir W) filename in
  let doc := JSON_stringify (document stories (clock W (clock_reads s1))) in
  match writeFileSync_outcome W with
  | Ok _ =>
      (Ok file,
       mkState
         (trace s1
          ++ [WriteFileSync file doc;
              Stdout [VStr ("💾 Saved " ++ NumberToString (length_of stories)
                            ++ " user stories to: " ++ file)]])
         (store file (Whole doc) (files s1)) (S (clock_reads s1)))
  | Throw e =>
      (Throw e,
       mkState (trace s1 ++ [WriteFileSync file doc; save_failure e])
         (if writeFileSync_opened W then store file Torn (files s1)
          else files s1)
         (S (clock_reads s1)))
  end.

(** How many events of a kind a trace has, and the events of a trace
    before the first of a kind. *)
Definition count (p : event -> bool) (t : list event) : nat :=
  length (filter p t).

Fixpoint until (p : event -> bool) (t : list event) : list event :=
  match t with
  | [] => []
  | e :: r => if p e then [] else e :: until p r
  end.

(** The own property [p] of an object; nothing for any other value. *)
Definition own_of (v : value) (p : string) : option value :=
  match v with
  | VObj props => own p props
  | _ => None
  end.

(** The names of the properties of a normalized record. *)
Definition record_keys : list string :=
  ["key"; "summary"; "description"; "status"; "priority"; "assignee";
   "reporter"; "created"; "updated"; "components"; "labels"; "fixVersions";
   "storyPoints"; "issueLinks"; "url"].

(** ** Properties of the primitive operations *)

Section ValueInduction.

Variable P : value -> Prop.
Hypothesis case_undefined : P VUndefined.
Hypothesis case_null : P VNull.
Hypothesis case_bool : forall b, P (VBool b).
Hypothesis case_num : forall n, P (VNum n).
Hypothesis case_str : forall s, P (VStr s).
Hypothesis case_arr : forall items, Forall P items -> P (VArr items).
Hypothesis case_obj :
  forall props, Forall (fun kv => P (snd kv)) props -> P (VObj props).

Fixpoint value_induction (v : value) : P v :=
  match v with
  | VUndefined => case_undefined
  | VNull => case_null
  | VBool b => case_bool b
  | VNum n => case_num n
  | VStr s => case_str s
  | VArr items =>
      case_arr items
        ((fix each (l : list value) : Forall P l :=
            match l with
            | [] => Forall_nil P
            | x :: r => Forall_cons x (value_induction x) (each r)
            end) items)
  | VObj props =>
      case_obj props
        ((fix each (l : list (string * value))
            : Forall (fun kv => P (snd kv)) l :=
            match l with
            | [] => Forall_nil _
            | kv :: r =>
                @Forall_cons _ (fun kv => P (snd kv)) kv r
                  (value_induction (snd kv)) (each r)
            end) props)
  end.

End ValueInduction.

Lemma number_eqb_refl (n : number) : number_eqb n n = true.
Proof.
  destruct n as [ | b | b | b m e]; simpl; try reflexivity;
    try (destruct b; reflexivity).
  rewrite Bool.eqb_reflx, Pos.eqb_refl, Z.eqb_refl. reflexivity.
Qed.

Lemma deep_equal_refl (v : value) : deep_equal v v = true.
Proof.
  induction v as [ | | b | n | s | items IH | props IH] using value_induction;
    simpl; try reflexivity.
  - destruct b; reflexivity.
  - apply number_eqb_refl.
  - apply String.eqb_refl.
  - induction IH as [ | x r Hx _ IHr]; [reflexivity | ].
    rewrite Hx. exact IHr.
  - induction IH as [ | [k x] r Hx _ IHr]; [reflexivity | ].
    simpl in Hx. rewrite String.eqb_refl, Hx. exact IHr.
Qed.

Lemma bind_Ok {A B} (r : result A) (k : A -> result B) (b : B) :
  (x <- r ;; k x) = Ok b -> exists a, r = Ok a /\ k a = Ok b.
Proof.
  destruct r as [a | e]; simpl; intros H; [ | discriminate].
  exists a. split; [reflexivity | exact H].
Qed.

Lemma path_Throw (ps : list string) (e : exn) :
  fold_left (fun acc p => x <- acc ;; get p x) ps (Throw e) = Throw e.
Proof.
  induction ps as [ | p ps IH]; simpl; [reflexivity | exact IH].
Qed.

Lemma path_cons (p : string) (ps : list string) (v : value) :
  path (p :: ps) v = (x <- get p v ;; path ps x).
Proof.
  unfold path. simpl. destruct (get p v) as [x | e]; simpl.
  - reflexivity.
  - apply path_Throw.
Qed.

Lemma path_nil (v : value) : path [] v = Ok v.
Proof. reflexivity. Qed.

(** A read from a value that is neither [undefined] nor [null] does not
    throw, and is the optional read. *)
Lemma get_opt_get (p : string) (v : value) :
  nullish v = false -> get p v = Ok (opt_get p v).
Proof.
  destruct v; simpl; intros H; try discriminate; reflexivity.
Qed.

Lemma get_Ok (p : string) (v x : value) :
  get p v = Ok x -> nullish v = false /\ x = opt_get p v.
Proof.
  destruct v; simpl; intros H; try discriminate;
    injection H as <-; split; reflexivity.
Qed.

Lemma truthy_not_nullish (v : value) : truthy v = true -> nullish v = false.
Proof. destruct v; simpl; intros H; try discriminate; reflexivity. Qed.

Lemma or_else_truthy (a b : value) :
  truthy b = true -> truthy (or_else a b) = true.
Proof.
  intros Hb. unfold or_else. destruct (truthy a) eqn:Ha; assumption.
Qed.

Lemma or_else_defined (a b : value) :
  b <> VUndefined -> or_else a b <> VUndefined.
Proof.
  intros Hb. unfold or_else. destruct (truthy a) eqn:Ha; [ | exact Hb].
  intros ->. discriminate.
Qed.

Lemma mapM_Forall2 {A B} (f : A -> result B) (l : list A) (ys : list B) :
  mapM f l = Ok ys <-> Forall2 (fun x y => f x = Ok y) l ys.
Proof.
  revert ys. induction l as [ | x r IH]; intros ys; simpl.
  - split.
    + intros H. injection H as <-. constructor.
    + intros H. inversion H. reflexivity.
  - split.
    + intros H. apply bind_Ok in H. destruct H as (y & Hy & H).
      apply bind_Ok in H. destruct H as (zs & Hzs & H).
      injection H as <-. constructor; [exact Hy | ]. apply IH. exact Hzs.
    + intros H. inversion H as [ | x' y r' zs Hy Hzs]; subst.
      rewrite Hy. simpl. apply IH in Hzs. rewrite Hzs. reflexivity.
Qed.


(** ** What a returned record is made of *)

(** When the normalizer returns, every property of the literal was
    evaluated without a throw, and the record is the literal. *)
Lemma transformUserStory_Ok (issue out : value) :
  transformUserStory issue = Ok out ->
  exists key summary description status priority assignee reporter created
         updated components labels fixVersions storyPoints issueLinks url,
    get "key" issue = Ok key
    /\ path ["fields"; "summary"] issue = Ok summary
    /\ description_of issue = Ok description
    /\ status_of issue = Ok status
    /\ priority_of issue = Ok priority
    /\ person_of "assignee" issue = Ok assignee
    /\ person_of "reporter" issue = Ok reporter
    /\ path ["fields"; "created"] issue = Ok created
    /\ path ["fields"; "updated"] issue = Ok updated
    /\ names_of "components" issue = Ok components
    /\ labels_of issue = Ok labels
    /\ names_of "fixVersions" issue = Ok fixVersions
    /\ storyPoints_of issue = Ok storyPoints
    /\ issueLinks_of issue = Ok issueLinks
    /\ url_of issue = Ok url
    /\ out = normalized key summary description status priority assignee
               reporter created updated components labels fixVersions
               storyPoints issueLinks url.
Proof.
  unfold transformUserStory. intros H.
  repeat (apply bind_Ok in H;
          let x := fresh "x" in
          let Hx := fresh "Hx" in
          destruct H as (x & Hx & H)).
  injection H as <-.
  do 15 eexists. repeat (split; [eassumption | ]). reflexivity.
Qed.

(** A record that normalizes has a [fields] object that can be read. *)
Lemma path_fields (p : string) (issue x : value) :
  path ["fields"; p] issue = Ok x ->
  nullish issue = false
  /\ nullish (opt_get "fields" issue) = false
  /\ x = opt_get p (opt_get "fields" issue).
Proof.
  rewrite path_cons. intros H. apply bind_Ok in H.
  destruct H as (f & Hf & H). apply get_Ok in Hf. destruct Hf as [Hi ->].
  rewrite path_cons in H. apply bind_Ok in H. destruct H as (y & Hy & H).
  apply get_Ok in Hy. destruct Hy as [Hn ->]. rewrite path_nil in H.
  injection H as <-. repeat split; assumption.
Qed.

Lemma path_fields_Ok (p : string) (issue : value) :
  nullish issue = false ->
  nullish (opt_get "fields" issue) = false ->
  path ["fields"; p] issue = Ok (opt_get p (opt_get "fields" issue)).
Proof.
  intros Hi Hf. rewrite path_cons, (get_opt_get _ _ Hi). simpl.
  rewrite path_cons, (get_opt_get _ _ Hf). reflexivity.
Qed.

Lemma path_snoc (ps : list string) (p : string) (v : value) :
  path (ps ++ [p])%list v = (x <- path ps v ;; get p x).
Proof. unfold path. rewrite fold_left_app. reflexivity. Qed.

Lemma rich_text_of_falsy (d : value) :
  truthy d = false -> rich_text d = VUndefined.
Proof. destruct d; simpl; intros H; try discriminate; reflexivity. Qed.

Lemma description_of_spec (issue d : value) :
  path ["fields"; "description"] issue = Ok d ->
  description_of issue
  = Ok (or_else (rich_text d) (or_else d (VStr "No description available"))).
Proof. intros H. unfold description_of. rewrite H. reflexivity. Qed.

(** ** The description (lines 94-96) *)

(** C1, as the code has it.  The description follows the chain of
    lines 94-96, which tests truthiness and nothing else: it is the
    value at the rich-text path when that value is truthy; else it is
    the raw field itself, whatever it is, when the raw field is truthy;
    else it is the placeholder.  So a non-empty plain string is kept as
    it is, and a field that is absent, [null] or empty gives the
    placeholder.  The description is always a truthy value, and it is a
    string exactly when the level it comes from holds one: it is not a
    string for a rich-text body whose path holds no text, which comes
    back as the body itself. *)
Theorem description_precedence (issue out d : value) :
  transformUserStory issue = Ok out ->
  path ["fields"; "description"] issue = Ok d ->
  (truthy (rich_text d) = true -> get "description" out = Ok (rich_text d))
  /\ (truthy (rich_text d) = false -> truthy d = true ->
      get "description" out = Ok d)
  /\ (forall s, d = VStr s -> s <> "" -> get "description" out = Ok (VStr s))
  /\ (truthy d = false ->
      get "description" out = Ok (VStr "No description available"))
  /\ (exists v, get "description" out = Ok v /\ truthy v = true)
  /\ ((exists s, get "description" out = Ok (VStr s)) <->
      (if truthy (rich_text d) then is_string (rich_text d)
       else is_string d || negb (truthy d)) = true).
Proof.
  intros Hout Hd. apply transformUserStory_Ok in Hout.
  destruct Hout as (k & su & de & st & pr & a & r & c & u & co & l & f & sp
                    & il & url & _ & _ & Hde & _ & _ & _ & _ & _ & _ & _ & _
                    & _ & _ & _ & _ & ->).
  rewrite (description_of_spec _ _ Hd) in Hde. injection Hde as <-.
  change (get "description" (normalized _ _ ?x _ _ _ _ _ _ _ _ _ _ _ _))
    with (Ok x).
  split; [ | split; [ | split; [ | split; [ | split]]]].
  - intros Ht. unfold or_else at 1. rewrite Ht. reflexivity.
  - intros Hr Ht. unfold or_else. rewrite Hr, Ht. reflexivity.
  - intros s -> Hs. unfold or_else. simpl.
    destruct (String.eqb_spec s ""); [contradiction | reflexivity].
  - intros Hf. rewrite (rich_text_of_falsy _ Hf). unfold or_else. simpl.
    rewrite Hf. reflexivity.
  - eexists. split; [reflexivity | ].
    apply or_else_truthy, or_else_truthy. reflexivity.
  - unfold or_else. destruct (truthy (rich_text d)) eqn:Ht.
    + split.
      * intros (s & [= ->]). reflexivity.
      * intros H. destruct (rich_text d); try discriminate.
        eexists. reflexivity.
    + destruct (truthy d) eqn:Htd.
      * rewrite Bool.orb_false_r. split.
        -- intros (s & [= ->]). reflexivity.
        -- intros H. destruct d; try discriminate. eexists. reflexivity.
      * rewrite Bool.orb_true_r. split; [reflexivity | ].
        intros _. eexists. reflexivity.
Qed.

(** ** Story points (line 120) *)

(** C10.  A story-point value that is falsy, the number 0 included, is
    normalized to [null]; a truthy one is kept as it is. *)
Theorem storyPoints_falsy_collapse (issue out sp : value) :
  transformUserStory issue = Ok out ->
  path ["fields"; "customfield_10016"] issue = Ok sp ->
  (truthy sp = false -> get "storyPoints" out = Ok VNull)
  /\ (forall negative,
         sp = VNum (Zero negative) -> get "storyPoints" out = Ok VNull)
  /\ (truthy sp = true -> get "storyPoints" out = Ok sp).
Proof.
  intros Hout Hsp. apply transformUserStory_Ok in Hout.
  destruct Hout as (k & su & de & st & pr & a & r & c & u & co & l & f & sp'
                    & il & url & _ & _ & _ & _ & _ & _ & _ & _ & _ & _ & _
                    & _ & Hsp' & _ & _ & ->).
  unfold storyPoints_of in Hsp'. rewrite Hsp in Hsp'. injection Hsp' as <-.
  change (get "storyPoints" (normalized _ _ _ _ _ _ _ _ _ _ _ _ ?x _ _))
    with (Ok x).
  unfold or_else. split; [ | split].
  - intros ->. reflexivity.
  - intros negative ->. reflexivity.
  - intros ->. reflexivity.
Qed.

(** ** People (lines 105-114) *)

Lemma person_of_spec (who : string) (issue src : value) :
  path ["fields"; who] issue = Ok src ->
  person_of who issue
  = Ok (if truthy src then person_projection src else VNull).
Proof.
  intros H. unfold person_of. rewrite H. simpl.
  destruct (truthy src) eqn:Ht; [ | reflexivity].
  apply truthy_not_nullish in Ht.
  change ["fields"; who; "displayName"] with (["fields"; who] ++ ["displayName"])%list.
  change ["fields"; who; "emailAddress"] with (["fields"; who] ++ ["emailAddress"])%list.
  change ["fields"; who; "accountId"] with (["fields"; who] ++ ["accountId"])%list.
  rewrite !path_snoc, H. simpl. rewrite !(get_opt_get _ _ Ht). reflexivity.
Qed.

(** C5, as the code has it.  For the assignee and for the reporter,
    the test of lines 105 and 110 is the truthiness of the source field:
    the result is [null] exactly when the source is falsy, and is the
    projection of its three fields exactly when it is truthy.  So an
    absent source (missing or [null]) gives [null] and a source object
    gives its projection; and a source that is present but falsy
    ([false], [0], [NaN] or the empty text) gives [null] as well. *)
Theorem person_null_iff_falsy (who : string) (issue out src : value) :
  who = "assignee" \/ who = "reporter" ->
  transformUserStory issue = Ok out ->
  path ["fields"; who] issue = Ok src ->
  (get who out = Ok VNull <-> truthy src = false)
  /\ (get who out = Ok (person_projection src) <-> truthy src = true)
  /\ (nullish src = true -> get who out = Ok VNull)
  /\ (is_object src = true -> get who out = Ok (person_projection src))
  /\ (nullish src = false -> truthy src = false -> get who out = Ok VNull).
Proof.
  intros Hwho Hout Hsrc. apply transformUserStory_Ok in Hout.
  destruct Hout as (k & su & de & st & pr & a & r & c & u & co & l & f & sp
                    & il & url & _ & _ & _ & _ & _ & Ha & Hr & _ & _ & _ & _
                    & _ & _ & _ & _ & ->).
  assert (Hget : get who (normalized k su de st pr a r c u co l f sp il url)
                 = Ok (if truthy src then person_projection src else VNull)).
  { destruct Hwho as [-> | ->].
    - rewrite (person_of_spec _ _ _ Hsrc) in Ha. injection Ha as <-.
      reflexivity.
    - rewrite (person_of_spec _ _ _ Hsrc) in Hr. injection Hr as <-.
      reflexivity. }
  rewrite Hget. split; [ | split; [ | split; [ | split]]].
  - destruct (truthy src); split; intros H; try reflexivity; discriminate.
  - destruct (truthy src); split; intros H; try reflexivity; discriminate.
  - intros Hn. destruct src; simpl in Hn; try discriminate; reflexivity.
  - intros Ho. destruct src; simpl in Ho; try discriminate; reflexivity.
  - intros _ ->. reflexivity.
Qed.

(** ** Sequences (lines 117-125) *)

Lemma mapM_get (p : string) (items names : list value) :
  mapM (get p) items = Ok names -> names = map (opt_get p) items.
Proof.
  revert names. induction items as [ | x r IH]; simpl; intros names H.
  - injection H as <-. reflexivity.
  - apply bind_Ok in H. destruct H as (y & Hy & H).
    apply bind_Ok in H. destruct H as (ys & Hys & H). injection H as <-.
    apply get_Ok in Hy. destruct Hy as [_ ->]. rewrite (IH _ Hys).
    reflexivity.
Qed.

Lemma names_of_spec (field : string) (issue src out : value) :
  path ["fields"; field] issue = Ok src ->
  names_of field issue = Ok out ->
  (nullish src = true -> out = VArr [])
  /\ (forall items, src = VArr items -> out = VArr (map (opt_get "name") items)).
Proof.
  intros Hsrc H. unfold names_of in H. rewrite Hsrc in H. simpl in H.
  apply bind_Ok in H. destruct H as (m & Hm & H). injection H as <-.
  split.
  - intros Hn. destruct src; simpl in Hn; try discriminate;
      simpl in Hm; injection Hm as <-; reflexivity.
  - intros items ->. simpl in Hm. apply bind_Ok in Hm.
    destruct Hm as (ys & Hys & Hm). injection Hm as <-.
    rewrite (mapM_get _ _ _ Hys). reflexivity.
Qed.

(** A link whose [type] can be read is mapped without a throw. *)
Lemma link_entry_spec (link : value) :
  nullish (opt_get "type" link) = false ->
  link_entry link = Ok (link_projection link).
Proof.
  intros Ht.
  assert (Hl : nullish link = false).
  { destruct link; simpl in *; try discriminate; reflexivity. }
  unfold link_entry, link_projection.
  rewrite !path_cons, !(get_opt_get _ _ Hl). simpl.
  rewrite !path_cons, !(get_opt_get _ _ Ht). simpl.
  unfold or_elseM, or_else.
  destruct (truthy (opt_get "inward" (opt_get "type" link))); simpl;
    destruct (truthy (opt_get "key" (opt_get "inwardIssue" link))); reflexivity.
Qed.

Lemma link_entry_Ok (link entry : value) :
  link_entry link = Ok entry ->
  nullish (opt_get "type" link) = false /\ entry = link_projection link.
Proof.
  intros H.
  assert (Ht : nullish (opt_get "type" link) = false).
  { unfold link_entry in H. apply bind_Ok in H. destruct H as (t & Hty & _).
    rewrite path_cons in Hty. apply bind_Ok in Hty.
    destruct Hty as (ty & Hty & Hn). apply get_Ok in Hty.
    destruct Hty as [_ ->]. rewrite path_cons in Hn. apply bind_Ok in Hn.
    destruct Hn as (n & Hn & _). apply get_Ok in Hn. tauto. }
  split; [exact Ht | ]. rewrite (link_entry_spec _ Ht) in H.
  injection H as <-. reflexivity.
Qed.

Lemma mapM_link_entry (items entries : list value) :
  mapM link_entry items = Ok entries -> entries = map link_projection items.
Proof.
  revert entries. induction items as [ | x r IH]; simpl; intros entries H.
  - injection H as <-. reflexivity.
  - apply bind_Ok in H. destruct H as (y & Hy & H).
    apply bind_Ok in H. destruct H as (ys & Hys & H). injection H as <-.
    apply link_entry_Ok in Hy. destruct Hy as [_ ->]. rewrite (IH _ Hys).
    reflexivity.
Qed.

(** C4.  When the record normalizes: an absent [components], [labels],
    [fixVersions] or [issuelinks] (missing or [null]) gives the empty
    sequence, not [null]; a present array gives, position by position
    and in the same order, the names of the components and of the
    versions, the labels themselves, and for each link the triple of the
    name of its type, its direction and the key of the linked issue as
    lines 122-124 compute them. *)
Theorem array_fields (issue out : value) :
  transformUserStory issue = Ok out ->
  (forall field src,
      field = "components" \/ field = "fixVersions" ->
      path ["fields"; field] issue = Ok src ->
      (nullish src = true -> get field out = Ok (VArr []))
      /\ (forall items,
             src = VArr items ->
             get field out = Ok (VArr (map (opt_get "name") items))))
  /\ (forall src,
         path ["fields"; "labels"] issue = Ok src ->
         (nullish src = true -> get "labels" out = Ok (VArr []))
         /\ (forall items, src = VArr items -> get "labels" out = Ok (VArr items)))
  /\ (forall src,
         path ["fields"; "issuelinks"] issue = Ok src ->
         (nullish src = true -> get "issueLinks" out = Ok (VArr []))
         /\ (forall items,
                src = VArr items ->
                get "issueLinks" out
                = Ok (VArr
                        (map (fun link =>
                                let type := opt_get "type" link in
                                VObj [("type", opt_get "name" type);
                                      ("direction",
                                       or_else (opt_get "inward" type)
                                               (opt_get "outward" type));
                                      ("linkedIssue",
                                       or_else
                                         (opt_get "key"
                                            (opt_get "inwardIssue" link))
                                         (opt_get "key"
                                            (opt_get "outwardIssue" link)))])
                           items)))).
Proof.
  intros Hout. apply transformUserStory_Ok in Hout.
  destruct Hout as (k & su & de & st & pr & a & r & c & u & co & l & f & sp
                    & il & url & _ & _ & _ & _ & _ & _ & _ & _ & _ & Hco & Hl
                    & Hf & _ & Hil & _ & ->).
  split; [ | split].
  - intros field src [-> | ->] Hsrc.
    + destruct (names_of_spec _ _ _ _ Hsrc Hco) as [H1 H2]. split.
      * intros Hn. rewrite (H1 Hn). reflexivity.
      * intros items E. rewrite (H2 _ E). reflexivity.
    + destruct (names_of_spec _ _ _ _ Hsrc Hf) as [H1 H2]. split.
      * intros Hn. rewrite (H1 Hn). reflexivity.
      * intros items E. rewrite (H2 _ E). reflexivity.
  - intros src Hsrc. unfold labels_of in Hl. rewrite Hsrc in Hl.
    injection Hl as <-. split.
    + intros Hn. destruct src; simpl in Hn; try discriminate; reflexivity.
    + intros items ->. reflexivity.
  - intros src Hsrc. unfold issueLinks_of in Hil. rewrite Hsrc in Hil.
    simpl in Hil. apply bind_Ok in Hil. destruct Hil as (m & Hm & Hil).
    injection Hil as <-. split.
    + intros Hn. destruct src; simpl in Hn; try discriminate;
        simpl in Hm; injection Hm as <-; reflexivity.
    + intros items ->. simpl in Hm. apply bind_Ok in Hm.
      destruct Hm as (ys & Hys & Hm). injection Hm as <-.
      rewrite (mapM_link_entry _ _ Hys). reflexivity.
Qed.

(** ** Links (lines 121-125) *)

(** C3, what the code does.  The direction of an entry is the inward
    label of the link type whenever that label is truthy, whichever
    side of the link the record is on; here the record has the outward
    issue only, and the entry still carries the inward label where the
    claim expects the outward one. *)
Theorem direction_ignores_the_side :
  link_entry
    (VObj [("type", VObj [("name", VStr "Blocks");
                          ("inward", VStr "is blocked by");
                          ("outward", VStr "blocks")]);
           ("outwardIssue", VObj [("key", VStr "PROJ-2")])])
  = Ok (VObj [("type", VStr "Blocks");
              ("direction", VStr "is blocked by");
              ("linkedIssue", VStr "PROJ-2")]).
Proof. vm_compute. reflexivity. Qed.

(** The general fact behind it: the side is never consulted. *)
Lemma direction_is_inward_label (link entry : value) :
  link_entry link = Ok entry ->
  truthy (opt_get "inward" (opt_get "type" link)) = true ->
  get "direction" entry = Ok (opt_get "inward" (opt_get "type" link)).
Proof.
  intros H Hin. apply link_entry_Ok in H. destruct H as [_ ->].
  simpl. unfold own_or_undefined. simpl. unfold or_else. rewrite Hin.
  reflexivity.
Qed.

(** The linked issue is the key of the inward issue when it has one,
    else the key of the outward issue. *)
Lemma linkedIssue_is_present_side (link entry : value) :
  link_entry link = Ok entry ->
  get "linkedIssue" entry
  = Ok (or_else (opt_get "key" (opt_get "inwardIssue" link))
                (opt_get "key" (opt_get "outwardIssue" link))).
Proof.
  intros H. apply link_entry_Ok in H. destruct H as [_ ->]. reflexivity.
Qed.

(** ** When the normalizer returns (lines 90-128) *)

Lemma opt_get_text (p : string) (v : value) (s : string) :
  opt_get p v = VStr s -> nullish v = false.
Proof. destruct v; simpl; intros H; try discriminate; reflexivity. Qed.

Lemma mapM_total (f : value -> result value) (g : value -> value)
  (entry_ok : value -> Prop) (items : list value) :
  (forall x, entry_ok x -> f x = Ok (g x)) ->
  Forall entry_ok items -> mapM f items = Ok (map g items).
Proof.
  intros Hf H. induction H as [ | x r Hx _ IH]; simpl; [reflexivity | ].
  rewrite (Hf _ Hx). simpl. rewrite IH. reflexivity.
Qed.

Lemma opt_map_total (callee : string) (f : value -> result value)
  (g : value -> value) (entry_ok : value -> Prop) (src : value) :
  (forall x, entry_ok x -> f x = Ok (g x)) ->
  absent_or_array entry_ok src ->
  exists items, (m <- opt_map callee f src ;; Ok (or_else m (VArr [])))
                = Ok (VArr items).
Proof.
  intros Hf [Hn | (items & -> & Hall)].
  - exists []. destruct src; simpl in Hn; try discriminate; reflexivity.
  - exists (map g items). simpl. rewrite (mapM_total _ _ _ _ Hf Hall).
    reflexivity.
Qed.

(** C2, as the code has it.  A well-shaped record is normalized without
    a throw, and in the result none of the defaulted properties is
    [undefined]: each is a value, [null] or a sequence. *)
Theorem transformUserStory_total (issue : value) :
  well_shaped issue ->
  exists out,
    transformUserStory issue = Ok out
    /\ Forall (fun p => exists v, get p out = Ok v /\ v <> VUndefined) defaulted
    /\ (exists name id,
           path ["priority"; "name"] out = Ok name /\ name <> VUndefined
           /\ path ["priority"; "id"] out = Ok id /\ id <> VUndefined)
    /\ (exists id, get "key" out = Ok (VStr id))
    /\ (exists summary, get "summary" out = Ok (VStr summary)).
Proof.
  intros (Hk & Hs & Hn & Hc & Hco & Hfv & Hil). cbv zeta in *.
  destruct Hk as (id & Hk). destruct Hs as (summary & Hs).
  destruct Hn as (name & Hn). destruct Hc as (category & Hc).
  pose proof (opt_get_text _ _ _ Hk) as Ni.
  pose proof (opt_get_text _ _ _ Hs) as Nf.
  pose proof (opt_get_text _ _ _ Hn) as Nst.
  pose proof (opt_get_text _ _ _ Hc) as Ncat.
  set (fields := opt_get "fields" issue) in *.
  assert (Hpath : forall p, path ["fields"; p] issue = Ok (opt_get p fields)).
  { intros p. apply path_fields_Ok; assumption. }
  destruct (opt_map_total "issue.fields.components?.map" (get "name")
              (opt_get "name") _ _
              (fun x Hx => get_opt_get "name" x Hx) Hco) as (cs & Hcs).
  destruct (opt_map_total "issue.fields.fixVersions?.map" (get "name")
              (opt_get "name") _ _
              (fun x Hx => get_opt_get "name" x Hx) Hfv) as (vs & Hvs).
  destruct (opt_map_total "issue.fields.issuelinks?.map" link_entry
              link_projection _ _ link_entry_spec Hil) as (ls & Hls).
  assert (Hstatus : status_of issue
                    = Ok (VObj [("name", VStr name); ("category", VStr category)])).
  { unfold status_of.
    change ["fields"; "status"; "name"]
      with (["fields"; "status"] ++ ["name"])%list.
    change ["fields"; "status"; "statusCategory"; "name"]
      with ((["fields"; "status"] ++ ["statusCategory"]) ++ ["name"])%list.
    rewrite !path_snoc, Hpath. simpl.
    rewrite !(get_opt_get _ _ Nst). simpl.
    rewrite (get_opt_get _ _ Ncat), Hn, Hc. reflexivity. }
  eexists. split; [ | split; [ | split; [ | split]]].
  - unfold transformUserStory.
    rewrite (get_opt_get _ _ Ni), Hk. simpl.
    rewrite Hpath, Hs. simpl.
    rewrite (description_of_spec _ _ (Hpath _)). simpl.
    rewrite Hstatus. simpl.
    unfold priority_of. rewrite Hpath. simpl.
    rewrite !(person_of_spec _ _ _ (Hpath _)). simpl.
    rewrite !Hpath. simpl.
    unfold names_of, labels_of, storyPoints_of, issueLinks_of, url_of.
    rewrite !Hpath. simpl. rewrite Hcs, Hvs, Hls. simpl.
    rewrite (get_opt_get _ _ Ni), Hk. simpl. reflexivity.
  - unfold defaulted.
    repeat (apply Forall_cons; [eexists; split; [reflexivity | ] | ]);
      try apply Forall_nil; try discriminate.
    + apply or_else_defined, or_else_defined. discriminate.
    + destruct (truthy (opt_get "assignee" fields)); discriminate.
    + destruct (truthy (opt_get "reporter" fields)); discriminate.
    + apply or_else_defined. discriminate.
    + apply or_else_defined. discriminate.
  - eexists. eexists. repeat split; try reflexivity;
      apply or_else_defined; discriminate.
  - exists id. reflexivity.
  - exists summary. reflexivity.
Qed.

(** ** The normalizer in memory does what the normalizer does
       (lines 90-128) *)

(** Induction on the cells a word stands on. *)
Section DenotesInduction.

Variable cells : list cell.
Variable P : word -> value -> Prop.
Hypothesis case_undefined : P WUndefined VUndefined.
Hypothesis case_null : P WNull VNull.
Hypothesis case_bool : forall b, P (WBool b) (VBool b).
Hypothesis case_num : forall n, P (WNum n) (VNum n).
Hypothesis case_str : forall s, P (WStr s) (VStr s).
Hypothesis case_object :
  forall a props members,
    nth_error cells a = Some (ObjectCell props) ->
    Forall2 (fun p q => fst p = fst q /\ denotes cells (snd p) (snd q))
      props members ->
    Forall2 (fun p q => fst p = fst q /\ P (snd p) (snd q)) props members ->
    P (WRef a) (VObj members).
Hypothesis case_array :
  forall a items elements,
    nth_error cells a = Some (ArrayCell items) ->
    Forall2 (denotes cells) items elements ->
    Forall2 P items elements ->
    P (WRef a) (VArr elements).

Fixpoint denotes_induction (w : word) (v : value) (d : denotes cells w v)
  {struct d} : P w v :=
  match d in denotes _ w v return P w v with
  | denotes_undefined _ => case_undefined
  | denotes_null _ => case_null
  | denotes_bool _ b => case_bool b
  | denotes_num _ n => case_num n
  | denotes_str _ s => case_str s
  | denotes_object _ a props members Hcell Hparts =>
      case_object a props members Hcell Hparts
        ((fix parts (ps : list (string * word)) (ms : list (string * value))
            (H : Forall2
                   (fun p q => fst p = fst q /\ denotes cells (snd p) (snd q))
                   ps ms) {struct H}
            : Forall2 (fun p q => fst p = fst q /\ P (snd p) (snd q)) ps ms :=
            match H with
            | Forall2_nil _ => Forall2_nil _
            | Forall2_cons p q Hpq H' =>
                Forall2_cons p q
                  (match Hpq with
                   | conj E d' => conj E (denotes_induction _ _ d')
                   end)
                  (parts _ _ H')
            end) props members Hparts)
  | denotes_array _ a items elements Hcell Hparts =>
      case_array a items elements Hcell Hparts
        ((fix parts (ws : list word) (vs : list value)
            (H : Forall2 (denotes cells) ws vs) {struct H}
            : Forall2 P ws vs :=
            match H with
            | Forall2_nil _ => Forall2_nil _
            | Forall2_cons x y d' H' =>
                Forall2_cons x y (denotes_induction _ _ d') (parts _ _ H')
            end) items elements Hparts)
  end.

End DenotesInduction.

(** What a word stands for does not change when cells are added. *)
Lemma denotes_more (cells more : list cell) (w : word) (v : value) :
  denotes cells w v -> denotes (cells ++ more) w v.
Proof.
  intros d. revert w v d.
  apply (denotes_induction cells (fun w v => denotes (cells ++ more) w v));
    try (intros; constructor).
  - intros a props members Hcell _ IH.
    apply denotes_object with (props := props); [ | exact IH].
    rewrite nth_error_app1; [exact Hcell | ].
    apply nth_error_Some. rewrite Hcell. discriminate.
  - intros a items elements Hcell _ IH.
    apply denotes_array with (items := items); [ | exact IH].
    rewrite nth_error_app1; [exact Hcell | ].
    apply nth_error_Some. rewrite Hcell. discriminate.
Qed.

Lemma members_more (cells more : list cell) (props : list (string * word))
  (members : list (string * value)) :
  Forall2 (fun p q => fst p = fst q /\ denotes cells (snd p) (snd q))
    props members ->
  Forall2 (fun p q => fst p = fst q /\ denotes (cells ++ more) (snd p) (snd q))
    props members.
Proof.
  intros H. induction H as [ | p q ps ms [E d] _ IH]; [constructor | ].
  constructor; [ | exact IH]. split; [exact E | apply denotes_more, d].
Qed.

Lemma elements_more (cells more : list cell) (items : list word)
  (elements : list value) :
  Forall2 (denotes cells) items elements ->
  Forall2 (denotes (cells ++ more)) items elements.
Proof.
  intros H. induction H as [ | x y xs ys d _ IH]; [constructor | ].
  constructor; [apply denotes_more, d | exact IH].
Qed.

Lemma grows_refl (m : Machine) : grows m m.
Proof. split; [exists []; rewrite app_nil_r | ]; reflexivity. Qed.

Lemma grows_trans (m1 m2 m3 : Machine) : grows m1 m2 -> grows m2 m3 -> grows m1 m3.
Proof.
  intros [(a & Ha) Oa] [(b & Hb) Ob]. split.
  - exists (a ++ b)%list. rewrite Hb, Ha, app_assoc. reflexivity.
  - congruence.
Qed.

Lemma grows_length (m m' : Machine) :
  grows m m' -> length (memory m) <= length (memory m').
Proof. intros [(more & ->) _]. rewrite length_app. lia. Qed.

Lemma denotes_after (m m' : Machine) (w : word) (v : value) :
  grows m m' -> denotes (memory m) w v -> denotes (memory m') w v.
Proof. intros [(more & ->) _]. apply denotes_more. Qed.

Lemma denotes_valid (cells : list cell) (a : nat) (v : value) :
  denotes cells (WRef a) v -> a < length cells.
Proof.
  intros d. inversion d as [ | | | | | a' props members Hcell _
                             | a' items elements Hcell _]; subst;
    apply nth_error_Some; rewrite Hcell; discriminate.
Qed.

(** A word stands for one value only. *)
Lemma denotes_functional (cells : list cell) (w : word) (v1 v2 : value) :
  denotes cells w v1 -> denotes cells w v2 -> v1 = v2.
Proof.
  intros d. revert w v1 d v2.
  apply (denotes_induction cells
           (fun w v1 => forall v2, denotes cells w v2 -> v1 = v2));
    try (intros; match goal with H : denotes _ _ _ |- _ => inversion H end;
         reflexivity).
  - intros a props members Hcell _ IH v2 d2.
    inversion d2 as [ | | | | | a' props' members' Hcell' Hparts'
                      | a' items elements Hcell' _]; subst;
      rewrite Hcell in Hcell'; [ | discriminate].
    injection Hcell' as <-. f_equal.
    clear Hcell d2. revert members' Hparts'.
    induction IH as [ | p q ps ms Hpq _ IHr]; intros members' H';
      inversion H' as [ | p' q' ps' ms' Hpq' Hr']; subst; [reflexivity | ].
    destruct Hpq as [E Hv], Hpq' as [E' Hv'].
    f_equal; [ | apply IHr, Hr'].
    destruct q as [k v], q' as [k' v']. simpl in *.
    rewrite (Hv _ Hv'). congruence.
  - intros a items elements Hcell _ IH v2 d2.
    inversion d2 as [ | | | | | a' props members Hcell' _
                      | a' items' elements' Hcell' Hparts']; subst;
      rewrite Hcell in Hcell'; [discriminate | ].
    injection Hcell' as <-. f_equal.
    clear Hcell d2. revert elements' Hparts'.
    induction IH as [ | w v ws vs Hv _ IHr]; intros elements' H';
      inversion H' as [ | w' v' ws' vs' Hv' Hr']; subst; [reflexivity | ].
    f_equal; [apply Hv, Hv' | apply IHr, Hr'].
Qed.

Lemma ranked_length (cells : list cell) (chain : list nat) (n : nat) :
  ranked cells chain n -> length chain = n.
Proof.
  revert n. induction chain as [ | a r IH]; intros [ | n]; simpl;
    try tauto. intros [_ H]. rewrite (IH _ H). reflexivity.
Qed.

Lemma ranked_In (cells : list cell) (chain : list nat) (n b : nat) :
  ranked cells chain n -> In b chain ->
  exists v, denotes cells (WRef b) v /\ height v <= n.
Proof.
  revert n. induction chain as [ | a r IH]; intros [ | n]; simpl;
    try tauto. intros [(v & Hv & Hh) Hr] [<- | Hin].
  - exists v. split; [exact Hv | lia].
  - destruct (IH _ Hr Hin) as (v' & Hv' & Hh'). exists v'.
    split; [exact Hv' | lia].
Qed.

Lemma ranked_NoDup (cells : list cell) (chain : list nat) (n : nat) :
  ranked cells chain n -> NoDup chain.
Proof.
  revert n. induction chain as [ | a r IH]; intros [ | n]; simpl;
    try tauto; [constructor | ].
  intros [(v & Hv & Hh) Hr]. constructor; [ | exact (IH _ Hr)].
  intros Hin. destruct (ranked_In _ _ _ _ Hr Hin) as (v' & Hv' & Hh').
  rewrite (denotes_functional _ _ _ _ Hv Hv') in Hh. lia.
Qed.

Lemma ranked_valid (cells : list cell) (chain : list nat) (n : nat) :
  ranked cells chain n -> incl chain (seq 0 (length cells)).
Proof.
  intros H b Hin. destruct (ranked_In _ _ _ _ H Hin) as (v & Hv & _).
  apply in_seq. apply denotes_valid in Hv. lia.
Qed.

Lemma ranked_lower (cells : list cell) (chain : list nat) (n k : nat) :
  ranked cells chain n -> k <= n -> exists chain', ranked cells chain' k.
Proof.
  revert n. induction chain as [ | a r IH]; intros [ | n]; simpl; try tauto.
  - intros _ Hk. exists []. replace k with 0 by lia. exact I.
  - intros [Ha Hr] Hk. destruct (Nat.eq_dec k (S n)) as [-> | Hne].
    + exists (a :: r). split; assumption.
    + apply (IH n Hr). lia.
Qed.

Lemma denotes_ranked (cells : list cell) (w : word) (v : value) :
  denotes cells w v -> exists chain, ranked cells chain (height v).
Proof.
  intros d. revert w v d.
  apply (denotes_induction cells
           (fun w v => exists chain, ranked cells chain (height v)));
    try (intros; exists []; exact I).
  - intros a props members Hcell Hparts IH.
    assert (K : exists chain,
               ranked cells chain
                 (fold_right (fun kv h => Nat.max (height (snd kv)) h) 0
                    members)).
    { clear Hcell Hparts. induction IH as [ | p q ps ms [_ (c & Hc)] _ (cr & IHr)].
      - exists []. exact I.
      - simpl. destruct (Nat.max_dec (height (snd q))
                           (fold_right (fun kv h => Nat.max (height (snd kv)) h)
                              0 ms)) as [E | E]; rewrite E; eauto. }
    destruct K as (chain & K). exists (a :: chain). simpl.
    split; [ | exact K]. exists (VObj members).
    split; [ | reflexivity]. apply denotes_object with (props := props); assumption.
  - intros a items elements Hcell Hparts IH.
    assert (K : exists chain,
               ranked cells chain
                 (fold_right (fun x h => Nat.max (height x) h) 0 elements)).
    { clear Hcell Hparts. induction IH as [ | x y xs ys (c & Hc) _ (cr & IHr)].
      - exists []. exact I.
      - simpl. destruct (Nat.max_dec (height y)
                           (fold_right (fun x h => Nat.max (height x) h) 0 ys))
          as [E | E]; rewrite E; eauto. }
    destruct K as (chain & K). exists (a :: chain). simpl.
    split; [ | exact K]. exists (VArr elements).
    split; [ | reflexivity]. apply denotes_array with (items := items); assumption.
Qed.

(** A value that stands in memory nests no deeper than there are cells. *)
Lemma height_bound (cells : list cell) (w : word) (v : value) :
  denotes cells w v -> height v <= length cells.
Proof.
  intros d. destruct (denotes_ranked _ _ _ d) as (chain & H).
  rewrite <- (ranked_length _ _ _ H), <- (length_seq (length cells) 0).
  apply NoDup_incl_length; [exact (ranked_NoDup _ _ _ H) | ].
  exact (ranked_valid _ _ _ H).
Qed.

(** Every value can be laid out in memory, after the cells there are,
    and the word that comes back stands for it. *)
Lemma lay_out_denotes (v : value) (cells : list cell) :
  (exists more, snd (lay_out v cells) = cells ++ more)%list
  /\ denotes (snd (lay_out v cells)) (fst (lay_out v cells)) v.
Proof.
  revert cells.
  induction v as [ | | b | n | s | items IH | props IH] using value_induction;
    intros cells;
    try (split; [exists []; simpl; rewrite app_nil_r; reflexivity
                | constructor]).
  - cbn [lay_out].
    match goal with
    | |- context [?F items cells] => is_fix F; set (elements := F)
    end.
    assert (K : forall cells,
               (exists more, snd (elements items cells) = cells ++ more)%list
               /\ Forall2 (denotes (snd (elements items cells)))
                    (fst (elements items cells)) items).
    { clear cells. induction IH as [ | x r Hx _ IHr]; intros cells.
      - split; [exists []; simpl; rewrite app_nil_r; reflexivity | constructor].
      - simpl. destruct (Hx cells) as [(m1 & E1) D1].
        destruct (lay_out x cells) as [w c1]. simpl in E1, D1. subst c1.
        destruct (IHr (cells ++ m1)%list) as [(m2 & E2) D2].
        destruct (elements r (cells ++ m1)%list) as [ws c2].
        simpl in E2, D2. subst c2. simpl. split.
        + exists (m1 ++ m2)%list. rewrite app_assoc. reflexivity.
        + constructor; [apply denotes_more, D1 | exact D2]. }
    destruct (K cells) as [(more & E) D].
    destruct (elements items cells) as [ws cells']. simpl in E, D. subst cells'.
    simpl. split.
    + exists (more ++ [ArrayCell ws])%list. rewrite app_assoc. reflexivity.
    + apply denotes_array with (items := ws).
      * rewrite nth_error_app2 by lia. rewrite Nat.sub_diag. reflexivity.
      * apply elements_more, D.
  - cbn [lay_out].
    match goal with
    | |- context [?F props cells] => is_fix F; set (members := F)
    end.
    assert (K : forall cells,
               (exists more, snd (members props cells) = cells ++ more)%list
               /\ Forall2
                    (fun p q =>
                       fst p = fst q
                       /\ denotes (snd (members props cells)) (snd p) (snd q))
                    (fst (members props cells)) props).
    { clear cells. induction IH as [ | [k x] r Hx _ IHr]; intros cells.
      - split; [exists []; simpl; rewrite app_nil_r; reflexivity | constructor].
      - simpl in Hx. simpl. destruct (Hx cells) as [(m1 & E1) D1].
        destruct (lay_out x cells) as [w c1]. simpl in E1, D1. subst c1.
        destruct (IHr (cells ++ m1)%list) as [(m2 & E2) D2].
        destruct (members r (cells ++ m1)%list) as [ws c2].
        simpl in E2, D2. subst c2. simpl. split.
        + exists (m1 ++ m2)%list. rewrite app_assoc. reflexivity.
        + constructor; [ | exact D2].
          split; [reflexivity | apply denotes_more, D1]. }
    destruct (K cells) as [(more & E) D].
    destruct (members props cells) as [ws cells']. simpl in E, D. subst cells'.
    simpl. split.
    + exists (more ++ [ObjectCell ws])%list. rewrite app_assoc. reflexivity.
    + apply denotes_object with (props := ws).
      * rewrite nth_error_app2 by lia. rewrite Nat.sub_diag. reflexivity.
      * apply members_more, D.
Qed.

Lemma truthy_word_denotes (cells : list cell) (w : word) (v : value) :
  denotes cells w v -> truthy_word w = truthy v.
Proof. intros d. inversion d; reflexivity. Qed.

Lemma nullish_word_denotes (cells : list cell) (w : word) (v : value) :
  denotes cells w v -> nullish_word w = nullish v.
Proof. intros d. inversion d; reflexivity. Qed.

Lemma or_else_word_denotes (cells : list cell) (a b : word) (x y : value) :
  denotes cells a x -> denotes cells b y ->
  denotes cells (or_else_word a b) (or_else x y).
Proof.
  intros da db. unfold or_else_word, or_else.
  rewrite (truthy_word_denotes _ _ _ da). destruct (truthy x); assumption.
Qed.

Lemma own_word_denotes (cells : list cell) (p : string)
  (props : list (string * word)) (members : list (string * value)) :
  Forall2 (fun p q => fst p = fst q /\ denotes cells (snd p) (snd q))
    props members ->
  match own_word p props, own p members with
  | Some w, Some v => denotes cells w v
  | None, None => True
  | _, _ => False
  end.
Proof.
  intros H. induction H as [ | [k w] [k' v] ps ms [E d] _ IH]; simpl;
    [exact I | ].
  simpl in E. subst k'. destruct (String.eqb k p); [exact d | exact IH].
Qed.

Lemma own_word_or_undefined_denotes (cells : list cell) (p : string)
  (props : list (string * word)) (members : list (string * value)) :
  Forall2 (fun p q => fst p = fst q /\ denotes cells (snd p) (snd q))
    props members ->
  denotes cells (own_word_or_undefined p props) (own_or_undefined p members).
Proof.
  intros H. pose proof (own_word_denotes cells p _ _ H) as K.
  unfold own_word_or_undefined, own_or_undefined.
  destruct (own_word p props), (own p members); try contradiction;
    [exact K | constructor].
Qed.

Lemma height_element (y : value) (elements : list value) :
  In y elements ->
  height y <= fold_right (fun x h => Nat.max (height x) h) 0 elements.
Proof.
  induction elements as [ | x r IH]; simpl; [intros [] | ].
  intros [-> | Hin]; [lia | ]. specialize (IH Hin). lia.
Qed.

(** The text of a word is the text of the value it stands for: the
    arrays being converted nest the value, so none of them is met
    again. *)
Lemma text_of_word_denotes (cells : list cell) (w : word) (v : value) :
  denotes cells w v ->
  forall depth joining,
    height v <= depth ->
    Forall (fun b => exists u, denotes cells (WRef b) u /\ height v < height u)
      joining ->
    text_of_word depth joining cells w = ToString v.
Proof.
  intros d. revert w v d.
  apply (denotes_induction cells
           (fun w v =>
              forall depth joining,
                height v <= depth ->
                Forall (fun b => exists u, denotes cells (WRef b) u
                                           /\ height v < height u) joining ->
                text_of_word depth joining cells w = ToString v)).
  - intros [ | depth] joining _ _; reflexivity.
  - intros [ | depth] joining _ _; reflexivity.
  - intros [ | ] [ | depth] joining _ _; reflexivity.
  - intros n [ | depth] joining _ _; reflexivity.
  - intros s [ | depth] joining _ _; reflexivity.
  - intros a props members Hcell Hparts _ depth joining _ _.
    assert (E : text_of_word depth joining cells (WRef a)
                = match own_word "toString" props with
                  | None => Ok "[object Object]"
                  | Some _ =>
                      Throw (TypeError "Cannot convert object to primitive value")
                  end).
    { destruct depth; simpl; rewrite (nth_error_nth _ _ _ Hcell); reflexivity. }
    rewrite E. simpl.
    pose proof (own_word_denotes cells "toString" _ _ Hparts) as K.
    destruct (own_word "toString" props), (own "toString" members);
      try contradiction; reflexivity.
  - intros a items elements Hcell Hparts IH depth joining Hh Hj.
    pose proof (denotes_array cells a items elements Hcell Hparts) as Da.
    assert (Hnew : existsb (Nat.eqb a) joining = false).
    { apply Bool.not_true_is_false. intros Hin.
      apply existsb_exists in Hin. destruct Hin as (b & Hb & E).
      apply Nat.eqb_eq in E. subst b.
      rewrite Forall_forall in Hj. destruct (Hj a Hb) as (u & Du & Hu).
      rewrite (denotes_functional _ _ _ _ Du Da) in Hu. lia. }
    destruct depth as [ | depth]; [simpl in Hh; lia | ].
    assert (Hall : Forall
                     (fun y =>
                        height y <= depth
                        /\ Forall (fun b => exists u, denotes cells (WRef b) u
                                                      /\ height y < height u)
                             (a :: joining)) elements).
    { apply Forall_forall. intros y Hy.
      pose proof (height_element y elements Hy) as Hy'. simpl in Hh.
      split; [lia | ]. constructor.
      - exists (VArr elements). split; [exact Da | simpl; lia].
      - eapply Forall_impl; [ | exact Hj]. intros b (u & Du & Hu).
        exists u. split; [exact Du | simpl in Hu; lia]. }
    simpl. rewrite (nth_error_nth _ _ _ Hcell), Hnew.
    clear Hcell Da Hh Hj Hnew. revert Hall.
    induction IH as [ | x y xs ys Hxy Hrest IHr]; [reflexivity | ].
    inversion Hparts as [ | x' y' xs' ys' dxy drest]; subst.
    intros Hall. inversion Hall as [ | y' ys' [Hy Hjy] Hall']; subst.
    simpl. rewrite (nullish_word_denotes _ _ _ dxy), (Hxy _ _ Hy Hjy).
    specialize (IHr drest Hall').
    destruct (if nullish y then Ok "" else ToString y) as [t | e];
      [ | reflexivity].
    simpl. destruct xs as [ | x2 xs2]; inversion Hrest; subst; [reflexivity | ].
    rewrite IHr. reflexivity.
Qed.

Lemma simulates_ret {A B} (R : list cell -> A -> B -> Prop) (a : A) (b : B)
  (m : Machine) :
  R (memory m) a b -> simulates R (retM a) (Ok b) m.
Proof.
  intros H. exists m. split; [apply grows_refl | ].
  exists a. split; [reflexivity | exact H].
Qed.

Lemma simulates_bind {A B A' B'} (R : list cell -> A -> B -> Prop)
  (R' : list cell -> A' -> B' -> Prop) (op : Op A) (r : result B)
  (k : A -> Op A') (k' : B -> result B') (m : Machine) :
  simulates R op r m ->
  (forall a b m', grows m m' -> R (memory m') a b ->
                  simulates R' (k a) (k' b) m') ->
  simulates R' (bindM op k) (bind r k') m.
Proof.
  intros (m1 & G1 & H) K. unfold simulates, bindM.
  destruct r as [b | e]; simpl.
  - destruct H as (a & -> & Hab).
    destruct (K a b m1 G1 Hab) as (m2 & G2 & H2).
    exists m2. split; [exact (grows_trans _ _ _ G1 G2) | exact H2].
  - rewrite H. exists m1. split; [exact G1 | reflexivity].
Qed.

Lemma simulates_then {A B A' B'} (R : list cell -> A -> B -> Prop)
  (R' : list cell -> A' -> B' -> Prop) (op : Op A) (b : B)
  (k : A -> Op A') (r' : result B') (m : Machine) :
  simulates R op (Ok b) m ->
  (forall a m', grows m m' -> R (memory m') a b -> simulates R' (k a) r' m') ->
  simulates R' (bindM op k) r' m.
Proof.
  intros (m1 & G1 & a & E & Hab) K. unfold simulates, bindM. rewrite E.
  destruct (K a m1 G1 Hab) as (m2 & G2 & H2).
  exists m2. split; [exact (grows_trans _ _ _ G1 G2) | exact H2].
Qed.

Lemma simulates_weaken {A B} (R R' : list cell -> A -> B -> Prop) (op : Op A)
  (r : result B) (m : Machine) :
  (forall m' a b, grows m m' -> R (memory m') a b -> R' (memory m') a b) ->
  simulates R op r m -> simulates R' op r m.
Proof.
  intros HR (m' & G & H). exists m'. split; [exact G | ].
  destruct r as [b | e]; [ | exact H].
  destruct H as (a & E & Hab). exists a. split; [exact E | ].
  apply HR; assumption.
Qed.

Lemma simulates_same {A B} (R : list cell -> A -> B -> Prop) (op op' : Op A)
  (r : result B) (m : Machine) :
  op m = op' m -> simulates R op' r m -> simulates R op r m.
Proof. intros E H. unfold simulates. rewrite E. exact H. Qed.

Lemma cell_at_nth (m : Machine) (a : nat) (c : cell) :
  nth_error (memory m) a = Some c -> cell_at a m = c.
Proof. intros H. unfold cell_at. apply nth_error_nth, H. Qed.

Lemma simulates_read (p : string) (w : word) (v : value) (m : Machine) :
  denotes (memory m) w v -> simulates denotes (read p w) (get p v) m.
Proof.
  intros d. exists m. split; [apply grows_refl | ].
  inversion d as [ | | | | | a props members Hcell Hparts
                  | a items elements Hcell Hparts]; subst; simpl;
    try reflexivity;
    try (eexists; split; [reflexivity | constructor]).
  - rewrite (cell_at_nth _ _ _ Hcell). eexists. split; [reflexivity | ].
    apply own_word_or_undefined_denotes, Hparts.
  - rewrite (cell_at_nth _ _ _ Hcell). eexists. split; [reflexivity | ].
    constructor.
Qed.

Lemma simulates_opt_read (p : string) (w : word) (v : value) (m : Machine) :
  denotes (memory m) w v ->
  simulates denotes (opt_read p w) (Ok (opt_get p v)) m.
Proof.
  intros d. exists m. split; [apply grows_refl | ].
  inversion d as [ | | | | | a props members Hcell Hparts
                  | a items elements Hcell Hparts]; subst; simpl;
    try (eexists; split; [reflexivity | constructor]).
  - rewrite (cell_at_nth _ _ _ Hcell). eexists. split; [reflexivity | ].
    apply own_word_or_undefined_denotes, Hparts.
  - rewrite (cell_at_nth _ _ _ Hcell). eexists. split; [reflexivity | ].
    constructor.
Qed.

Lemma simulates_opt_first (w : word) (v : value) (m : Machine) :
  denotes (memory m) w v ->
  simulates denotes (opt_first w) (Ok (opt_index0 v)) m.
Proof.
  intros d. exists m. split; [apply grows_refl | ].
  inversion d as [ | | | | s | a props members Hcell Hparts
                  | a items elements Hcell Hparts]; subst; simpl;
    try (eexists; split; [reflexivity | constructor]).
  - destruct s; eexists; (split; [reflexivity | constructor]).
  - rewrite (cell_at_nth _ _ _ Hcell). eexists. split; [reflexivity | ].
    apply own_word_or_undefined_denotes, Hparts.
  - rewrite (cell_at_nth _ _ _ Hcell).
    destruct Hparts; eexists; (split; [reflexivity | ]);
      [constructor | assumption].
Qed.

Lemma simulates_path (ps : list string) (w : word) (v : value) (m : Machine) :
  denotes (memory m) w v -> simulates denotes (read_path ps w) (path ps v) m.
Proof.
  intros d. unfold read_path, path.
  assert (H : simulates denotes (retM w) (Ok v) m)
    by (apply simulates_ret, d).
  clear d. revert H. generalize (retM w) (Ok v).
  induction ps as [ | p ps IH]; intros op r H; simpl; [exact H | ].
  apply IH. apply (simulates_bind denotes denotes _ _ _ _ _ H).
  intros a b m' _ dab. apply simulates_read, dab.
Qed.

Lemma simulates_new_object (props : list (string * word))
  (members : list (string * value)) (m : Machine) :
  Forall2 (fun p q => fst p = fst q /\ denotes (memory m) (snd p) (snd q))
    props members ->
  simulates
    (fun cells o v =>
       denotes cells o v /\ exists a, o = WRef a /\ length (memory m) <= a)
    (new (ObjectCell props)) (Ok (VObj members)) m.
Proof.
  intros H. eexists. split; [ | eexists; split; [reflexivity | ] ].
  - split; [exists [ObjectCell props] | ]; reflexivity.
  - cbn [memory]. split; [ | eexists; split; [reflexivity | lia] ].
    apply denotes_object with (props := props).
    + rewrite nth_error_app2 by lia. rewrite Nat.sub_diag. reflexivity.
    + apply members_more, H.
Qed.

Lemma simulates_new_array (items : list word) (elements : list value)
  (m : Machine) :
  Forall2 (denotes (memory m)) items elements ->
  simulates denotes (new (ArrayCell items)) (Ok (VArr elements)) m.
Proof.
  intros H. eexists. split; [ | eexists; split; [reflexivity | ] ].
  - split; [exists [ArrayCell items] | ]; reflexivity.
  - cbn [memory]. apply denotes_array with (items := items).
    + rewrite nth_error_app2 by lia. rewrite Nat.sub_diag. reflexivity.
    + apply elements_more, H.
Qed.

Lemma simulates_literal (props : list (string * word))
  (members : list (string * value)) (m : Machine) :
  Forall2 (fun p q => fst p = fst q /\ denotes (memory m) (snd p) (snd q))
    props members ->
  simulates denotes (new (ObjectCell props)) (Ok (VObj members)) m.
Proof.
  intros H. eapply simulates_weaken; [ | apply simulates_new_object, H].
  intros m' o v _ [d _]. exact d.
Qed.

Lemma Forall2_denotes_after (m m' : Machine) (ws : list word) (vs : list value) :
  grows m m' -> Forall2 (denotes (memory m)) ws vs ->
  Forall2 (denotes (memory m')) ws vs.
Proof.
  intros G H. induction H as [ | x y xs ys d _ IH]; [constructor | ].
  constructor; [ | exact IH].
  exact (denotes_after _ _ _ _ G d).
Qed.

Lemma simulates_map (f : word -> Op word) (f' : value -> result value)
  (items : list word) (elements : list value) (m : Machine) :
  (forall x y m', grows m m' -> denotes (memory m') x y ->
                  simulates denotes (f x) (f' y) m') ->
  Forall2 (denotes (memory m)) items elements ->
  simulates (fun cells => Forall2 (denotes cells)) (map_words f items)
    (mapM f' elements) m.
Proof.
  intros Hf H. revert m elements Hf H.
  induction items as [ | x xs IH]; intros m elements Hf H;
    inversion H as [ | x' y xs' ys dxy Hrest]; subst; simpl.
  - apply simulates_ret. constructor.
  - apply (simulates_bind denotes _ _ _ _ _ _ (Hf x y m (grows_refl m) dxy)).
    intros a b m1 G1 dab.
    apply (simulates_bind (fun cells => Forall2 (denotes cells)) _ _ _ _ _ _
             (IH m1 ys
                (fun x0 y0 m' G d => Hf x0 y0 m' (grows_trans _ _ _ G1 G) d)
                (Forall2_denotes_after _ _ _ _ G1 Hrest))).
    intros zs ws m2 G2 dzs. apply simulates_ret.
    constructor; [exact (denotes_after _ _ _ _ G2 dab) | exact dzs].
Qed.

Lemma simulates_opt_map (callee : string) (f : word -> Op word)
  (f' : value -> result value) (w : word) (v : value) (m : Machine) :
  (forall x y m', grows m m' -> denotes (memory m') x y ->
                  simulates denotes (f x) (f' y) m') ->
  denotes (memory m) w v ->
  simulates denotes (opt_map_words callee f w) (opt_map callee f' v) m.
Proof.
  intros Hf d.
  inversion d as [ | | b | n | s | a props members Hcell Hparts
                  | a items elements Hcell Hparts]; subst.
  - exists m. split; [apply grows_refl | ].
    eexists. split; [reflexivity | constructor].
  - exists m. split; [apply grows_refl | ].
    eexists. split; [reflexivity | constructor].
  - exists m. split; [apply grows_refl | reflexivity].
  - exists m. split; [apply grows_refl | reflexivity].
  - exists m. split; [apply grows_refl | reflexivity].
  - exists m. split; [apply grows_refl | ]. unfold opt_map_words, opt_map.
    rewrite (cell_at_nth m a _ Hcell). reflexivity.
  - apply simulates_same
      with (op' := ys <== map_words f items ;; new (ArrayCell ys)).
    { unfold opt_map_words. rewrite (cell_at_nth m a _ Hcell). reflexivity. }
    apply (simulates_bind (fun cells => Forall2 (denotes cells)) denotes _ _ _ _
             _ (simulates_map f f' items elements m Hf Hparts)).
    intros ys zs m1 _ dys. apply simulates_new_array, dys.
Qed.

Lemma simulates_or_empty_array (x : word) (y : value) (m : Machine) :
  denotes (memory m) x y ->
  simulates denotes (or_empty_array x) (Ok (or_else y (VArr []))) m.
Proof.
  intros d. unfold or_empty_array, or_else.
  rewrite (truthy_word_denotes _ _ _ d). destruct (truthy y).
  - apply simulates_ret, d.
  - apply simulates_new_array. constructor.
Qed.

Lemma simulates_ToString (w : word) (v : value) (m : Machine) :
  denotes (memory m) w v ->
  simulates (fun _ a b => a = b) (ToString_word w) (ToString v) m.
Proof.
  intros d. exists m. split; [apply grows_refl | ]. unfold ToString_word.
  rewrite (text_of_word_denotes _ _ _ d _ [] (height_bound _ _ _ d)
             (Forall_nil _)).
  destruct (ToString v); [eexists; split; reflexivity | reflexivity].
Qed.

(** One step of a simulation: the first operation and the first
    computation, then the rest from the machine reached, where all that
    stood for a value still does. *)
Ltac carry :=
  repeat match goal with
         | G : grows ?m ?m', d : denotes (memory ?m) ?w ?v |- _ =>
             lazymatch goal with
             | _ : denotes (memory m') w v |- _ => fail
             | _ => pose proof (denotes_after m m' w v G d)
             end
         end.

Ltac step lemma :=
  eapply simulates_bind; [apply lemma; eassumption | ];
  let a := fresh "w" in
  let b := fresh "v" in
  let m := fresh "m" in
  let G := fresh "G" in
  let d := fresh "d" in
  intros a b m G d; carry.

Ltac step_pure lemma :=
  eapply simulates_then; [apply lemma; eassumption | ];
  let a := fresh "w" in
  let m := fresh "m" in
  let G := fresh "G" in
  let d := fresh "d" in
  intros a m G d; carry.

Ltac literal :=
  apply simulates_literal;
  repeat (apply Forall2_cons; [split; [reflexivity | ] | ]);
  try apply Forall2_nil; cbn [snd];
  try assumption; try (apply or_else_word_denotes; try assumption; constructor).

Lemma simulates_rich_text (d : word) (d' : value) (m : Machine) :
  denotes (memory m) d d' ->
  simulates denotes (rich_text_in_memory d) (Ok (rich_text d')) m.
Proof.
  intros D. unfold rich_text_in_memory, rich_text.
  step_pure simulates_opt_read. step_pure simulates_opt_first.
  step_pure simulates_opt_read. step_pure simulates_opt_first.
  apply simulates_opt_read. assumption.
Qed.

Lemma simulates_description (w : word) (issue : value) (m : Machine) :
  denotes (memory m) w issue ->
  simulates denotes (description_in_memory w) (description_of issue) m.
Proof.
  intros D. unfold description_in_memory, description_of.
  step (simulates_path ["fields"; "description"]).
  step_pure simulates_rich_text.
  apply simulates_ret.
  repeat (apply or_else_word_denotes; try assumption). constructor.
Qed.

Lemma simulates_status (w : word) (issue : value) (m : Machine) :
  denotes (memory m) w issue ->
  simulates denotes (status_in_memory w) (status_of issue) m.
Proof.
  intros D. unfold status_in_memory, status_of.
  step (simulates_path ["fields"; "status"; "name"]).
  step (simulates_path ["fields"; "status"; "statusCategory"; "name"]).
  literal.
Qed.

Lemma simulates_priority (w : word) (issue : value) (m : Machine) :
  denotes (memory m) w issue ->
  simulates denotes (priority_in_memory w) (priority_of issue) m.
Proof.
  intros D. unfold priority_in_memory, priority_of.
  step (simulates_path ["fields"; "priority"]).
  step_pure (simulates_opt_read "name").
  step_pure (simulates_opt_read "id").
  literal.
Qed.

Lemma simulates_person (who : string) (w : word) (issue : value) (m : Machine) :
  denotes (memory m) w issue ->
  simulates denotes (person_in_memory who w) (person_of who issue) m.
Proof.
  intros D. unfold person_in_memory, person_of.
  step (simulates_path ["fields"; who]).
  match goal with
  | d : denotes (memory ?m') ?a ?v |- context [truthy_word ?a] =>
      rewrite (truthy_word_denotes _ _ _ d); destruct (truthy v)
  end.
  - step (simulates_path ["fields"; who; "displayName"]).
    step (simulates_path ["fields"; who; "emailAddress"]).
    step (simulates_path ["fields"; who; "accountId"]).
    literal.
  - apply simulates_ret. constructor.
Qed.

Lemma simulates_names (field : string) (w : word) (issue : value) (m : Machine) :
  denotes (memory m) w issue ->
  simulates denotes (names_in_memory field w) (names_of field issue) m.
Proof.
  intros D. unfold names_in_memory, names_of.
  step (simulates_path ["fields"; field]).
  eapply simulates_bind.
  { apply simulates_opt_map; [ | eassumption].
    intros x y m' _ dxy. apply simulates_read, dxy. }
  intros mapped mapped' m2 _ dm. apply simulates_or_empty_array, dm.
Qed.

Lemma simulates_labels (w : word) (issue : value) (m : Machine) :
  denotes (memory m) w issue ->
  simulates denotes (labels_in_memory w) (labels_of issue) m.
Proof.
  intros D. unfold labels_in_memory, labels_of.
  step (simulates_path ["fields"; "labels"]).
  apply simulates_or_empty_array. assumption.
Qed.

Lemma simulates_storyPoints (w : word) (issue : value) (m : Machine) :
  denotes (memory m) w issue ->
  simulates denotes (storyPoints_in_memory w) (storyPoints_of issue) m.
Proof.
  intros D. unfold storyPoints_in_memory, storyPoints_of.
  step (simulates_path ["fields"; "customfield_10016"]).
  apply simulates_ret. apply or_else_word_denotes; [assumption | constructor].
Qed.

Lemma simulates_link_entry (w : word) (link : value) (m : Machine) :
  denotes (memory m) w link ->
  simulates denotes (link_entry_in_memory w) (link_entry link) m.
Proof.
  intros D. unfold link_entry_in_memory, link_entry, or_elseM.
  step (simulates_path ["type"; "name"]).
  step (simulates_path ["type"; "inward"]).
  eapply simulates_bind.
  { match goal with
    | d : denotes (memory ?m') ?a ?v |- context [truthy_word ?a] =>
        rewrite (truthy_word_denotes _ _ _ d); destruct (truthy v)
    end.
    - apply simulates_ret. eassumption.
    - apply simulates_path. eassumption. }
  intros direction direction' m2 G2 ddir. carry.
  step (simulates_read "inwardIssue").
  step_pure (simulates_opt_read "key").
  eapply simulates_bind.
  { match goal with
    | d : denotes (memory ?m') ?a ?v |- context [truthy_word ?a] =>
        rewrite (truthy_word_denotes _ _ _ d); destruct (truthy v)
    end.
    - apply simulates_ret. eassumption.
    - step (simulates_read "outwardIssue").
      apply simulates_opt_read. assumption. }
  intros linked linked' m5 G5 dlinked. carry.
  literal.
Qed.

Lemma simulates_issueLinks (w : word) (issue : value) (m : Machine) :
  denotes (memory m) w issue ->
  simulates denotes (issueLinks_in_memory w) (issueLinks_of issue) m.
Proof.
  intros D. unfold issueLinks_in_memory, issueLinks_of.
  step (simulates_path ["fields"; "issuelinks"]).
  eapply simulates_bind.
  { apply simulates_opt_map; [ | eassumption].
    intros x y m' _ dxy. apply simulates_link_entry, dxy. }
  intros mapped mapped' m2 _ dm. apply simulates_or_empty_array, dm.
Qed.

Lemma simulates_url (w : word) (issue : value) (m : Machine) :
  denotes (memory m) w issue ->
  simulates denotes (url_in_memory w) (url_of issue) m.
Proof.
  intros D. unfold url_in_memory, url_of.
  step (simulates_read "key").
  eapply simulates_bind; [apply simulates_ToString; eassumption | ].
  intros s s' m' _ <-. apply simulates_ret. constructor.
Qed.

(** The normalizer in memory does what the normalizer does: from every
    machine in which the argument stands for a record, it ends as the
    normalizer ends on that record, having only added cells; and when
    it returns, it returns the address of a cell that was not there
    before, which stands for the record the normalizer returns. *)
Lemma transformUserStory_in_memory_spec (w : word) (issue : value)
  (m : Machine) :
  denotes (memory m) w issue ->
  simulates
    (fun cells o out =>
       denotes cells o out /\ exists a, o = WRef a /\ length (memory m) <= a)
    (transformUserStory_in_memory w) (transformUserStory issue) m.
Proof.
  intros D. unfold transformUserStory_in_memory, transformUserStory.
  step (simulates_read "key").
  step (simulates_path ["fields"; "summary"]).
  step simulates_description.
  step simulates_status.
  step simulates_priority.
  step (simulates_person "assignee").
  step (simulates_person "reporter").
  step (simulates_path ["fields"; "created"]).
  step (simulates_path ["fields"; "updated"]).
  step (simulates_names "components").
  step simulates_labels.
  step (simulates_names "fixVersions").
  step simulates_storyPoints.
  step simulates_issueLinks.
  step simulates_url.
  match goal with
  | |- simulates _ _ _ ?m' =>
      assert (L : length (memory m) <= length (memory m'))
  end.
  { repeat match goal with
           | G : grows _ _ |- _ => apply grows_length in G
           end. lia. }
  eapply simulates_weaken; [ | apply simulates_new_object].
  - intros m' o out _ (Dout & x & E & Hx). split; [exact Dout | ].
    exists x. split; [exact E | lia].
  - repeat (apply Forall2_cons; [split; [reflexivity | ] | ]);
      try apply Forall2_nil; cbn [snd]; assumption.
Qed.

(** ** The summary by status (lines 195-198) *)

Lemma statusCounts_tally (stories : list value) (keys : list string) :
  Forall2 (fun story k => path ["status"; "name"] story = Ok (VStr k))
    stories keys ->
  statusCounts stories = Ok (tally keys []).
Proof.
  unfold statusCounts, tally. generalize (@nil (string * slot)).
  intros acc H. revert acc.
  induction H as [ | story k stories keys Hk _ IH]; intros acc; simpl.
  - reflexivity.
  - unfold count_status at 1. rewrite Hk. simpl. apply IH.
Qed.

Lemma own_slot_replace_same (k : string) (v : slot) (acc : list (string * slot)) :
  own_slot k acc <> None -> own_slot k (replace_slot k v acc) = Some v.
Proof.
  induction acc as [ | [k' x] r IH]; simpl; intros H.
  - contradiction.
  - destruct (String.eqb_spec k' k) as [-> | Hne]; simpl.
    + rewrite String.eqb_refl. reflexivity.
    + destruct (String.eqb_spec k' k); [contradiction | ]. apply IH, H.
Qed.

Lemma own_slot_replace_other (k k' : string) (v : slot)
  (acc : list (string * slot)) :
  k <> k' -> own_slot k (replace_slot k' v acc) = own_slot k acc.
Proof.
  intros Hne. induction acc as [ | [j x] r IH]; simpl; [reflexivity | ].
  destruct (String.eqb_spec j k') as [-> | Hj]; simpl.
  - destruct (String.eqb_spec k' k); [congruence | reflexivity].
  - destruct (String.eqb_spec j k); [reflexivity | exact IH].
Qed.

Lemma own_slot_app (k : string) (acc more : list (string * slot)) :
  own_slot k (acc ++ more)
  = match own_slot k acc with
    | Some v => Some v
    | None => own_slot k more
    end.
Proof.
  induction acc as [ | [j x] r IH]; simpl; [reflexivity | ].
  destruct (String.eqb j k); [reflexivity | exact IH].
Qed.

Lemma own_slot_assign_same (k : string) (v : slot) (acc : list (string * slot)) :
  k <> "__proto__" -> own_slot k (assign k v acc) = Some v.
Proof.
  intros Hk. unfold assign. destruct (own_slot k acc) eqn:E.
  - apply own_slot_replace_same. congruence.
  - destruct (String.eqb_spec k "__proto__"); [contradiction | ].
    rewrite own_slot_app, E. simpl. rewrite String.eqb_refl. reflexivity.
Qed.

Lemma own_slot_assign_other (k k' : string) (v : slot)
  (acc : list (string * slot)) :
  k <> k' -> own_slot k (assign k' v acc) = own_slot k acc.
Proof.
  intros Hne. unfold assign. destruct (own_slot k' acc) eqn:E.
  - apply own_slot_replace_other, Hne.
  - destruct (String.eqb k' "__proto__"); [reflexivity | ].
    rewrite own_slot_app. destruct (own_slot k acc); [reflexivity | ].
    simpl. destruct (String.eqb_spec k' k); [congruence | reflexivity].
Qed.

Lemma inherited_text_proto (k : string) :
  inherited_text k = None -> k <> "__proto__".
Proof. intros H ->. discriminate. Qed.

Lemma tally_counted (keys : list string) (k : string)
  (acc : list (string * slot)) (n : N) :
  inherited_text k = None ->
  counted k acc n ->
  counted k (tally keys acc) (n + occurrences k keys).
Proof.
  intros Hk. revert acc n.
  induction keys as [ | j keys IH]; intros acc n Hc.
  - unfold occurrences. simpl. rewrite N.add_0_r. exact Hc.
  - unfold tally. simpl. fold (tally keys (assign j (incremented j acc) acc)).
    unfold occurrences. simpl. destruct (string_dec j k) as [-> | Hne].
    + rewrite Nat2N.inj_succ, <- N.add_succ_comm. apply IH. right.
      split; [lia | ].
      rewrite (own_slot_assign_same _ _ _ (inherited_text_proto _ Hk)).
      unfold incremented. destruct Hc as [[-> E] | [Hn E]]; rewrite E.
      * rewrite Hk. reflexivity.
      * f_equal. f_equal. lia.
    + apply IH. unfold counted.
      rewrite (own_slot_assign_other k j _ _ (not_eq_sym Hne)). exact Hc.
Qed.

(** For a status name that [Object.prototype] does not define, the
    summary holds the number of stories with that status, and no entry
    when there is none. *)
Lemma statusCounts_ordinary_name (stories : list value) (keys : list string)
  (k : string) :
  Forall2 (fun story k => path ["status"; "name"] story = Ok (VStr k))
    stories keys ->
  inherited_text k = None ->
  exists counts,
    statusCounts stories = Ok counts
    /\ counted k counts (occurrences k keys).
Proof.
  intros H Hk. exists (tally keys []). split.
  - apply statusCounts_tally, H.
  - apply (tally_counted keys k [] 0 Hk). left. split; reflexivity.
Qed.

(** The example of the specification. *)
Lemma statusCounts_example :
  statusCounts [story_with_status "Open"; story_with_status "Open";
                story_with_status "Done"]
  = Ok [("Open", Count 2); ("Done", Count 1)].
Proof. reflexivity. Qed.

(** C8, what the code does.  The accumulator is an ordinary object, so a
    status whose name [Object.prototype] defines is not counted: the
    inherited function is read instead of a count, and [+ 1] appends to
    its text. *)
Theorem statusCounts_inherited_name :
  statusCounts [story_with_status "Open"; story_with_status "constructor";
                story_with_status "constructor"]
  = Ok [("Open", Count 1);
        ("constructor", Text "function Object() { [native code] }11")].
Proof. vm_compute. reflexivity. Qed.

(** ** The run (lines 170-211) *)

Lemma exit_code_app (t t' : list event) :
  existsb is_exit t = false -> exit_code (t ++ t') = exit_code t'.
Proof.
  induction t as [ | e t IH]; simpl; intros H; [reflexivity | ].
  apply Bool.orb_false_iff in H. destruct H as [He Ht].
  destruct e; simpl in He; try discriminate; apply IH, Ht.
Qed.

Lemma forEach_log {A} (f : A -> list value) (l : list A) (s : State) :
  forEach (fun x => console_log (f x)) l s
  = (Ok tt,
     mkState (trace s ++ map (fun x => Stdout (f x)) l) (files s)
       (clock_reads s)).
Proof.
  revert s. induction l as [ | x r IH]; intros s; simpl.
  - unfold ret. rewrite app_nil_r. destruct s; reflexivity.
  - unfold bindIO, console_log, emit at 1. simpl. rewrite IH. simpl.
    rewrite <- app_assoc. reflexivity.
Qed.

Lemma logs_have_no_exit {A} (f : A -> list value) (l : list A) :
  existsb is_exit (map (fun x => Stdout (f x)) l) = false.
Proof. induction l as [ | x r IH]; simpl; [reflexivity | exact IH]. Qed.

#[local] Opaque String.append String.concat newline requested_fields number_of_N
  JSON_stringify.

Lemma sibling_read (a b c : string) (v x : value) :
  path [a; b] v = Ok x -> path [a; c] v = Ok (opt_get c (opt_get a v)).
Proof.
  rewrite !path_cons. intros H. apply bind_Ok in H.
  destruct H as (y & Hy & H). rewrite Hy. simpl.
  apply get_Ok in Hy. destruct Hy as [_ ->].
  rewrite path_cons in H. apply bind_Ok in H. destruct H as (z & Hz & _).
  apply get_Ok in Hz. destruct Hz as [Hn _].
  rewrite path_cons, (get_opt_get _ _ Hn). reflexivity.
Qed.

(** The fetch stage ends the same way from every state, and adds the
    same events: the announcement, the request, and either the count
    found or the diagnostic. *)
Lemma fetchUserStories_run (s : State) :
  match stage_fetch with
  | Ok raws =>
      exists found,
        fetchUserStories (projectKey JIRA_CONFIG) VUndefined s
        = (Ok raws, logged s [fetching; request; Stdout [VStr found]])
  | Throw e =>
      fetchUserStories (projectKey JIRA_CONFIG) VUndefined s
      = (Throw e, logged s [fetching; request; fetch_failure e])
  end.
Proof.
  unfold stage_fetch, fetchUserStories, default_parameter, try_catch,
    jiraApi_get, bindIO, console_log, console_error, emit, lift, throw, logged,
    fetching, request, fetch_failure.
  simpl.
  destruct (jiraApi_response W) as [resp | e]; simpl;
    [destruct (path ["data"; "total"] resp) as [total | e] eqn:Htotal; simpl;
     [rewrite (sibling_read _ _ "issues" _ _ Htotal);
      destruct (ToString total) as [text | e]; simpl | ] | ];
    try eexists; rewrite <- !app_assoc; reflexivity.
Qed.

(** The write stage ends the same way from every state.  When it
    returns, the file holds the whole document, stamped with the reading
    of the clock taken then; when it throws, the files are as they were,
    but for the output file when the write had opened it, which is then
    torn.  It never exits the process. *)
Lemma saveToJSON_run (stories : list value) (s : State) :
  match stage_write stories with
  | Ok file =>
      file = output_file
      /\ exists evs,
           saveToJSON stories "jira-user-story.json" s
           = (Ok file,
              mkState (trace s ++ evs)
                (store output_file
                   (Whole
                      (JSON_stringify
                         (document stories (clock W (clock_reads s)))))
                   (files s))
                (S (clock_reads s)))
           /\ existsb is_exit evs = false
           /\ existsb is_diagnostic evs = false
  | Throw e =>
      exists evs fs n,
        saveToJSON stories "jira-user-story.json" s
        = (Throw e, mkState (trace s ++ evs) fs n)
        /\ existsb is_exit evs = false
        /\ (fs = files s
            \/ (fs = store output_file Torn (files s)
                /\ writeFileSync_opened W = true
                /\ writeFileSync_outcome W = Throw e))
        /\ (writeFileSync_opened W = false -> fs = files s)
  end.
Proof.
  unfold stage_write, saveToJSON, try_catch, fs_existsSync, fs_mkdirSync,
    fs_writeFileSync, new_Date_toISOString, bindIO, console_log, console_error,
    emit, lift, throw, ret, output_file, document.
  simpl.
  destruct (dataDir_exists W); simpl;
    [ | destruct (mkdirSync_outcome W) as [[] | e]; simpl ];
    try (destruct (writeFileSync_outcome W) as [[] | e]; simpl;
         [ | destruct (writeFileSync_opened W) eqn:Hopened; simpl ]);
    try (split; [reflexivity | ]);
    try (eexists; split;
         [rewrite <- !app_assoc; simpl; reflexivity | split; reflexivity]);
    (eexists; eexists; eexists; split;
     [rewrite <- !app_assoc; simpl; reflexivity | ]);
    (split; [reflexivity | ]);
    (split; [auto | ]); try discriminate; intros _; reflexivity.
Qed.

Lemma fetch_Ok (raws : value) (s : State) :
  stage_fetch = Ok raws ->
  exists found,
    fetchUserStories (projectKey JIRA_CONFIG) VUndefined s
    = (Ok raws, logged s [fetching; request; Stdout [VStr found]]).
Proof. intros H. pose proof (fetchUserStories_run s) as R. rewrite H in R. exact R. Qed.

Lemma fetch_Throw (e : exn) (s : State) :
  stage_fetch = Throw e ->
  fetchUserStories (projectKey JIRA_CONFIG) VUndefined s
  = (Throw e, logged s [fetching; request; fetch_failure e]).
Proof. intros H. pose proof (fetchUserStories_run s) as R. rewrite H in R. exact R. Qed.

Lemma save_Ok (stories : list value) (file : string) (s : State) :
  stage_write stories = Ok file ->
  file = output_file
  /\ exists evs,
       saveToJSON stories "jira-user-story.json" s
       = (Ok file,
          mkState (trace s ++ evs)
            (store output_file
               (Whole
                  (JSON_stringify (document stories (clock W (clock_reads s)))))
               (files s))
            (S (clock_reads s)))
       /\ existsb is_exit evs = false
       /\ existsb is_diagnostic evs = false.
Proof.
  intros H. pose proof (saveToJSON_run stories s) as R. rewrite H in R. exact R.
Qed.

Lemma save_Throw (stories : list value) (e : exn) (s : State) :
  stage_write stories = Throw e ->
  exists evs fs n,
    saveToJSON stories "jira-user-story.json" s
    = (Throw e, mkState (trace s ++ evs) fs n)
    /\ existsb is_exit evs = false
    /\ (fs = files s
        \/ (fs = store output_file Torn (files s)
            /\ writeFileSync_opened W = true
            /\ writeFileSync_outcome W = Throw e))
    /\ (writeFileSync_opened W = false -> fs = files s).
Proof.
  intros H. pose proof (saveToJSON_run stories s) as R. rewrite H in R. exact R.
Qed.

#[local] Opaque fetchUserStories saveToJSON statusCounts transformUserStory
  call_map Object_entries.

Lemma logs_have_no_diagnostic {A} (f : A -> list value) (l : list A) :
  existsb is_diagnostic (map (fun x => Stdout (f x)) l) = false.
Proof. induction l as [ | x r IH]; simpl; [reflexivity | exact IH]. Qed.

Ltac run_step :=
  cbn [bindIO console_log console_error process_exit emit trace files
       clock_reads logged lift new_Date_toISOString snd fst store].

Ltac run_fetch H :=
  unfold bindIO at 1;
  match goal with
  | |- context [fetchUserStories _ _ ?s] =>
      first [ destruct (fetch_Ok _ s H) as (? & ->)
            | rewrite (fetch_Throw _ s H) ]
  end;
  run_step.

Ltac run_normalize H :=
  unfold bindIO at 1; run_step;
  unfold stage_normalize in H; rewrite H; run_step.

Ltac quiet :=
  cbn [app existsb is_exit is_diagnostic orb fetching request transforming];
  rewrite ?existsb_app, ?logs_have_no_exit, ?logs_have_no_diagnostic;
  cbn [app existsb is_exit is_diagnostic orb];
  repeat match goal with
         | H : existsb _ _ = false |- _ => rewrite H
         end;
  reflexivity.

(** The five ways a run can go, by the first stage that throws. *)
Lemma run_cases :
  match stage_fetch with
  | Throw e =>
      run = mkState (opening ++ [fetching; request; fetch_failure e]
                     ++ failure_report (message e)) [] 0
  | Ok raws =>
      match stage_normalize raws with
      | Throw e =>
          exists found,
            run = mkState (opening
                           ++ [fetching; request; Stdout [VStr found];
                               transforming]
                           ++ failure_report (message e)) [] 0
      | Ok stories =>
          match stage_write stories with
          | Throw e =>
              exists t fs n,
                run = mkState (t ++ failure_report (message e)) fs n
                /\ existsb is_exit t = false
                /\ (fs = []
                    \/ (fs = [(output_file, Torn)]
                        /\ writeFileSync_opened W = true
                        /\ writeFileSync_outcome W = Throw e))
                /\ (writeFileSync_opened W = false -> fs = [])
          | Ok file =>
              let written :=
                [(output_file,
                  Whole (JSON_stringify (document stories (clock W 1))))] in
              match statusCounts stories with
              | Throw e =>
                  exists t,
                    run = mkState (t ++ failure_report (message e)) written 2
                    /\ existsb is_exit t = false
              | Ok counts =>
                  exists t,
                    run = mkState t written 2
                    /\ existsb is_exit t = false
                    /\ existsb is_diagnostic t = false
              end
          end
      end
  end.
Proof.
  destruct stage_fetch as [raws | e] eqn:Hfetch.
  - destruct (stage_normalize raws) as [stories | e] eqn:Hnorm.
    + destruct (stage_write stories) as [file | e] eqn:Hwrite.
      * cbv zeta.
        destruct (statusCounts stories) as [counts | e] eqn:Hcounts;
          unfold run, main, try_catch, initial; run_step;
          run_fetch Hfetch; run_normalize Hnorm;
          unfold bindIO at 1;
          match goal with
          | |- context [saveToJSON _ _ ?s] =>
              destruct (save_Ok stories file s Hwrite)
                as (-> & evs & -> & Hevs & Hdiag)
          end;
          run_step; rewrite Hcounts.
        -- rewrite forEach_log. run_step.
           eexists. split; [reflexivity | ]. split; quiet.
        -- run_step. rewrite <- app_assoc.
           eexists. split; [reflexivity | ]. quiet.
      * unfold run, main, try_catch, initial. run_step.
        run_fetch Hfetch. run_normalize Hnorm.
        unfold bindIO at 1.
        match goal with
        | |- context [saveToJSON _ _ ?s] =>
            destruct (save_Throw stories e s Hwrite)
              as (evs & fs & n & -> & Hevs & Hfs & Hkept)
        end.
        run_step. rewrite <- app_assoc. cbn [files store] in Hfs, Hkept.
        eexists. eexists. eexists. split; [reflexivity | ].
        split; [quiet | split; [exact Hfs | exact Hkept]].
    + unfold run, main, try_catch, initial. run_step.
      run_fetch Hfetch. run_normalize Hnorm.
      eexists. reflexivity.
  - unfold run, main, try_catch, initial. run_step.
    run_fetch Hfetch. reflexivity.
Qed.

#[local] Transparent JSON_stringify number_of_N.

Lemma statusCounts_named (stories : list value) :
  Forall named_status stories -> exists counts, statusCounts stories = Ok counts.
Proof.
  intros H.
  assert (K : exists keys,
             Forall2 (fun story k => path ["status"; "name"] story = Ok (VStr k))
               stories keys).
  { induction H as [ | story r (name & Hn) _ (keys & IH)].
    - exists []. constructor.
    - exists (name :: keys). constructor; assumption. }
  destruct K as (keys & K). exists (tally keys []).
  apply statusCounts_tally, K.
Qed.

Lemma exit_code_failure (t : list event) (msg : string) :
  existsb is_exit t = false ->
  exit_code (t ++ failure_report msg)%list = 1%Z.
Proof. intros H. rewrite (exit_code_app _ _ H). reflexivity. Qed.

Lemma exit_code_quiet (t : list event) :
  existsb is_exit t = false -> exit_code t = 0%Z.
Proof.
  intros H. rewrite <- (app_nil_r t). rewrite (exit_code_app _ _ H).
  reflexivity.
Qed.

Lemma stage_write_file (stories : list value) (file : string) :
  stage_write stories = Ok file -> file = output_file.
Proof. intros H. apply (save_Ok stories file initial H). Qed.


(** C7, as the code has it.  (1) When the fetch throws, the run is the
    announcement, the request, the two diagnostics and the exit with
    code 1: no record is normalized, the file system is not touched, no
    file is written.  (2) When any of the three stages throws, the run
    ends with the diagnostic on the error stream followed by the exit
    with code 1.  (3) When the three stages return, the whole document
    is in the file; the exit code is then 0 exactly when the summary by
    status, which [main] computes after the write inside the same [try],
    does not throw; when it throws, the run ends with the diagnostic and
    exit code 1 although the file is written; it does not throw when
    every status name is a text.  (4) The exit code is 0 or 1.  (5) It
    is 0 exactly when the three stages and the summary returned, and
    then the whole document is in the file and nothing went to the error
    stream. *)
Theorem exit_contract :
  (forall e,
      stage_fetch = Throw e ->
      trace run = (opening ++ [fetching; request; fetch_failure e]
                   ++ failure_report (message e))%list
      /\ existsb is_file_system (trace run) = false
      /\ files run = []
      /\ exit_code (trace run) = 1%Z)
  /\ (forall e,
         pipeline = Throw e ->
         exit_code (trace run) = 1%Z
         /\ exists t, trace run = (t ++ failure_report (message e))%list)
  /\ (forall stories file,
         pipeline = Ok (stories, file) ->
         files run
         = [(file, Whole (JSON_stringify (document stories (clock W 1))))]
         /\ (exit_code (trace run) = 0%Z <->
             exists counts, statusCounts stories = Ok counts)
         /\ (forall e,
                statusCounts stories = Throw e ->
                exit_code (trace run) = 1%Z
                /\ exists t, trace run = (t ++ failure_report (message e))%list)
         /\ (Forall named_status stories ->
             exit_code (trace run) = 0%Z
             /\ existsb is_diagnostic (trace run) = false))
  /\ (exit_code (trace run) = 0%Z \/ exit_code (trace run) = 1%Z)
  /\ (exit_code (trace run) = 0%Z <->
      exists stories file counts,
        pipeline = Ok (stories, file) /\ statusCounts stories = Ok counts)
  /\ (exit_code (trace run) = 0%Z ->
      existsb is_diagnostic (trace run) = false
      /\ exists stories file,
           pipeline = Ok (stories, file)
           /\ files run
              = [(file, Whole (JSON_stringify (document stories (clock W 1))))]).
Proof.
  pose proof run_cases as R. unfold pipeline.
  destruct stage_fetch as [raws | e0]; simpl.
  - destruct (stage_normalize raws) as [stories | e0]; simpl.
    + destruct (stage_write stories) as [file | e0] eqn:Hw; simpl.
      * apply stage_write_file in Hw. subst file. cbv zeta in R.
        destruct (statusCounts stories) as [counts | e0] eqn:Hc.
        -- destruct R as (t & -> & Hexit & Hdiag). simpl.
           rewrite (exit_code_quiet _ Hexit).
           split; [intros e; discriminate | ].
           split; [intros e; discriminate | ].
           split.
           { intros ? ? [= <- <-]. rewrite Hc.
             split; [reflexivity | ].
             split; [split; [intros _; exists counts | ]; reflexivity | ].
             split; [intros e; discriminate | ].
             intros _. split; [reflexivity | exact Hdiag]. }
           split; [left; reflexivity | ].
           split.
           { split; [ | reflexivity]. intros _.
             exists stories, output_file, counts. split; [reflexivity | exact Hc]. }
           intros _. split; [exact Hdiag | ].
           eexists. eexists. split; reflexivity.
        -- destruct R as (t & -> & Hexit). simpl.
           rewrite (exit_code_failure _ _ Hexit).
           split; [intros e; discriminate | ].
           split; [intros e; discriminate | ].
           split.
           { intros ? ? [= <- <-]. rewrite Hc.
             split; [reflexivity | ].
             split; [split; [discriminate | intros (c & H); discriminate] | ].
             split; [intros e [= <-]; split; [reflexivity | ];
                     exists t; reflexivity | ].
             intros Hn. destruct (statusCounts_named _ Hn) as (c & Hc').
             congruence. }
           split; [right; reflexivity | ].
           split.
           { split; [discriminate | ].
             intros (st & f & c & [= <- <-] & H). congruence. }
           intros H. discriminate.
      * destruct R as (t & fs & n & -> & Hexit & _). simpl.
        rewrite (exit_code_failure _ _ Hexit).
        split; [intros e; discriminate | ].
        split; [intros e [= <-]; split; [reflexivity | ];
                exists t; reflexivity | ].
        split; [intros ? ? H; discriminate | ].
        split; [right; reflexivity | ].
        split; [split; [discriminate | intros (st & f & c & H & _); discriminate] | ].
        intros H. discriminate.
    + destruct R as (found & ->). cbn [trace files].
      split; [intros e; discriminate | ].
      split; [intros e [= <-]; split; [reflexivity | ];
              eexists; rewrite app_assoc; reflexivity | ].
      split; [intros ? ? H; discriminate | ].
      split; [right; reflexivity | ].
      split; [split; [simpl; discriminate
                     | intros (st & f & c & H & _); discriminate] | ].
      intros H. simpl in H. discriminate.
  - rewrite R. cbn [trace files].
    split; [intros e [= <-]; repeat split | ].
    split; [intros e [= <-]; split; [reflexivity | ];
            eexists; rewrite !app_assoc; reflexivity | ].
    split; [intros ? ? H; discriminate | ].
    split; [right; reflexivity | ].
    split; [split; [simpl; discriminate
                   | intros (st & f & c & H & _); discriminate] | ].
    intros H. simpl in H. discriminate.
Qed.

Lemma JSON_stringify_count (n : N) :
  JSON_stringify (VNum (number_of_N n)) = VNum (number_of_N n).
Proof.
  destruct n as [ | p]; simpl; [reflexivity | ].
  destruct (odd_part p) as [m e]. reflexivity.
Qed.


(** ** Further properties *)

#[local] Transparent fetchUserStories saveToJSON statusCounts transformUserStory
  call_map Object_entries String.append String.concat newline requested_fields.

(** *** What [JSON.stringify] writes *)

Lemma JSON_stringify_is_json (v : value) : is_json (JSON_stringify v) = true.
Proof.
  induction v as [ | | b | n | s | items IH | props IH] using value_induction;
    try reflexivity.
  - destruct n as [ | b | b | b m e]; reflexivity.
  - simpl. induction IH as [ | x r Hx _ IHr]; simpl; [reflexivity | ].
    rewrite Hx. exact IHr.
  - simpl. induction IH as [ | [k x] r Hx _ IHr]; simpl; [reflexivity | ].
    simpl in Hx. destruct x; try exact IHr; simpl in *; rewrite ?Hx; exact IHr.
Qed.

Lemma JSON_stringify_fixed (v : value) :
  is_json v = true -> JSON_stringify v = v.
Proof.
  induction v as [ | | b | n | s | items IH | props IH] using value_induction;
    simpl; intros H; try reflexivity; try discriminate.
  - destruct n as [ | b | [ | ] | b m e]; try discriminate; reflexivity.
  - f_equal. induction IH as [ | x r Hx _ IHr]; simpl in *; [reflexivity | ].
    apply andb_prop in H. destruct H as [H1 H2].
    rewrite (Hx H1), (IHr H2). reflexivity.
  - f_equal. induction IH as [ | [k x] r Hx _ IHr]; simpl in *; [reflexivity | ].
    apply andb_prop in H. destruct H as [H1 H2].
    rewrite (IHr H2).
    destruct x; try discriminate; try reflexivity;
      rewrite (Hx H1); reflexivity.
Qed.

(** *** When the normalizer returns, exactly *)

Lemma transformUserStory_pieces (issue key summary description status priority
  assignee reporter created updated components labels fixVersions storyPoints
  issueLinks url : value) :
  get "key" issue = Ok key ->
  path ["fields"; "summary"] issue = Ok summary ->
  description_of issue = Ok description ->
  status_of issue = Ok status ->
  priority_of issue = Ok priority ->
  person_of "assignee" issue = Ok assignee ->
  person_of "reporter" issue = Ok reporter ->
  path ["fields"; "created"] issue = Ok created ->
  path ["fields"; "updated"] issue = Ok updated ->
  names_of "components" issue = Ok components ->
  labels_of issue = Ok labels ->
  names_of "fixVersions" issue = Ok fixVersions ->
  storyPoints_of issue = Ok storyPoints ->
  issueLinks_of issue = Ok issueLinks ->
  url_of issue = Ok url ->
  transformUserStory issue
  = Ok (normalized key summary description status priority assignee reporter
          created updated components labels fixVersions storyPoints issueLinks
          url).
Proof.
  intros H1 H2 H3 H4 H5 H6 H7 H8 H9 H10 H11 H12 H13 H14 H15.
  unfold transformUserStory.
  rewrite H1; simpl. rewrite H2; simpl. rewrite H3; simpl. rewrite H4; simpl.
  rewrite H5; simpl. rewrite H6; simpl. rewrite H7; simpl. rewrite H8; simpl.
  rewrite H9; simpl. rewrite H10; simpl. rewrite H11; simpl.
  rewrite H12; simpl. rewrite H13; simpl. rewrite H14; simpl.
  rewrite H15; simpl. reflexivity.
Qed.

Lemma opt_map_Ok (callee : string) (f : value -> result value) (src m : value) :
  opt_map callee f src = Ok m ->
  (nullish src = true /\ m = VUndefined)
  \/ exists items ys, src = VArr items /\ mapM f items = Ok ys /\ m = VArr ys.
Proof.
  destruct src; simpl; intros H; try discriminate.
  - left. injection H as <-. split; reflexivity.
  - left. injection H as <-. split; reflexivity.
  - right. apply bind_Ok in H. destruct H as (ys & Hys & H).
    injection H as <-. exists items, ys. repeat split. exact Hys.
Qed.

Lemma opt_map_mappable (callee : string) (f : value -> result value)
  (entry_ok : value -> Prop) (src m : value) :
  (forall x y, f x = Ok y -> entry_ok x) ->
  opt_map callee f src = Ok m ->
  absent_or_array entry_ok src.
Proof.
  intros Hf H. apply opt_map_Ok in H.
  destruct H as [[Hn _] | (items & ys & -> & Hys & _)].
  - left. exact Hn.
  - right. exists items. split; [reflexivity | ].
    apply mapM_Forall2 in Hys.
    induction Hys as [ | x y r zs Hx _ IH]; constructor.
    + apply (Hf _ _ Hx).
    + exact IH.
Qed.

Lemma names_of_mappable (field : string) (issue out : value) :
  names_of field issue = Ok out ->
  absent_or_array (fun c => nullish c = false)
    (opt_get field (opt_get "fields" issue)).
Proof.
  unfold names_of. intros H. apply bind_Ok in H. destruct H as (c & Hc & H).
  apply path_fields in Hc. destruct Hc as (_ & _ & ->).
  apply bind_Ok in H. destruct H as (m & Hm & _).
  apply (opt_map_mappable _ _ _ _ _ (fun x y Hx => proj1 (get_Ok _ _ _ Hx)) Hm).
Qed.

Lemma issueLinks_of_mappable (issue out : value) :
  issueLinks_of issue = Ok out ->
  absent_or_array (fun l => nullish (opt_get "type" l) = false)
    (opt_get "issuelinks" (opt_get "fields" issue)).
Proof.
  unfold issueLinks_of. intros H. apply bind_Ok in H.
  destruct H as (c & Hc & H).
  apply path_fields in Hc. destruct Hc as (_ & _ & ->).
  apply bind_Ok in H. destruct H as (m & Hm & _).
  apply (opt_map_mappable _ _ _ _ _
           (fun x y Hx => proj1 (link_entry_Ok _ _ Hx)) Hm).
Qed.

Lemma status_of_readable (issue st : value) :
  status_of issue = Ok st ->
  nullish (opt_get "status" (opt_get "fields" issue)) = false
  /\ nullish (opt_get "statusCategory"
                (opt_get "status" (opt_get "fields" issue))) = false.
Proof.
  unfold status_of. intros H. apply bind_Ok in H.
  destruct H as (n & _ & H). apply bind_Ok in H. destruct H as (c & Hc & _).
  change ["fields"; "status"; "statusCategory"; "name"]
    with ((["fields"; "status"] ++ ["statusCategory"]) ++ ["name"])%list in Hc.
  rewrite !path_snoc in Hc. apply bind_Ok in Hc. destruct Hc as (sc & Hsc & Hc).
  apply bind_Ok in Hsc. destruct Hsc as (s & Hs & Hsc).
  apply path_fields in Hs. destruct Hs as (_ & _ & ->).
  apply get_Ok in Hsc. destruct Hsc as [Hn ->].
  apply get_Ok in Hc. destruct Hc as [Hn' _]. split; assumption.
Qed.

Lemma status_of_Ok (issue : value) :
  nullish issue = false ->
  nullish (opt_get "fields" issue) = false ->
  nullish (opt_get "status" (opt_get "fields" issue)) = false ->
  nullish (opt_get "statusCategory"
             (opt_get "status" (opt_get "fields" issue))) = false ->
  status_of issue
  = Ok (VObj [("name", opt_get "name" (opt_get "status" (opt_get "fields" issue)));
              ("category",
               opt_get "name"
                 (opt_get "statusCategory"
                    (opt_get "status" (opt_get "fields" issue))))]).
Proof.
  intros Hi Hf Hs Hc. unfold status_of.
  change ["fields"; "status"; "name"]
    with (["fields"; "status"] ++ ["name"])%list.
  change ["fields"; "status"; "statusCategory"; "name"]
    with ((["fields"; "status"] ++ ["statusCategory"]) ++ ["name"])%list.
  rewrite !path_snoc, (path_fields_Ok _ _ Hi Hf). simpl.
  rewrite !(get_opt_get _ _ Hs). simpl. rewrite (get_opt_get _ _ Hc).
  reflexivity.
Qed.

Lemma mappable_names (callee : string) (src : value) :
  absent_or_array (fun c => nullish c = false) src ->
  exists items,
    (m <- opt_map callee (get "name") src ;; Ok (or_else m (VArr [])))
    = Ok (VArr items).
Proof.
  apply (opt_map_total callee (get "name") (opt_get "name")).
  intros x Hx. apply get_opt_get, Hx.
Qed.

(** The normalizer returns exactly on the readable records: it throws
    on every other one. *)
Theorem transformUserStory_returns_iff (issue : value) :
  (exists out, transformUserStory issue = Ok out) <-> readable issue.
Proof.
  split.
  - intros (out & H). apply transformUserStory_Ok in H.
    destruct H as (k & su & de & st & pr & a & r & c & u & co & l & f & sp
                   & il & url & Hk & Hsu & _ & Hst & _ & _ & _ & _ & _ & Hco
                   & _ & Hf & _ & Hil & Hurl & _).
    apply get_Ok in Hk. destruct Hk as [Hi Hk].
    apply path_fields in Hsu. destruct Hsu as (_ & Hfields & _).
    destruct (status_of_readable _ _ Hst) as [Hs Hc].
    unfold readable. cbv zeta.
    repeat (split; [assumption | ]).
    split; [exact (names_of_mappable _ _ _ Hco) | ].
    split; [exact (names_of_mappable _ _ _ Hf) | ].
    split; [exact (issueLinks_of_mappable _ _ Hil) | ].
    unfold url_of in Hurl. rewrite (get_opt_get _ _ Hi) in Hurl.
    simpl in Hurl. apply bind_Ok in Hurl. destruct Hurl as (s & Hs' & _).
    exists s. exact Hs'.
  - intros (Hi & Hf & Hs & Hc & Hco & Hfv & Hil & (text & Htext)).
    cbv zeta in *.
    assert (Hpath : forall p, path ["fields"; p] issue
                              = Ok (opt_get p (opt_get "fields" issue))).
    { intros p. apply path_fields_Ok; assumption. }
    destruct (mappable_names "issue.fields.components?.map" _ Hco) as (cs & Hcs).
    destruct (mappable_names "issue.fields.fixVersions?.map" _ Hfv) as (vs & Hvs).
    destruct (opt_map_total "issue.fields.issuelinks?.map" link_entry
                link_projection _ _ link_entry_spec Hil) as (ls & Hls).
    eexists. apply transformUserStory_pieces.
    + apply get_opt_get, Hi.
    + apply Hpath.
    + apply description_of_spec, Hpath.
    + apply status_of_Ok; assumption.
    + unfold priority_of. rewrite Hpath. reflexivity.
    + apply person_of_spec, Hpath.
    + apply person_of_spec, Hpath.
    + apply Hpath.
    + apply Hpath.
    + unfold names_of. rewrite Hpath. simpl. exact Hcs.
    + unfold labels_of. rewrite Hpath. reflexivity.
    + unfold names_of. rewrite Hpath. simpl. exact Hvs.
    + unfold storyPoints_of. rewrite Hpath. reflexivity.
    + unfold issueLinks_of. rewrite Hpath. simpl. exact Hls.
    + unfold url_of. rewrite (get_opt_get _ _ Hi). simpl. rewrite Htext.
      reflexivity.
Qed.

(** *** Priority, copied fields and the address (lines 92-93, 97-104,
    115-116, 126) *)

(** The priority of a record that normalizes: the name and the id of the
    source priority, each replaced by its default ("None", [null]) when
    it is missing or empty; so an absent priority gives
    [{name: "None", id: null}]. *)
Theorem priority_defaults (issue out p : value) :
  transformUserStory issue = Ok out ->
  path ["fields"; "priority"] issue = Ok p ->
  path ["priority"; "name"] out = Ok (or_else (opt_get "name" p) (VStr "None"))
  /\ path ["priority"; "id"] out = Ok (or_else (opt_get "id" p) VNull)
  /\ (is_object p = false ->
      get "priority" out = Ok (VObj [("name", VStr "None"); ("id", VNull)]))
  /\ (forall name id,
         opt_get "name" p = VStr name -> name <> "" ->
         opt_get "id" p = VStr id -> id <> "" ->
         get "priority" out = Ok (VObj [("name", VStr name); ("id", VStr id)])).
Proof.
  intros Hout Hp. apply transformUserStory_Ok in Hout.
  destruct Hout as (k & su & de & st & pr & a & r & c & u & co & l & f & sp
                    & il & url & _ & _ & _ & _ & Hpr & _ & _ & _ & _ & _ & _
                    & _ & _ & _ & _ & ->).
  unfold priority_of in Hpr. rewrite Hp in Hpr. injection Hpr as <-.
  split; [reflexivity | ]. split; [reflexivity | ]. split.
  - intros Ho. destruct p; simpl in Ho; try discriminate; reflexivity.
  - intros name id Hn Hne Hi Hie.
    change (get "priority" (normalized _ _ _ _ ?x _ _ _ _ _ _ _ _ _ _))
      with (Ok x).
    rewrite Hn, Hi. unfold or_else. simpl.
    destruct (String.eqb_spec name ""); [contradiction | ].
    destruct (String.eqb_spec id ""); [contradiction | reflexivity].
Qed.

(** The fields without a default are copied as they are, [undefined]
    included: the key, the summary, the two dates, the name of the
    status and the name of its category. *)
Theorem copied_fields (issue out : value) :
  transformUserStory issue = Ok out ->
  let fields := opt_get "fields" issue in
  let status := opt_get "status" fields in
  get "key" out = Ok (opt_get "key" issue)
  /\ get "summary" out = Ok (opt_get "summary" fields)
  /\ get "created" out = Ok (opt_get "created" fields)
  /\ get "updated" out = Ok (opt_get "updated" fields)
  /\ path ["status"; "name"] out = Ok (opt_get "name" status)
  /\ path ["status"; "category"] out
     = Ok (opt_get "name" (opt_get "statusCategory" status)).
Proof.
  intros Hout. pose proof Hout as Hshape.
  apply transformUserStory_Ok in Hout.
  destruct Hout as (k & su & de & st & pr & a & r & c & u & co & l & f & sp
                    & il & url & Hk & Hsu & _ & Hst & _ & _ & _ & Hc & Hu & _
                    & _ & _ & _ & _ & _ & ->).
  apply get_Ok in Hk. destruct Hk as [Hi ->].
  apply path_fields in Hsu. destruct Hsu as (_ & Hf & ->).
  apply path_fields in Hc. destruct Hc as (_ & _ & ->).
  apply path_fields in Hu. destruct Hu as (_ & _ & ->).
  destruct (status_of_readable _ _ Hst) as [Hs Hcat].
  rewrite (status_of_Ok _ Hi Hf Hs Hcat) in Hst. injection Hst as <-.
  cbv zeta. repeat split.
Qed.

(** The address of a record is the base address of the configuration,
    "/browse/" and the key, for every record whose key is a text. *)
Theorem url_of_key (issue out : value) (id : string) :
  transformUserStory issue = Ok out ->
  get "key" issue = Ok (VStr id) ->
  get "url" out = Ok (VStr (baseURL JIRA_CONFIG ++ "/browse/" ++ id))
  /\ get "key" out = Ok (VStr id).
Proof.
  intros Hout Hid. apply transformUserStory_Ok in Hout.
  destruct Hout as (k & su & de & st & pr & a & r & c & u & co & l & f & sp
                    & il & url & Hk & _ & _ & _ & _ & _ & _ & _ & _ & _
                    & _ & _ & _ & _ & Hurl & ->).
  rewrite Hid in Hk. injection Hk as <-.
  unfold url_of in Hurl. rewrite Hid in Hurl. simpl in Hurl.
  injection Hurl as <-. split; reflexivity.
Qed.

(** *** The batch (line 181) *)

Lemma mapM_Throw {A B} (f : A -> result B) (l : list A) (e : exn) :
  mapM f l = Throw e <->
  exists pre x post ys,
    l = (pre ++ x :: post)%list /\ mapM f pre = Ok ys /\ f x = Throw e.
Proof.
  split.
  - induction l as [ | a r IH]; simpl; intros H; [discriminate | ].
    destruct (f a) as [y | e'] eqn:Ha; simpl in H.
    + destruct (mapM f r) as [ys | e'] eqn:Hr; simpl in H; [discriminate | ].
      injection H as ->. destruct (IH eq_refl) as (pre & x & post & zs & -> & Hp & Hx).
      exists (a :: pre), x, post, (y :: zs). repeat split; [ | exact Hx].
      simpl. rewrite Ha. simpl. rewrite Hp. reflexivity.
    + injection H as ->. exists [], a, r, []. repeat split. exact Ha.
  - intros (pre & x & post & ys & -> & Hp & Hx). revert ys Hp.
    induction pre as [ | a pre IH]; simpl; intros ys Hp.
    + rewrite Hx. reflexivity.
    + apply bind_Ok in Hp. destruct Hp as (y & Hy & Hp).
      apply bind_Ok in Hp. destruct Hp as (zs & Hzs & _).
      rewrite Hy. simpl. rewrite (IH _ Hzs). reflexivity.
Qed.

(** The batch is normalized record by record, in order: it comes back
    as the records of the same positions, and it throws exactly when
    some record does, with the error of the first such record. *)
Theorem stage_normalize_batch (raws : list value) :
  (forall stories,
      stage_normalize (VArr raws) = Ok stories <->
      Forall2 (fun raw story => transformUserStory raw = Ok story) raws stories)
  /\ (forall e,
         stage_normalize (VArr raws) = Throw e <->
         exists pre bad post stories,
           raws = (pre ++ bad :: post)%list
           /\ Forall2 (fun raw story => transformUserStory raw = Ok story)
                pre stories
           /\ transformUserStory bad = Throw e).
Proof.
  unfold stage_normalize, call_map. split.
  - intros stories. apply mapM_Forall2.
  - intros e. rewrite mapM_Throw. split.
    + intros (pre & x & post & ys & E & Hp & Hx).
      exists pre, x, post, ys. repeat split; try assumption.
      apply mapM_Forall2, Hp.
    + intros (pre & x & post & ys & E & Hp & Hx).
      exists pre, x, post, ys. repeat split; try assumption.
      apply mapM_Forall2, Hp.
Qed.

(** A body whose [issues] is not an array cannot be normalized. *)
Lemma stage_normalize_not_array (raws : value) :
  (forall items, raws <> VArr items) -> exists e, stage_normalize raws = Throw e.
Proof.
  intros H. unfold stage_normalize, call_map.
  destruct raws; try (eexists; reflexivity). destruct (H items eq_refl).
Qed.

(** One record that cannot be normalized aborts the run: whatever the
    records before it, the file system is not touched, no file is
    written, and the run ends on the diagnostic with the message of
    that record's error and exit code 1. *)
Theorem bad_record_aborts_run (pre post : list value) (bad : value) (e : exn) :
  stage_fetch = Ok (VArr (pre ++ bad :: post)) ->
  (exists stories, mapM transformUserStory pre = Ok stories) ->
  transformUserStory bad = Throw e ->
  files run = []
  /\ existsb is_file_system (trace run) = false
  /\ exit_code (trace run) = 1%Z
  /\ exists found,
       trace run
       = (opening ++ [fetching; request; Stdout [VStr found]; transforming]
          ++ failure_report (message e))%list.
Proof.
  intros Hfetch (stories & Hpre) Hbad.
  assert (Hn : stage_normalize (VArr (pre ++ bad :: post)) = Throw e).
  { unfold stage_normalize, call_map. apply mapM_Throw.
    exists pre, bad, post, stories. repeat split; assumption. }
  pose proof run_cases as R. rewrite Hfetch, Hn in R.
  destruct R as (found & ->). repeat split. exists found. reflexivity.
Qed.

(** *** The summary by status, for every batch (lines 195-198) *)











Lemma append_one_not_empty (s : string) : s ++ "1" <> "".
Proof. destruct s; simpl; discriminate. Qed.

Lemma tally_inherited (keys : list string) (k : string)
  (acc : list (string * slot)) :
  inherited_text k <> None ->
  own_slot k acc = None
  \/ (exists s, own_slot k acc = Some (Text s) /\ s <> "") ->
  own_slot k (tally keys acc) = None
  \/ (exists s, own_slot k (tally keys acc) = Some (Text s) /\ s <> "").
Proof.
  intros Hk. revert acc.
  induction keys as [ | j keys IH]; intros acc H; [exact H | ].
  change (tally (j :: keys) acc)
    with (tally keys (assign j (incremented j acc) acc)).
  apply IH. destruct (string_dec k j) as [<- | Hne].
  - unfold assign, incremented. destruct H as [E | (s & E & Hs)]; rewrite E.
    + destruct (String.eqb_spec k "__proto__"); [left; exact E | ].
      destruct (inherited_text k) as [t | ]; [ | contradiction].
      right. exists (t ++ "1"). split; [ | apply append_one_not_empty].
      rewrite own_slot_app, E. simpl. rewrite String.eqb_refl. reflexivity.
    + destruct (String.eqb_spec s ""); [contradiction | ].
      right. exists (s ++ "1"). split; [ | apply append_one_not_empty].
      apply own_slot_replace_same. congruence.
  - rewrite (own_slot_assign_other _ _ _ _ Hne). exact H.
Qed.

Lemma tally_proto (keys : list string) (acc : list (string * slot)) :
  own_slot "__proto__" acc = None ->
  own_slot "__proto__" (tally keys acc) = None.
Proof.
  revert acc. induction keys as [ | j keys IH]; intros acc P; [exact P | ].
  change (tally (j :: keys) acc)
    with (tally keys (assign j (incremented j acc) acc)).
  apply IH. destruct (string_dec "__proto__" j) as [E | Hne].
  - subst j. unfold assign. rewrite P. simpl. exact P.
  - rewrite (own_slot_assign_other _ _ _ _ Hne). exact P.
Qed.

(** A status named like a member of [Object.prototype] ("constructor",
    "toString", "__proto__", ...) is never counted, in any batch: its
    entry is missing or a text, and for "__proto__" it is always
    missing. *)
Theorem statusCounts_inherited_never_counted (stories : list value)
  (keys : list string) (k : string) :
  Forall2 (fun story k => path ["status"; "name"] story = Ok (VStr k))
    stories keys ->
  inherited_text k <> None ->
  exists counts,
    statusCounts stories = Ok counts
    /\ (forall n, own_slot k counts <> Some (Count n))
    /\ own_slot "__proto__" counts = None.
Proof.
  intros H Hk. exists (tally keys []). split; [apply statusCounts_tally, H | ].
  split.
  - intros n E.
    destruct (tally_inherited keys k [] Hk (or_introl eq_refl))
      as [E' | (s & E' & _)]; rewrite E' in E; discriminate.
  - apply tally_proto. reflexivity.
Qed.

(** *** The fetch, for every project key and bound (lines 47-83) *)

Lemma fetchUserStories_cases (projectKey : string) (maxResults : value)
  (s : State) :
  let announced :=
    [Stdout [VStr ("🔍 Fetching user stories from project: "
                   ++ projectKey ++ "...")];
     search projectKey
       (default_parameter (VNum (number_of_N 100)) maxResults)] in
  fetchUserStories projectKey maxResults s
  = match jiraApi_response W with
    | Throw e => (Throw e, logged s (announced ++ [fetch_failure e]))
    | Ok resp =>
        match path ["data"; "total"] resp with
        | Throw e => (Throw e, logged s (announced ++ [fetch_failure e]))
        | Ok total =>
            match ToString total with
            | Throw e => (Throw e, logged s (announced ++ [fetch_failure e]))
            | Ok text =>
                (Ok (opt_get "issues" (opt_get "data" resp)),
                 logged s
                   (announced
                    ++ [Stdout [VStr ("✅ Found " ++ text ++ " user stories")]]))
            end
        end
    end.
Proof.
  cbv zeta.
  unfold fetchUserStories, try_catch, jiraApi_get, bindIO, console_log,
    console_error, emit, lift, throw, logged, fetch_failure, search.
  cbn [trace files clock_reads fst snd].
  destruct (jiraApi_response W) as [resp | e]; cbn [trace files clock_reads];
    [destruct (path ["data"; "total"] resp) as [total | e] eqn:Htotal;
     cbn [trace files clock_reads];
     [rewrite (sibling_read _ _ "issues" _ _ Htotal);
      destruct (ToString total) as [text | e]; cbn [trace files clock_reads]
     | ] | ];
    rewrite <- !app_assoc; reflexivity.
Qed.


(** A fetch returns exactly when the request is answered, the body of
    the answer can be read from and its total converts to a text; it
    then returns the [issues] of the body as they are. *)
Theorem fetch_returns_iff (projectKey : string) (maxResults raws : value)
  (s : State) :
  fst (fetchUserStories projectKey maxResults s) = Ok raws <->
  exists resp text,
    jiraApi_response W = Ok resp
    /\ nullish (opt_get "data" resp) = false
    /\ ToString (opt_get "total" (opt_get "data" resp)) = Ok text
    /\ raws = opt_get "issues" (opt_get "data" resp).
Proof.
  rewrite fetchUserStories_cases. cbv zeta. split.
  - destruct (jiraApi_response W) as [resp | e]; [ | discriminate].
    destruct (path ["data"; "total"] resp) as [total | e] eqn:Ht;
      [ | discriminate].
    destruct (ToString total) as [text | e] eqn:Hs; [ | discriminate].
    cbn [fst]. intros [= <-].
    rewrite path_cons in Ht. apply bind_Ok in Ht.
    destruct Ht as (d & Hd & Ht). apply get_Ok in Hd. destruct Hd as [_ ->].
    rewrite path_cons in Ht. apply bind_Ok in Ht. destruct Ht as (t & Ht & E).
    injection E as <-. apply get_Ok in Ht. destruct Ht as [Hn ->].
    exists resp, text. repeat split; assumption.
  - intros (resp & text & -> & Hn & Ht & ->).
    assert (Hr : nullish resp = false).
    { destruct resp; simpl in Hn; try discriminate; reflexivity. }
    rewrite path_cons, (get_opt_get _ _ Hr). cbn [bind].
    rewrite path_cons, (get_opt_get _ _ Hn). cbn [bind]. rewrite path_nil, Ht.
    reflexivity.
Qed.

(** A rejected request is rethrown as it is, after one line on the
    error stream: the body of the rejection when it has one, else the
    message of the error.  The request that was rejected carried the
    bound of the caller, or 100 when the caller gave none. *)
Theorem fetch_rethrows (projectKey : string) (maxResults : value) (s : State)
  (e : exn) :
  jiraApi_response W = Throw e ->
  fst (fetchUserStories projectKey maxResults s) = Throw e
  /\ exists first,
       trace (snd (fetchUserStories projectKey maxResults s))
       = (trace s
          ++ [first;
              search projectKey
                (match maxResults with
                 | VUndefined => VNum (number_of_N 100)
                 | _ => maxResults
                 end);
              Stderr [VStr "❌ Error fetching user stories:";
                      if truthy (opt_get "data" (response e))
                      then opt_get "data" (response e)
                      else VStr (message e)]])%list.
Proof.
  intros H. rewrite fetchUserStories_cases. cbv zeta. rewrite H.
  split; [reflexivity | ]. eexists. reflexivity.
Qed.

(** *** The write, for every batch, file name and state (lines 135-165) *)

Lemma saveToJSON_cases (stories : list value) (filename : string) (s : State) :
  let dir := dataDir W in
  saveToJSON stories filename s
  = if dataDir_exists W
    then written stories filename (logged s [ExistsSync dir])
    else match mkdirSync_outcome W with
         | Ok _ =>
             written stories filename
               (logged s [ExistsSync dir; MkdirSync dir;
                          Stdout [VStr "📁 Created data directory"]])
         | Throw e =>
             (Throw e, logged s [ExistsSync dir; MkdirSync dir; save_failure e])
         end.
Proof.
  cbv zeta.
  unfold saveToJSON, written, try_catch, fs_existsSync, fs_mkdirSync,
    fs_writeFileSync, new_Date_toISOString, bindIO, console_log, console_error,
    emit, lift, throw, ret, logged, document, save_failure.
  cbn [trace files clock_reads negb].
  destruct (dataDir_exists W); cbn [trace files clock_reads negb];
    [ | destruct (mkdirSync_outcome W) as [[] | e];
        cbn [trace files clock_reads] ];
    try (destruct (writeFileSync_outcome W) as [[] | e];
         cbn [trace files clock_reads];
         [ | destruct (writeFileSync_opened W); cbn [trace files clock_reads] ]);
    rewrite <- ?app_assoc; reflexivity.
Qed.

Lemma read_store_same (file : string) (doc : content)
  (fs : list (string * content)) :
  read_file file (store file doc fs) = Some doc.
Proof.
  induction fs as [ | [k d] r IH]; simpl.
  - rewrite String.eqb_refl. reflexivity.
  - destruct (String.eqb k file) eqn:E; simpl; rewrite E; [reflexivity | exact IH].
Qed.

Lemma read_store_other (file other : string) (doc : content)
  (fs : list (string * content)) :
  other <> file -> read_file other (store file doc fs) = read_file other fs.
Proof.
  intros Hne. induction fs as [ | [k d] r IH]; simpl.
  - destruct (String.eqb_spec file other); [congruence | reflexivity].
  - destruct (String.eqb_spec k file) as [-> | Hk]; simpl.
    + destruct (String.eqb_spec file other); [congruence | reflexivity].
    + destruct (String.eqb k other); [reflexivity | exact IH].
Qed.

(** The write returns exactly when the directory is there or can be
    made and the file can be written; it returns the path of the file,
    which is what [path.join] of the platform makes of the directory and
    the name. *)
Theorem save_returns_iff (stories : list value) (filename file : string)
  (s : State) :
  fst (saveToJSON stories filename s) = Ok file <->
  file = path_join W (dataDir W) filename
  /\ (dataDir_exists W = true \/ mkdirSync_outcome W = Ok tt)
  /\ writeFileSync_outcome W = Ok tt.
Proof.
  rewrite saveToJSON_cases. cbv zeta. unfold written.
  destruct (dataDir_exists W);
    [ | destruct (mkdirSync_outcome W) as [[] | e] ];
    try (destruct (writeFileSync_outcome W) as [[] | e']); cbn [fst];
    split;
    try (intros [= <-]; repeat split; auto);
    try (intros (-> & _ & _); reflexivity);
    try discriminate;
    try (intros (_ & _ & H); discriminate);
    intros (_ & [H | H] & _); discriminate.
Qed.

(** After a write that returns, reading the file gives the whole
    document: plain JSON data made of the metadata (project key, number
    of records, the reading of the clock taken by this call, base
    address) and the records as [JSON.stringify] writes them.  Every
    other file reads as before, whether the file existed or not. *)
Theorem save_then_read (stories : list value) (filename file : string)
  (s s' : State) :
  saveToJSON stories filename s = (Ok file, s') ->
  let doc := JSON_stringify (document stories (clock W (clock_reads s))) in
  read_file file (files s') = Some (Whole doc)
  /\ is_json doc = true
  /\ get "userStories" doc = Ok (VArr (map JSON_stringify stories))
  /\ path ["metadata"; "totalStories"] doc = Ok (VNum (length_of stories))
  /\ (forall other, other <> file ->
                    read_file other (files s') = read_file other (files s))
  /\ clock_reads s' = S (clock_reads s).
Proof.
  rewrite saveToJSON_cases. cbv zeta. unfold written.
  assert (Hdoc :
            forall t,
              get "userStories" (JSON_stringify (document stories t))
              = Ok (VArr (map JSON_stringify stories))
              /\ path ["metadata"; "totalStories"]
                   (JSON_stringify (document stories t))
                 = Ok (VNum (length_of stories))).
  { intros t. unfold document, length_of.
    change (JSON_stringify (VObj ?props))
      with (VObj [("metadata",
                   VObj [("projectKey", VStr (projectKey JIRA_CONFIG));
                         ("totalStories",
                          JSON_stringify
                            (VNum (number_of_N (N.of_nat (length stories)))));
                         ("fetchedAt", VStr t);
                         ("jiraBaseUrl", VStr (baseURL JIRA_CONFIG))]);
                  ("userStories", VArr (map JSON_stringify stories))]).
    rewrite JSON_stringify_count. split; reflexivity. }
  destruct (dataDir_exists W);
    [ | destruct (mkdirSync_outcome W) as [[] | e]; [ | discriminate] ];
    (destruct (writeFileSync_outcome W) as [[] | e']; [ | discriminate]);
    cbn [logged trace files clock_reads]; intros [= <- <-];
    cbn [files clock_reads];
    (split; [apply read_store_same | ]);
    (split; [apply JSON_stringify_is_json | ]);
    (split; [apply Hdoc | ]); (split; [apply Hdoc | ]);
    (split; [intros other Hne; apply read_store_other, Hne | reflexivity]).
Qed.

(** A write that throws rethrows the error of the file system (of
    making the directory, or of writing the file) after one line on the
    error stream with the message of that error.  When the directory
    cannot be made the write is not attempted and no file changes.  When
    the write itself throws, the files are as they were if the file
    could not be opened; if it could, the file is left torn, and the
    document it held before is lost.  In every case the other files
    read as before, and the file does not hold a whole document that it
    did not hold before. *)
Theorem save_failure_leaves (stories : list value) (filename : string)
  (s s' : State) (e : exn) :
  saveToJSON stories filename s = (Throw e, s') ->
  let file := path_join W (dataDir W) filename in
  (exists evs,
      trace s' = (trace s ++ evs ++ [save_failure e])%list
      /\ existsb is_exit evs = false
      /\ (mkdirSync_outcome W = Throw e -> dataDir_exists W = false ->
          existsb is_write evs = false))
  /\ ((dataDir_exists W = false /\ mkdirSync_outcome W = Throw e
       /\ files s' = files s)
      \/ (writeFileSync_outcome W = Throw e
          /\ (writeFileSync_opened W = false -> files s' = files s)
          /\ (writeFileSync_opened W = true ->
              files s' = store file Torn (files s))))
  /\ (forall other, other <> file ->
                    read_file other (files s') = read_file other (files s))
  /\ (read_file file (files s') = read_file file (files s)
      \/ read_file file (files s') = Some Torn).
Proof.
  rewrite saveToJSON_cases. cbv zeta. unfold written.
  destruct (dataDir_exists W);
    [ | destruct (mkdirSync_outcome W) as [[] | e0] ];
    try (destruct (writeFileSync_outcome W) as [[] | e']; [discriminate | ]);
    cbn [logged trace files clock_reads]; intros [= <- <-];
    cbn [files trace].
  - split.
    { exists [ExistsSync (dataDir W);
              WriteFileSync (path_join W (dataDir W) filename)
                (JSON_stringify (document stories (clock W (clock_reads s))))].
      rewrite <- app_assoc. split; [reflexivity | ].
      split; [reflexivity | discriminate]. }
    destruct (writeFileSync_opened W).
    + split; [right; split; [reflexivity | split; [discriminate | reflexivity]] | ].
      split; [intros other Hne; apply read_store_other, Hne | ].
      right. apply read_store_same.
    + split; [right; split; [reflexivity | split; [reflexivity | discriminate]] | ].
      split; [reflexivity | left; reflexivity].
  - split.
    { exists [ExistsSync (dataDir W); MkdirSync (dataDir W);
              Stdout [VStr "📁 Created data directory"];
              WriteFileSync (path_join W (dataDir W) filename)
                (JSON_stringify (document stories (clock W (clock_reads s))))].
      rewrite <- app_assoc. split; [reflexivity | ].
      split; [reflexivity | discriminate]. }
    destruct (writeFileSync_opened W).
    + split; [right; split; [reflexivity | split; [discriminate | reflexivity]] | ].
      split; [intros other Hne; apply read_store_other, Hne | ].
      right. apply read_store_same.
    + split; [right; split; [reflexivity | split; [reflexivity | discriminate]] | ].
      split; [reflexivity | left; reflexivity].
  - split.
    { exists [ExistsSync (dataDir W); MkdirSync (dataDir W)].
      split; [reflexivity | ]. split; reflexivity. }
    split; [left; repeat split | ].
    split; [reflexivity | left; reflexivity].
Qed.

(** The directory is made only when it is missing: the write asks
    exactly once whether it exists, before anything else, and calls
    [mkdirSync] on it exactly when it does not, right after asking; it
    calls [writeFileSync] at most once. *)
Theorem save_makes_directory_when_missing (stories : list value)
  (filename : string) (s : State) :
  exists evs,
    trace (snd (saveToJSON stories filename s))
    = (trace s ++ ExistsSync (dataDir W) :: evs)%list
    /\ count is_existsSync evs = 0
    /\ existsb is_mkdir evs = negb (dataDir_exists W)
    /\ count is_mkdir evs <= 1
    /\ (dataDir_exists W = false ->
        exists rest, evs = MkdirSync (dataDir W) :: rest)
    /\ count is_write evs <= 1.
Proof.
  rewrite saveToJSON_cases. cbv zeta. unfold written.
  destruct (dataDir_exists W);
    [ | destruct (mkdirSync_outcome W) as [[] | e0] ];
    try (destruct (writeFileSync_outcome W) as [[] | e']);
    cbn [snd logged trace]; rewrite <- ?app_assoc; cbn [app];
    eexists; (split; [reflexivity | ]); unfold count; cbn;
    (split; [reflexivity | ]); (split; [reflexivity | ]);
    (split; [lia | ]);
    (split; [try discriminate; intros _; eexists; reflexivity | lia]).
Qed.

Lemma store_length (file : string) (doc : content)
  (fs : list (string * content)) :
  read_file file fs <> None -> length (store file doc fs) = length fs.
Proof.
  induction fs as [ | [k d] r IH]; simpl; intros H; [contradiction | ].
  destruct (String.eqb k file); simpl; [reflexivity | ].
  rewrite (IH H). reflexivity.
Qed.

(** A second write under the same name replaces the document, stamped
    with the next reading of the clock, and adds no file. *)
Theorem save_twice_overwrites (first second : list value) (filename : string)
  (file file' : string) (s s1 s2 : State) :
  saveToJSON first filename s = (Ok file, s1) ->
  saveToJSON second filename s1 = (Ok file', s2) ->
  file' = file
  /\ read_file file (files s2)
     = Some
         (Whole (JSON_stringify (document second (clock W (S (clock_reads s))))))
  /\ length (files s2) = length (files s1).
Proof.
  intros H1 H2.
  assert (F1 : file = path_join W (dataDir W) filename).
  { apply (proj1 (save_returns_iff first filename file s)). rewrite H1.
    reflexivity. }
  assert (F2 : file' = path_join W (dataDir W) filename).
  { apply (proj1 (save_returns_iff second filename file' s1)). rewrite H2.
    reflexivity. }
  destruct (save_then_read _ _ _ _ _ H1) as (R1 & _ & _ & _ & _ & C1).
  destruct (save_then_read _ _ _ _ _ H2) as (R2 & _ & _ & _ & _ & _).
  split; [congruence | ]. subst file'. rewrite <- F1 in *.
  split; [rewrite R2, C1; reflexivity | ].
  revert H2. rewrite saveToJSON_cases. cbv zeta. unfold written.
  rewrite <- F1.
  destruct (dataDir_exists W);
    [ | destruct (mkdirSync_outcome W) as [[] | e]; [ | discriminate] ];
    (destruct (writeFileSync_outcome W) as [[] | e']; [ | discriminate]);
    cbn [logged trace files clock_reads]; intros [= <-];
    cbn [files]; apply store_length; rewrite R1; discriminate.
Qed.

(** *** The run as a whole (lines 170-211) *)

Lemma count_app (p : event -> bool) (a b : list event) :
  count p (a ++ b) = count p a + count p b.
Proof. unfold count. rewrite filter_app, length_app. reflexivity. Qed.

Lemma count_logs {A} (p : event -> bool) (f : A -> list value) (l : list A) :
  (forall args, p (Stdout args) = false) ->
  count p (map (fun x => Stdout (f x)) l) = 0.
Proof.
  intros H. unfold count. induction l as [ | x r IH]; simpl; [reflexivity | ].
  rewrite H. exact IH.
Qed.

(** The error stream is written exactly in the runs that exit with code
    1; the runs that exit with code 0 write the standard stream only. *)
Theorem diagnostic_iff_failure :
  existsb is_diagnostic (trace run) = true <-> exit_code (trace run) = 1%Z.
Proof.
  pose proof run_cases as R.
  destruct stage_fetch as [raws | e0].
  - destruct (stage_normalize raws) as [stories | e0].
    + destruct (stage_write stories) as [file | e0].
      * cbv zeta in R. destruct (statusCounts stories) as [counts | e0].
        -- destruct R as (t & -> & Hexit & Hdiag). cbn [trace].
           rewrite Hdiag, (exit_code_quiet _ Hexit). split; discriminate.
        -- destruct R as (t & -> & Hexit). cbn [trace].
           rewrite (exit_code_failure _ _ Hexit), existsb_app. cbn.
           rewrite Bool.orb_true_r. split; reflexivity.
      * destruct R as (t & fs & n & -> & Hexit & _). cbn [trace].
        rewrite (exit_code_failure _ _ Hexit), existsb_app. cbn.
        rewrite Bool.orb_true_r. split; reflexivity.
    + destruct R as (found & ->). cbn. split; reflexivity.
  - rewrite R. cbn. split; reflexivity.
Qed.

(** A run leaves the whole document in the output file exactly when
    its three stages returned, and it then leaves no other file.  When a
    stage throws, no file is left, except by a write that threw after it
    had opened the output file: that file is then left torn, created but
    without the document.  No file is left when the fetch or the
    normalization throws. *)
Theorem document_iff_stages_return :
  ((exists doc, files run = [(output_file, Whole doc)]) <->
   exists stories file, pipeline = Ok (stories, file))
  /\ (forall e,
         pipeline = Throw e ->
         files run = [] \/ files run = [(output_file, Torn)])
  /\ (files run = [(output_file, Torn)] ->
      writeFileSync_opened W = true
      /\ exists e, writeFileSync_outcome W = Throw e /\ pipeline = Throw e)
  /\ (forall e,
         pipeline = Throw e -> writeFileSync_opened W = false -> files run = [])
  /\ (forall e, stage_fetch = Throw e -> files run = [])
  /\ (forall raws e,
         stage_fetch = Ok raws -> stage_normalize raws = Throw e ->
         files run = []).
Proof.
  pose proof run_cases as R. unfold pipeline.
  destruct stage_fetch as [raws | e0]; cbn [bind].
  - destruct (stage_normalize raws) as [stories | e0] eqn:Hn; cbn [bind].
    + destruct (stage_write stories) as [file | e0]; cbn [bind].
      * cbv zeta in R.
        assert (F : files run
                    = [(output_file,
                        Whole (JSON_stringify (document stories (clock W 1))))]).
        { destruct (statusCounts stories); destruct R as (t & -> & _);
            reflexivity. }
        rewrite F.
        split; [split; intros _; eexists; [eexists | ]; reflexivity | ].
        split; [intros e; discriminate | ].
        split; [discriminate | ].
        split; [intros e; discriminate | ].
        split; [intros e; discriminate | ].
        intros raws' e [= <-]. rewrite Hn. discriminate.
      * destruct R as (t & fs & n & -> & _ & Hfs & Hkept). cbn [files].
        split.
        { split; [ | intros (st & f & H); discriminate].
          intros (doc & H). destruct Hfs as [-> | (-> & _)]; discriminate. }
        split; [intros e _; destruct Hfs as [-> | (-> & _)]; auto | ].
        split.
        { intros H. destruct Hfs as [-> | (_ & Ho & Hw)]; [discriminate | ].
          split; [exact Ho | ]. exists e0. split; [exact Hw | reflexivity]. }
        split; [intros e _ Ho; apply Hkept, Ho | ].
        split; [intros e; discriminate | ].
        intros raws' e [= <-]. rewrite Hn. discriminate.
    + destruct R as (found & ->). cbn [files].
      split; [split; [intros (doc & H) | intros (st & f & H)]; discriminate | ].
      split; [intros e _; left; reflexivity | ].
      split; [discriminate | ].
      split; [reflexivity | ].
      split; reflexivity.
  - rewrite R. cbn [files].
    split; [split; [intros (doc & H) | intros (st & f & H)]; discriminate | ].
    split; [intros e _; left; reflexivity | ].
    split; [discriminate | ].
    split; [reflexivity | ].
    split; reflexivity.
Qed.

Lemma filter_logs {A} (p : event -> bool) (f : A -> list value) (l : list A) :
  (forall args, p (Stdout args) = false) ->
  filter p (map (fun x => Stdout (f x)) l) = [].
Proof.
  intros H. induction l as [ | x r IH]; simpl; [reflexivity | ].
  rewrite H. exact IH.
Qed.

Ltac flatten_trace :=
  cbn [trace snd fst logged files clock_reads];
  cbn [failure_report];
  rewrite <- ?app_assoc; cbn [app].

Ltac count_events :=
  unfold count, search, transforming, save_failure, fetch_failure;
  cbn [filter is_request is_write];
  rewrite ?filter_app, ?(filter_logs is_request _ _ (fun _ => eq_refl)),
    ?(filter_logs is_write _ _ (fun _ => eq_refl));
  cbn [filter is_request is_write app length].

(** Every run sends exactly one request and calls [writeFileSync] at
    most once; when it does, the request and the line that announces
    the normalization have come before. *)
Theorem run_sends_one_request :
  count is_request (trace run) = 1
  /\ count is_write (trace run) <= 1
  /\ (count is_write (trace run) = 1 ->
      existsb is_request (until is_write (trace run)) = true
      /\ In transforming (until is_write (trace run))).
Proof.
  enough (H : exists t,
             trace run = t
             /\ count is_request t = 1
             /\ count is_write t <= 1
             /\ (count is_write t = 1 ->
                 existsb is_request (until is_write t) = true
                 /\ In transforming (until is_write t))).
  { destruct H as (t & -> & H). exact H. }
  unfold run, main, try_catch, initial. run_step.
  unfold bindIO at 1. rewrite fetchUserStories_cases. cbv zeta.
  destruct (jiraApi_response W) as [resp | e];
    [destruct (path ["data"; "total"] resp) as [total | e];
     [destruct (ToString total) as [text | e] | ] | ];
    run_step.
  - unfold bindIO at 1. run_step.
    destruct (call_map "rawUserStories" transformUserStory
                (opt_get "issues" (opt_get "data" resp))) as [stories | e];
      run_step.
    + unfold bindIO at 1. rewrite saveToJSON_cases. cbv zeta. unfold written.
      destruct (dataDir_exists W);
        [ | destruct (mkdirSync_outcome W) as [[] | e] ];
        try (destruct (writeFileSync_outcome W) as [[] | e']);
        run_step;
        try (destruct (statusCounts stories) as [counts | e'']; run_step;
             rewrite ?forEach_log; run_step);
        flatten_trace; eexists; (split; [reflexivity | ]);
        (split; [count_events; reflexivity | ]);
        (split; [count_events; lia | ]);
        try (intros _; unfold search, transforming;
             cbn [until is_write existsb is_request orb In];
             split; [reflexivity | tauto]);
        count_events; discriminate.
    + flatten_trace. eexists. split; [reflexivity | ].
      split; [count_events; reflexivity | ].
      split; [count_events; lia | count_events; discriminate].
  - flatten_trace. eexists. split; [reflexivity | ].
    split; [count_events; reflexivity | ].
    split; [count_events; lia | count_events; discriminate].
  - flatten_trace. eexists. split; [reflexivity | ].
    split; [count_events; reflexivity | ].
    split; [count_events; lia | count_events; discriminate].
  - flatten_trace. eexists. split; [reflexivity | ].
    split; [count_events; reflexivity | ].
    split; [count_events; lia | count_events; discriminate].
Qed.

(** A fetch that finds no story is a success: the document is written
    with a count of 0 and no record, nothing goes to the error stream
    and the exit code is 0. *)
Theorem empty_batch_run :
  stage_fetch = Ok (VArr []) ->
  dataDir_exists W = true \/ mkdirSync_outcome W = Ok tt ->
  writeFileSync_outcome W = Ok tt ->
  let doc := JSON_stringify (document [] (clock W 1)) in
  files run = [(output_file, Whole doc)]
  /\ path ["metadata"; "totalStories"] doc = Ok (VNum (Zero false))
  /\ get "userStories" doc = Ok (VArr [])
  /\ exit_code (trace run) = 0%Z
  /\ existsb is_diagnostic (trace run) = false.
Proof.
  intros Hfetch Hdir Hwrite. cbv zeta.
  assert (Hw : stage_write [] = Ok output_file).
  { unfold stage_write. apply save_returns_iff. repeat split; assumption. }
  pose proof run_cases as R. rewrite Hfetch in R.
  change (stage_normalize (VArr [])) with (@Ok (list value) []) in R.
  cbv iota in R. rewrite Hw in R. cbv zeta in R.
  change (statusCounts []) with (@Ok (list (string * slot)) []) in R.
  destruct R as (t & -> & Hexit & Hdiag). cbn [files trace].
  split; [reflexivity | ]. split; [reflexivity | ]. split; [reflexivity | ].
  split; [apply exit_code_quiet, Hexit | exact Hdiag].
Qed.

(** *** From the request to the file *)

Lemma path_from_fields (ps : list string) (issue : value) :
  nullish issue = false ->
  path ("fields" :: ps) issue = path ps (opt_get "fields" issue).
Proof.
  intros H. rewrite path_cons, (get_opt_get _ _ H). reflexivity.
Qed.

Lemma path_step (p : string) (ps : list string) (v : value) :
  nullish v = false -> path (p :: ps) v = path ps (opt_get p v).
Proof.
  intros H. rewrite path_cons, (get_opt_get _ _ H). reflexivity.
Qed.

(** The fields the request asks for are all the normalizer needs: two
    records with the same key that agree on every requested field are
    normalized to the same result, whatever else they carry. *)
Theorem requested_fields_suffice (issue issue' : value) :
  nullish issue = false -> nullish issue' = false ->
  nullish (opt_get "fields" issue) = false ->
  nullish (opt_get "fields" issue') = false ->
  opt_get "key" issue = opt_get "key" issue' ->
  (forall field, In field requested_fields ->
                 opt_get field (opt_get "fields" issue)
                 = opt_get field (opt_get "fields" issue')) ->
  transformUserStory issue = transformUserStory issue'.
Proof.
  intros Hi Hi' Hf Hf' Hkey Hfields.
  assert (E : forall field ps,
             In field requested_fields ->
             path ("fields" :: field :: ps) issue
             = path ("fields" :: field :: ps) issue').
  { intros field ps Hin.
    rewrite (path_from_fields _ _ Hi), (path_from_fields _ _ Hi').
    rewrite (path_step _ _ _ Hf), (path_step _ _ _ Hf'), (Hfields _ Hin).
    reflexivity. }
  unfold transformUserStory, description_of, status_of, priority_of, person_of,
    names_of, labels_of, storyPoints_of, issueLinks_of, url_of.
  rewrite !(get_opt_get _ _ Hi), !(get_opt_get _ _ Hi'), Hkey.
  rewrite !E by (unfold requested_fields; simpl; tauto).
  reflexivity.
Qed.

Lemma written_members (props : list (string * value)) (p : string) :
  NoDup (map fst props) ->
  own_of (JSON_stringify (VObj props)) p
  = match own p props with
    | Some VUndefined | None => None
    | Some v => Some (JSON_stringify v)
    end.
Proof.
  intros H. cbn [JSON_stringify own_of].
  induction props as [ | [k x] r IH]; [reflexivity | ].
  inversion H as [ | ? ? Hk Hr]; subst. specialize (IH Hr). cbn [own].
  assert (Habsent : String.eqb k p = true ->
                    own p
                      ((fix members (l : list (string * value)) :=
                          match l with
                          | [] => []
                          | (k0, VUndefined) :: r0 => members r0
                          | (k0, x0) :: r0 => (k0, JSON_stringify x0) :: members r0
                          end) r) = None).
  { intros Ek. apply String.eqb_eq in Ek. subst p. rewrite IH.
    assert (N : own k r = None).
    { clear -Hk. induction r as [ | [j y] r IH]; [reflexivity | ]. simpl.
      destruct (String.eqb_spec j k) as [-> | ].
      - exfalso. apply Hk. left. reflexivity.
      - apply IH. intros Hin. apply Hk. right. exact Hin. }
    rewrite N. reflexivity. }
  destruct x; cbn [own];
    destruct (String.eqb k p) eqn:Ek; try reflexivity; try exact IH.
  apply Habsent. reflexivity.
Qed.

(** In the written document a record has no property of a given name
    exactly when the normalizer left that property [undefined]; every
    other property is written, [null] included. *)
Theorem undefined_is_left_out (issue out : value) (p : string) :
  transformUserStory issue = Ok out ->
  In p record_keys ->
  (own_of (JSON_stringify out) p = None <-> get p out = Ok VUndefined)
  /\ (forall v, get p out = Ok v -> v <> VUndefined ->
                own_of (JSON_stringify out) p = Some (JSON_stringify v)).
Proof.
  intros Hout Hin. apply transformUserStory_Ok in Hout.
  destruct Hout as (k & su & de & st & pr & a & r & c & u & co & l & f & sp
                    & il & url & _ & _ & _ & _ & _ & _ & _ & _ & _ & _ & _
                    & _ & _ & _ & _ & ->).
  unfold normalized. rewrite written_members.
  2: { cbn [map fst]. repeat constructor; cbn [In]; intuition discriminate. }
  cbn [get]. unfold own_or_undefined.
  assert (Hown : exists v, own p [("key", k); ("summary", su);
                                  ("description", de); ("status", st);
                                  ("priority", pr); ("assignee", a);
                                  ("reporter", r); ("created", c);
                                  ("updated", u); ("components", co);
                                  ("labels", l); ("fixVersions", f);
                                  ("storyPoints", sp); ("issueLinks", il);
                                  ("url", url)] = Some v).
  { unfold record_keys in Hin. cbn [In] in Hin.
    repeat (destruct Hin as [<- | Hin]; [eexists; reflexivity | ]).
    destruct Hin. }
  destruct Hown as (v & ->). split.
  - destruct v; split; intros H; try discriminate; reflexivity.
  - intros w [= <-] Hw. destruct v; try reflexivity. contradiction.
Qed.

End Script.

(** ** Determinism of the normalizer (lines 90-128) *)

(** Of the configuration, the normalizer reads the base address only. *)
Lemma transformUserStory_reads_baseURL (c1 c2 : Config)
  (NumberToString : number -> string) (issue : value) :
  baseURL c1 = baseURL c2 ->
  transformUserStory c1 NumberToString issue
  = transformUserStory c2 NumberToString issue.
Proof. intros H. unfold transformUserStory, url_of. rewrite H. reflexivity. Qed.

(** C9.  Take a machine in which the argument stands for a record, and
    call the normalizer twice on that argument, the second time on the
    machine the first call left, under configurations that have the
    same base address and may differ in the rest.  Each call only adds
    cells to the memory: no cell that was there is changed, so the
    argument still stands for the same record, and the state of the run
    (events, files, clock) is as it was.  The two calls agree: either
    both throw the same error, or both return, and then two different
    objects that stand for deep-equal records.  On values, the two calls
    end the same way, and the first call in memory returns an object
    that stands for the record the normalizer returns on the value, or
    throws the same error. *)
Theorem transformUserStory_deterministic (c1 c2 : Config)
  (NumberToString : number -> string) (m : Machine) (w : word)
  (issue : value) :
  baseURL c1 = baseURL c2 ->
  denotes (memory m) w issue ->
  let first := transformUserStory_in_memory c1 NumberToString w m in
  let second :=
    transformUserStory_in_memory c2 NumberToString w (snd first) in
  grows m (snd first)
  /\ grows (snd first) (snd second)
  /\ denotes (memory (snd second)) w issue
  /\ agree (memory (snd second)) (fst first) (fst second)
  /\ same_outcome (transformUserStory c1 NumberToString issue)
       (transformUserStory c2 NumberToString issue) = true
  /\ match transformUserStory c1 NumberToString issue with
     | Ok out =>
         exists o, fst first = Ok o /\ denotes (memory (snd first)) o out
     | Throw e => fst first = Throw e
     end.
Proof.
  intros Hb D. cbv zeta.
  destruct (transformUserStory_in_memory_spec c1 NumberToString w issue m D)
    as (m1 & G1 & H1).
  pose proof (denotes_after _ _ _ _ G1 D) as D1.
  destruct (transformUserStory_in_memory_spec c2 NumberToString w issue m1 D1)
    as (m2 & G2 & H2).
  pose proof (denotes_after _ _ _ _ G2 D1) as D2.
  rewrite <- (transformUserStory_reads_baseURL c1 c2 _ _ Hb) in *.
  destruct (transformUserStory c1 NumberToString issue) as [out | e].
  - destruct H1 as (o1 & E1 & d1 & a1 & -> & L1).
    destruct H2 as (o2 & E2 & d2 & a2 & -> & L2).
    rewrite E1. cbn [fst snd]. rewrite E2. cbn [fst snd].
    split; [exact G1 | ]. split; [exact G2 | ]. split; [exact D2 | ].
    split; [ | split].
    + split.
      * apply denotes_valid in d1. intros [= E]. lia.
      * exists out, out. split; [exact (denotes_after _ _ _ _ G2 d1) | ].
        split; [exact d2 | apply deep_equal_refl].
    + simpl. apply deep_equal_refl.
    + exists (WRef a1). split; [reflexivity | exact d1].
  - rewrite H1. cbn [fst snd]. rewrite H2. cbn [fst snd].
    split; [exact G1 | ]. split; [exact G2 | ]. split; [exact D2 | ].
    split; [reflexivity | ]. split; [ | reflexivity].
    simpl. rewrite String.eqb_refl, deep_equal_refl. reflexivity.
Qed.


(** ** Concrete records and runs *)

(** A configuration that passes the check at the top of the script. *)
Definition sample_config : Config :=
  mkConfig "https://example.atlassian.net" "dev@example.com" "secret" "PROJ".

(** A printer of numbers for the examples.  It writes a number out in
    full: an integer by its digits, a fraction by its digits with the
    point in place, as in [1.5] or [0.25].  That is [Number::toString]
    on the integers below 2^53 and on the fractions of at most 15
    digits that are not below 10^-6, which covers every number the
    examples print; beyond, the runtime shortens the text or switches
    to the exponent form. *)
Definition decimal (n : N) : string := NilEmpty.string_of_uint (N.to_uint n).

Fixpoint zeros (n : nat) : string :=
  match n with
  | 0 => ""
  | S k => "0" ++ zeros k
  end.

Definition sample_NumberToString (n : number) : string :=
  match n with
  | NaN => "NaN"
  | Infinite false => "Infinity"
  | Infinite true => "-Infinity"
  | Zero _ => "0"
  | Dyadic negative m e =>
      (if negative then "-" else "")
      ++ (if (0 <=? e)%Z then decimal (Npos m * 2 ^ Z.to_N e)
          else
            (* m / 2^k = m * 5^k / 10^k *)
            let k := Z.to_nat (- e) in
            let digits := decimal (Npos m * 5 ^ N.of_nat k) in
            let len := String.length digits in
            if Nat.leb len k
            then "0." ++ zeros (k - len) ++ digits
            else substring 0 (len - k) digits ++ "."
                 ++ substring (len - k) k digits)
  end.

(** [path.join] of a POSIX platform, for the examples: the parts that
    are not empty are joined with a slash and the result is normalised,
    which drops the empty segments and the segments [.], and lets a
    segment [..] take away the segment before it. *)
Fixpoint segments (path current : string) : list string :=
  match path with
  | EmptyString => [current]
  | String c rest =>
      if Ascii.eqb c "/" then current :: segments rest ""
      else segments rest (current ++ String c "")
  end.

Fixpoint resolve (allowAboveRoot : bool) (todo done : list string)
  : list string :=
  match todo with
  | [] => rev done
  | segment :: rest =>
      if String.eqb segment "" || String.eqb segment "."
      then resolve allowAboveRoot rest done
      else if String.eqb segment ".."
      then match done with
           | top :: below =>
               if String.eqb top ".."
               then resolve allowAboveRoot rest (".." :: done)
               else resolve allowAboveRoot rest below
           | [] =>
               resolve allowAboveRoot rest
                 (if allowAboveRoot then [".."] else [])
           end
      else resolve allowAboveRoot rest (segment :: done)
  end.

Fixpoint ends_with_slash (path : string) : bool :=
  match path with
  | EmptyString => false
  | String c EmptyString => Ascii.eqb c "/"
  | String _ rest => ends_with_slash rest
  end.

Definition posix_normalize (path : string) : string :=
  match path with
  | EmptyString => "."
  | String c _ =>
      let isAbsolute := Ascii.eqb c "/" in
      let trailingSeparator := ends_with_slash path in
      let body :=
        String.concat "/" (resolve (negb isAbsolute) (segments path "") []) in
      if String.eqb body ""
      then (if isAbsolute then "/" else if trailingSeparator then "./" else ".")
      else (if isAbsolute then "/" else "") ++ body
           ++ (if trailingSeparator then "/" else "")
  end.

Definition posix_join (a b : string) : string :=
  match String.eqb a "", String.eqb b "" with
  | true, true => "."
  | true, false => posix_normalize b
  | false, true => posix_normalize a
  | false, false => posix_normalize (a ++ "/" ++ b)
  end.

(** The value a call returned. *)
Definition returned (r : result value) : value :=
  match r with
  | Ok v => v
  | Throw _ => VUndefined
  end.

(** The normalizer under that configuration. *)
Definition normalize (issue : value) : result value :=
  transformUserStory sample_config sample_NumberToString issue.

(** Remote records, as the search returns them: a status, a record with
    the fields [more] besides the ones always sent, rich-text nodes. *)
Definition status (name category : string) : value :=
  VObj [("name", VStr name);
        ("statusCategory", VObj [("id", VNum (number_of_N 2));
                                 ("name", VStr category)])].

Definition issue_with (key : string) (more : list (string * value)) : value :=
  VObj [("id", VStr "10001");
        ("key", VStr key);
        ("fields",
         VObj ([("summary", VStr "As a user I can sign in");
                ("status", status "Open" "To Do");
                ("created", VStr "2024-05-01T09:00:00.000+0000");
                ("updated", VStr "2024-05-02T10:30:00.000+0000")]
               ++ more))].

Definition text_node (text : string) : value :=
  VObj [("type", VStr "text"); ("text", VStr text)].

Definition paragraph (text : string) : value :=
  VObj [("type", VStr "paragraph"); ("content", VArr [text_node text])].

Definition rich_body (blocks : list value) : value :=
  VObj [("type", VStr "doc");
        ("version", VNum (number_of_N 1));
        ("content", VArr blocks)].

(** The three records of the specification: a rich-text body, a plain
    text, no description. *)
Definition rich_issue : value :=
  issue_with "PROJ-1"
    [("description",
      VObj [("content", VArr [VObj [("content", VArr [VObj [("text", VStr "A")]])]])])].

Definition plain_issue : value :=
  issue_with "PROJ-2" [("description", VStr "B")].

Definition bare_issue : value := issue_with "PROJ-3" [].

(** A rich-text body that opens with a bullet list: the first node of
    its first block is a list item, which has no text of its own. *)
Definition bullet_body : value :=
  rich_body
    [VObj [("type", VStr "bulletList");
           ("content",
            VArr [VObj [("type", VStr "listItem");
                        ("content", VArr [paragraph "Sign in with a password"])]])]].

Definition bullet_issue : value :=
  issue_with "PROJ-4" [("description", bullet_body)].

(** A user and a link type, as the search returns them. *)
Definition person (name mail account : string) : value :=
  VObj [("accountId", VStr account);
        ("emailAddress", VStr mail);
        ("displayName", VStr name);
        ("active", VBool true)].

Definition blocks : value :=
  VObj [("id", VStr "10000");
        ("name", VStr "Blocks");
        ("inward", VStr "is blocked by");
        ("outward", VStr "blocks")].

(** A link in which the other issue is the inward issue, and one in
    which it is the outward issue. *)
Definition inward_link : value :=
  VObj [("id", VStr "20001"); ("type", blocks);
        ("inwardIssue", VObj [("id", VStr "10007"); ("key", VStr "PROJ-7")])].

Definition outward_link : value :=
  VObj [("id", VStr "20002"); ("type", blocks);
        ("outwardIssue", VObj [("id", VStr "10008"); ("key", VStr "PROJ-8")])].

(** A record with every field filled in. *)
Definition full_issue : value :=
  issue_with "PROJ-5"
    [("description", rich_body [paragraph "Sign in with a password"]);
     ("priority", VObj [("name", VStr "High"); ("id", VStr "2")]);
     ("assignee", person "Ada" "ada@example.com" "acc-1");
     ("reporter", person "Bob" "bob@example.com" "acc-2");
     ("components", VArr [VObj [("id", VStr "1"); ("name", VStr "UI")];
                          VObj [("id", VStr "2"); ("name", VStr "API")]]);
     ("labels", VArr [VStr "auth"; VStr "mvp"]);
     ("fixVersions", VArr [VObj [("id", VStr "7"); ("name", VStr "1.0")]]);
     ("customfield_10016", VNum (number_of_N 5));
     ("issuelinks", VArr [inward_link; outward_link])].

(** An unassigned record with an estimate of 0 points. *)
Definition zero_points_issue : value :=
  issue_with "PROJ-6"
    [("assignee", VNull); ("customfield_10016", VNum (Zero false))].

(** A record whose assignee hides the mail address. *)
Definition private_issue : value :=
  issue_with "PROJ-9"
    [("assignee", VObj [("accountId", VStr "acc-3"); ("displayName", VStr "Cy")])].

(** A record with a link that carries no type. *)
Definition untyped_link_issue : value :=
  issue_with "PROJ-10"
    [("issuelinks",
      VArr [VObj [("id", VStr "20003");
                  ("outwardIssue", VObj [("key", VStr "PROJ-8")])]])].

(** Two records whose assignee is present but falsy: an empty text, and
    the number 0. *)
Definition blank_assignee_issue : value :=
  issue_with "PROJ-12" [("assignee", VStr "")].

Definition zero_assignee_issue : value :=
  issue_with "PROJ-13" [("assignee", VNum (Zero false))].

(** A record whose status name is not a text but an object with a
    property [toString], which is not a function. *)
Definition odd_status_issue : value :=
  VObj [("key", VStr "PROJ-14");
        ("fields",
         VObj [("summary", VStr "As a user I can sign in");
               ("status",
                VObj [("name", VObj [("toString", VStr "Open")]);
                      ("statusCategory", VObj [("name", VStr "To Do")])])])].

(** A world in which the search returns two records and the data
    directory does not exist yet, one in which the service refuses the
    credentials, and one in which the search returns the record with
    the odd status name. *)
Definition sample_clock (n : nat) : string :=
  match n with
  | 0 => "2024-05-03T08:00:00.120Z"
  | _ => "2024-05-03T08:00:00.125Z"
  end.

Definition ok_world : World :=
  mkWorld
    (Ok (VObj [("status", VNum (number_of_N 200));
               ("data", VObj [("total", VNum (number_of_N 2));
                              ("issues", VArr [full_issue; bare_issue])])]))
    "/app/data" posix_join false (Ok tt) (Ok tt) false sample_clock.

Definition refused_world : World :=
  mkWorld
    (Throw (mkExn "Request failed with status code 401"
              (VObj [("status", VNum (number_of_N 401));
                     ("data", VObj [("errorMessages",
                                     VArr [VStr "Unauthorized"])])])))
    "/app/data" posix_join true (Ok tt) (Ok tt) false sample_clock.

Definition odd_status_world : World :=
  mkWorld
    (Ok (VObj [("data", VObj [("total", VNum (number_of_N 1));
                              ("issues", VArr [odd_status_issue])])]))
    "/app/data" posix_join true (Ok tt) (Ok tt) false sample_clock.

(** The records the normalizer returns for them, and the runs. *)
Definition rich_record : value := Eval vm_compute in returned (normalize rich_issue).
Definition plain_record : value := Eval vm_compute in returned (normalize plain_issue).
Definition bare_record : value := Eval vm_compute in returned (normalize bare_issue).
Definition bullet_record : value := Eval vm_compute in returned (normalize bullet_issue).

Definition full_record : value := Eval vm_compute in returned (normalize full_issue).
Definition zero_points_record : value :=
  Eval vm_compute in returned (normalize zero_points_issue).
Definition private_record : value :=
  Eval vm_compute in returned (normalize private_issue).

Definition blank_assignee_record : value :=
  Eval vm_compute in returned (normalize blank_assignee_issue).
Definition zero_assignee_record : value :=
  Eval vm_compute in returned (normalize zero_assignee_issue).
Definition odd_status_record : value :=
  Eval vm_compute in returned (normalize odd_status_issue).

Definition ok_run : State := run sample_config sample_NumberToString ok_world.

Definition odd_status_run : State :=
  run sample_config sample_NumberToString odd_status_world.

Definition refused_run : State :=
  run sample_config sample_NumberToString refused_world.

(** C1, at the three records of the specification: the descriptions are
    ["A"], ["B"] and the placeholder; and at a body that opens with a
    bullet list, which comes back as it is. *)
Lemma description_precedence_witness :
  get "description" rich_record = Ok (VStr "A")
  /\ get "description" plain_record = Ok (VStr "B")
  /\ get "description" bare_record = Ok (VStr "No description available")
  /\ get "description" bullet_record = Ok bullet_body.
Proof.
  split; [ | split; [ | split]].
  - exact (proj1 (description_precedence sample_config sample_NumberToString
                    rich_issue rich_record
                    (VObj [("content",
                            VArr [VObj [("content",
                                         VArr [VObj [("text", VStr "A")]])]])])
                    eq_refl eq_refl) eq_refl).
  - refine (proj1 (proj2 (proj2 (description_precedence sample_config
                                   sample_NumberToString plain_issue
                                   plain_record (VStr "B") eq_refl eq_refl)))
              "B" eq_refl _).
    discriminate.
  - exact (proj1 (proj2 (proj2 (proj2 (description_precedence sample_config
                                         sample_NumberToString bare_issue
                                         bare_record VUndefined eq_refl
                                         eq_refl)))) eq_refl).
  - exact (proj1 (proj2 (description_precedence sample_config
                           sample_NumberToString bullet_issue bullet_record
                           bullet_body eq_refl eq_refl)) eq_refl eq_refl).
Defined.

(** C1 as stated fails: for a body that opens with a bullet list the
    path holds no text and the field is not a plain value, yet the
    description is not the placeholder, and it is not a string: it is
    the body itself. *)
Lemma description_can_be_a_body :
  normalize bullet_issue = Ok bullet_record
  /\ rich_text bullet_body = VUndefined
  /\ get "description" bullet_record = Ok bullet_body
  /\ is_string bullet_body = false
  /\ bullet_body <> VStr "No description available".
Proof.
  split; [vm_compute; reflexivity | ].
  split; [vm_compute; reflexivity | ].
  split; [vm_compute; reflexivity | ].
  split; [reflexivity | discriminate].
Qed.

Lemma full_issue_well_shaped : well_shaped full_issue.
Proof.
  unfold well_shaped. cbv zeta.
  repeat (split; [eexists; reflexivity | ]).
  split; [ | split]; right; eexists; (split; [reflexivity | ]);
    repeat constructor.
Qed.

(** C2, at a record with every field filled in. *)
Lemma transformUserStory_total_witness :
  exists out,
    normalize full_issue = Ok out
    /\ Forall (fun p => exists v, get p out = Ok v /\ v <> VUndefined) defaulted
    /\ (exists name id,
           path ["priority"; "name"] out = Ok name /\ name <> VUndefined
           /\ path ["priority"; "id"] out = Ok id /\ id <> VUndefined)
    /\ (exists id, get "key" out = Ok (VStr id))
    /\ (exists summary, get "summary" out = Ok (VStr summary)).
Proof.
  exact (transformUserStory_total sample_config sample_NumberToString
           full_issue full_issue_well_shaped).
Defined.

(** C2 as stated fails.  Both records have their identifier, summary and
    status; the first makes the normalizer throw, the second comes back
    with an [undefined] mail address in its assignee. *)
Lemma normalizer_can_throw_or_leave_undefined :
  (get "key" untyped_link_issue = Ok (VStr "PROJ-10")
   /\ path ["fields"; "summary"] untyped_link_issue
      = Ok (VStr "As a user I can sign in")
   /\ path ["fields"; "status"; "name"] untyped_link_issue = Ok (VStr "Open")
   /\ normalize untyped_link_issue
      = Throw (TypeError "Cannot read properties of undefined (reading 'name')"))
  /\ (get "key" private_issue = Ok (VStr "PROJ-9")
      /\ path ["fields"; "summary"] private_issue
         = Ok (VStr "As a user I can sign in")
      /\ path ["fields"; "status"; "name"] private_issue = Ok (VStr "Open")
      /\ normalize private_issue = Ok private_record
      /\ path ["assignee"; "emailAddress"] private_record = Ok VUndefined).
Proof. repeat split; vm_compute; reflexivity. Qed.

(** C4, at a record with two components, two labels, one version and
    two links, and at a record with none of these fields. *)
Lemma array_fields_witness :
  get "components" full_record = Ok (VArr [VStr "UI"; VStr "API"])
  /\ get "labels" full_record = Ok (VArr [VStr "auth"; VStr "mvp"])
  /\ get "issueLinks" full_record
     = Ok (VArr [VObj [("type", VStr "Blocks");
                       ("direction", VStr "is blocked by");
                       ("linkedIssue", VStr "PROJ-7")];
                 VObj [("type", VStr "Blocks");
                       ("direction", VStr "is blocked by");
                       ("linkedIssue", VStr "PROJ-8")]])
  /\ get "fixVersions" bare_record = Ok (VArr [])
  /\ get "issueLinks" bare_record = Ok (VArr []).
Proof.
  pose (full := array_fields sample_config sample_NumberToString full_issue
                  full_record eq_refl).
  pose (bare := array_fields sample_config sample_NumberToString bare_issue
                  bare_record eq_refl).
  split; [ | split; [ | split; [ | split]]].
  - exact (proj2 (proj1 full "components" _ (or_introl eq_refl) eq_refl)
             _ eq_refl).
  - exact (proj2 (proj1 (proj2 full) _ eq_refl) _ eq_refl).
  - exact (proj2 (proj2 (proj2 full) _ eq_refl) _ eq_refl).
  - exact (proj1 (proj1 bare "fixVersions" _ (or_intror eq_refl) eq_refl)
             eq_refl).
  - exact (proj1 (proj2 (proj2 bare) _ eq_refl) eq_refl).
Defined.

(** C5, at an unassigned record, at an assigned one, and at a record
    without a reporter. *)
Lemma person_null_iff_falsy_witness :
  get "assignee" zero_points_record = Ok VNull
  /\ get "assignee" full_record
     = Ok (VObj [("displayName", VStr "Ada");
                 ("emailAddress", VStr "ada@example.com");
                 ("accountId", VStr "acc-1")])
  /\ get "reporter" bare_record = Ok VNull.
Proof.
  split; [ | split].
  - exact (proj2 (proj1 (person_null_iff_falsy sample_config
                           sample_NumberToString "assignee" zero_points_issue
                           zero_points_record VNull
                           (or_introl eq_refl) eq_refl eq_refl)) eq_refl).
  - exact (proj2 (proj1 (proj2 (person_null_iff_falsy sample_config
                                  sample_NumberToString "assignee" full_issue
                                  full_record
                                  (person "Ada" "ada@example.com" "acc-1")
                                  (or_introl eq_refl) eq_refl eq_refl)))
             eq_refl).
  - exact (proj2 (proj1 (person_null_iff_falsy sample_config
                           sample_NumberToString "reporter" bare_issue
                           bare_record VUndefined
                           (or_intror eq_refl) eq_refl eq_refl)) eq_refl).
Defined.

(** C5 as stated fails: in these two records the assignee is present,
    as an empty text and as the number 0, and is normalized to [null]
    all the same, as if it were absent. *)
Lemma present_person_can_be_null :
  (path ["fields"; "assignee"] blank_assignee_issue = Ok (VStr "")
   /\ nullish (VStr "") = false
   /\ normalize blank_assignee_issue = Ok blank_assignee_record
   /\ get "assignee" blank_assignee_record = Ok VNull)
  /\ (path ["fields"; "assignee"] zero_assignee_issue = Ok (VNum (Zero false))
      /\ nullish (VNum (Zero false)) = false
      /\ normalize zero_assignee_issue = Ok zero_assignee_record
      /\ get "assignee" zero_assignee_record = Ok VNull).
Proof. repeat split; vm_compute; reflexivity. Qed.

(** C10, at an estimate of 0 points and at an estimate of 5. *)
Lemma storyPoints_falsy_collapse_witness :
  get "storyPoints" zero_points_record = Ok VNull
  /\ get "storyPoints" full_record = Ok (VNum (number_of_N 5)).
Proof.
  split.
  - exact (proj1 (proj2 (storyPoints_falsy_collapse sample_config
                           sample_NumberToString zero_points_issue
                           zero_points_record (VNum (Zero false))
                           eq_refl eq_refl)) false eq_refl).
  - exact (proj2 (proj2 (storyPoints_falsy_collapse sample_config
                           sample_NumberToString full_issue full_record
                           (VNum (number_of_N 5)) eq_refl eq_refl)) eq_refl).
Defined.

(** The record of the failing input of C3 through the whole normalizer:
    the link to PROJ-8 is an outward one and is labelled "is blocked by". *)
Lemma full_record_links :
  get "issueLinks" full_record
  = Ok (VArr [VObj [("type", VStr "Blocks");
                    ("direction", VStr "is blocked by");
                    ("linkedIssue", VStr "PROJ-7")];
              VObj [("type", VStr "Blocks");
                    ("direction", VStr "is blocked by");
                    ("linkedIssue", VStr "PROJ-8")]]).
Proof. reflexivity. Qed.


(** C7, at the run whose request is refused and at the run that fetches
    two records. *)
Lemma exit_contract_witness :
  (existsb is_file_system (trace refused_run) = false
   /\ files refused_run = []
   /\ exit_code (trace refused_run) = 1%Z)
  /\ (exit_code (trace ok_run) = 0%Z
      /\ existsb is_diagnostic (trace ok_run) = false).
Proof.
  split.
  - refine (proj2 (proj1 (exit_contract sample_config sample_NumberToString
                            refused_world)
                     (mkExn "Request failed with status code 401"
                        (VObj [("status", VNum (number_of_N 401));
                               ("data", VObj [("errorMessages",
                                               VArr [VStr "Unauthorized"])])]))
                     _)).
    vm_compute. reflexivity.
  - refine (proj2 (proj2 (proj2 (proj1 (proj2 (proj2 (exit_contract
                                                        sample_config
                                                        sample_NumberToString
                                                        ok_world)))
                                   (cons full_record (cons bare_record nil))
                                   "/app/data/jira-user-story.json" _))) _).
    + vm_compute. reflexivity.
    + repeat constructor; eexists; reflexivity.
Defined.

(** C7 as stated fails: in this run the three stages return and the
    whole document is written, and the run still ends with a diagnostic
    and exit code 1, because the summary by status throws on a status
    name that does not convert to a property key. *)
Lemma written_yet_failed :
  pipeline sample_config sample_NumberToString odd_status_world
  = Ok ([odd_status_record], "/app/data/jira-user-story.json")
  /\ files odd_status_run
     = [("/app/data/jira-user-story.json",
         Whole (JSON_stringify
                  (document sample_config [odd_status_record]
                     "2024-05-03T08:00:00.125Z")))]
  /\ statusCounts sample_NumberToString [odd_status_record]
     = Throw (TypeError "Cannot convert object to primitive value")
  /\ existsb is_diagnostic (trace odd_status_run) = true
  /\ exit_code (trace odd_status_run) = 1%Z.
Proof. repeat split; vm_compute; reflexivity. Qed.

(** The events of the refused run, in order. *)
Lemma refused_run_trace :
  trace refused_run
  = [Stdout [VStr "🚀 Starting Jira user stories extraction..."];
     Stdout [VStr "📊 Project: PROJ"];
     Stdout [VStr "🔗 Jira URL: https://example.atlassian.net"];
     Stdout [VStr "🔍 Fetching user stories from project: PROJ..."];
     HttpGet "/search/jql"
       [("jql", VStr "project = PROJ AND issuetype = Story ORDER BY created DESC");
        ("maxResults", VNum (number_of_N 100));
        ("fields",
         VStr "key,summary,description,status,priority,assignee,reporter,created,updated,components,labels,fixVersions,customfield_10016,issuelinks")];
     Stderr [VStr "❌ Error fetching user stories:";
             VObj [("errorMessages", VArr [VStr "Unauthorized"])]];
     Stderr [VStr (newline ++ "❌ Process failed:");
             VStr "Request failed with status code 401"];
     Exit 1].
Proof. vm_compute. reflexivity. Qed.

(** The summary of the specification's example through the general
    fact: "Open" is counted twice. *)
Lemma statusCounts_ordinary_name_witness :
  exists counts,
    statusCounts sample_NumberToString
      [story_with_status "Open"; story_with_status "Open";
       story_with_status "Done"] = Ok counts
    /\ counted "Open" counts 2.
Proof.
  refine (statusCounts_ordinary_name sample_NumberToString _
            ["Open"; "Open"; "Done"] "Open" _ eq_refl).
  repeat constructor.
Defined.

(** The direction of the outward link of the examples is the inward
    label. *)
Lemma direction_is_inward_label_witness :
  get "direction" (link_projection outward_link) = Ok (VStr "is blocked by").
Proof.
  exact (direction_is_inward_label outward_link (link_projection outward_link)
           eq_refl eq_refl).
Defined.

(** ** The script from its first line (lines 7-26 and 213-216) *)

(** What the process is started with: the environment, once the [.env]
    file is loaded into it, and whether the script is the entry point
    of the process or is imported by another module. *)
Record Process : Type := mkProcess {
  env : string -> option string;
  invoked_directly : bool
}.

(** [process.env.NAME]: a text, or [undefined] when the variable is not
    set. *)
Definition setting (p : Process) (name : string) : value :=
  match env p name with
  | Some text => VStr text
  | None => VUndefined
  end.

Definition text_of (v : value) : string :=
  match v with
  | VStr text => text
  | _ => ""
  end.

(** The events of lines 23-25. *)
Definition missing_configuration : list event :=
  [Stderr [VStr "❌ Missing Jira configuration in .env file"];
   Stderr [VStr "Required variables: JIRA_BASE_URL, JIRA_EMAIL, JIRA_API_TOKEN, JIRA_PROJECT_KEY"];
   Exit 1].

(** The module from top to bottom: the configuration is read and
    checked, and [process.exit(1)] ends the process there when a
    setting is falsy; otherwise [main] runs when the script is the
    entry point, and nothing more happens when it is imported. *)
Definition script (NumberToString : number -> string) (p : Process) (W : World)
  : State :=
  let baseURL := setting p "JIRA_BASE_URL" in
  let email := setting p "JIRA_EMAIL" in
  let apiToken := setting p "JIRA_API_TOKEN" in
  let projectKey := setting p "JIRA_PROJECT_KEY" in
  if negb (truthy baseURL) || negb (truthy email) || negb (truthy apiToken)
     || negb (truthy projectKey)
  then mkState missing_configuration [] 0
  else
    let JIRA_CONFIG :=
      mkConfig (text_of baseURL) (text_of email) (text_of apiToken)
        (text_of projectKey) in
    if invoked_directly p then run JIRA_CONFIG NumberToString W else initial.

(** The four settings the script requires. *)
Definition required : list string :=
  ["JIRA_BASE_URL"; "JIRA_EMAIL"; "JIRA_API_TOKEN"; "JIRA_PROJECT_KEY"].

(** A setting is usable when it is set to a non-empty text. *)
Definition usable (p : Process) (name : string) : Prop :=
  exists text, env p name = Some text /\ text <> "".

Lemma usable_truthy (p : Process) (name : string) :
  usable p name <-> truthy (setting p name) = true.
Proof.
  unfold usable, setting. destruct (env p name) as [text | ]; simpl.
  - destruct (String.eqb_spec text "") as [-> | Hne]; simpl.
    + split; [intros (t & [= <-] & H); contradiction | discriminate].
    + split; [reflexivity | ]. intros _. exists text. split; [reflexivity | exact Hne].
  - split; [intros (t & H & _); discriminate | discriminate].
Qed.

(** When one of the four settings is not set or is empty, the script
    ends at the check: two lines on the error stream, exit code 1, no
    request, no file, whether it is run or only imported. *)
Theorem script_stops_on_missing_setting (NumberToString : number -> string)
  (p : Process) (W : World) (name : string) :
  In name required ->
  ~ usable p name ->
  script NumberToString p W = mkState missing_configuration [] 0
  /\ exit_code (trace (script NumberToString p W)) = 1%Z
  /\ count is_request (trace (script NumberToString p W)) = 0
  /\ files (script NumberToString p W) = [].
Proof.
  intros Hin Hnot.
  assert (E : script NumberToString p W = mkState missing_configuration [] 0).
  { rewrite usable_truthy in Hnot. apply Bool.not_true_is_false in Hnot.
    unfold script. cbv zeta.
    destruct Hin as [<- | [<- | [<- | [<- | []]]]]; rewrite Hnot;
      cbn [negb orb]; rewrite ?Bool.orb_true_r; reflexivity. }
  rewrite E. repeat split.
Qed.

(** When the four settings are usable, the script run as the entry
    point is the run of [main] under these settings, and the script
    imported by another module does nothing. *)
Theorem script_runs_main_when_configured (NumberToString : number -> string)
  (p : Process) (W : World) (baseURL email apiToken projectKey : string) :
  env p "JIRA_BASE_URL" = Some baseURL -> baseURL <> "" ->
  env p "JIRA_EMAIL" = Some email -> email <> "" ->
  env p "JIRA_API_TOKEN" = Some apiToken -> apiToken <> "" ->
  env p "JIRA_PROJECT_KEY" = Some projectKey -> projectKey <> "" ->
  script NumberToString p W
  = if invoked_directly p
    then run (mkConfig baseURL email apiToken projectKey) NumberToString W
    else initial.
Proof.
  intros Hb Nb He Ne Ht Nt Hk Nk. unfold script, setting. cbv zeta.
  rewrite Hb, He, Ht, Hk. simpl.
  destruct (String.eqb_spec baseURL ""); [contradiction | ].
  destruct (String.eqb_spec email ""); [contradiction | ].
  destruct (String.eqb_spec apiToken ""); [contradiction | ].
  destruct (String.eqb_spec projectKey ""); [contradiction | ].
  reflexivity.
Qed.

(** ** More concrete records and runs *)

(** A world in which the second of three records has a link without a
    type, one in which the disk fills up while the file is written, one
    in which the file may not be opened, and one in which the search
    finds nothing. *)
Definition bad_batch_world : World :=
  mkWorld
    (Ok (VObj [("data", VObj [("total", VNum (number_of_N 3));
                              ("issues",
                               VArr [full_issue; untyped_link_issue;
                                     bare_issue])])]))
    "/app/data" posix_join true (Ok tt) (Ok tt) false sample_clock.

Definition disk_full : exn :=
  mkExn "ENOSPC: no space left on device, write" VUndefined.

Definition full_disk_world : World :=
  mkWorld
    (Ok (VObj [("data", VObj [("total", VNum (number_of_N 1));
                              ("issues", VArr [bare_issue])])]))
    "/app/data" posix_join true (Ok tt) (Throw disk_full) true sample_clock.

Definition not_permitted : exn :=
  mkExn "EACCES: permission denied, open '/app/data/jira-user-story.json'"
    VUndefined.

Definition read_only_world : World :=
  mkWorld
    (Ok (VObj [("data", VObj [("total", VNum (number_of_N 1));
                              ("issues", VArr [bare_issue])])]))
    "/app/data" posix_join true (Ok tt) (Throw not_permitted) false
    sample_clock.

Definition empty_world : World :=
  mkWorld
    (Ok (VObj [("data", VObj [("total", VNum (Zero false));
                              ("issues", VArr [])])]))
    "/app/data" posix_join false (Ok tt) (Ok tt) false sample_clock.

(** A process whose project key is set but empty. *)
Definition sample_env (name : string) : option string :=
  if String.eqb name "JIRA_BASE_URL" then Some "https://example.atlassian.net"
  else if String.eqb name "JIRA_EMAIL" then Some "dev@example.com"
  else if String.eqb name "JIRA_API_TOKEN" then Some "secret"
  else if String.eqb name "JIRA_PROJECT_KEY" then Some ""
  else None.

Definition sample_process : Process := mkProcess sample_env true.

(** The states the write reaches from the start, in two of the worlds. *)
Definition saved_once : State :=
  snd (saveToJSON sample_config sample_NumberToString ok_world
         [full_record] "jira-user-story.json" initial).

Definition saved_twice : State :=
  snd (saveToJSON sample_config sample_NumberToString ok_world
         [full_record; bare_record] "jira-user-story.json" saved_once).

(** The states a second write reaches after a first one went through,
    when the disk fills up and when the file may not be opened. *)
Definition torn_save : State :=
  snd (saveToJSON sample_config sample_NumberToString full_disk_world
         [bare_record] "jira-user-story.json" saved_once).

Definition refused_save : State :=
  snd (saveToJSON sample_config sample_NumberToString read_only_world
         [bare_record] "jira-user-story.json" saved_once).

Lemma priority_defaults_witness :
  get "priority" bare_record = Ok (VObj [("name", VStr "None"); ("id", VNull)])
  /\ get "priority" full_record
     = Ok (VObj [("name", VStr "High"); ("id", VStr "2")]).
Proof.
  split.
  - exact (proj1 (proj2 (proj2 (priority_defaults sample_config
                                  sample_NumberToString bare_issue bare_record
                                  VUndefined eq_refl eq_refl))) eq_refl).
  - refine (proj2 (proj2 (proj2 (priority_defaults sample_config
                                   sample_NumberToString full_issue full_record
                                   (VObj [("name", VStr "High"); ("id", VStr "2")])
                                   eq_refl eq_refl)))
              "High" "2" eq_refl _ eq_refl _); discriminate.
Defined.

Lemma copied_fields_witness :
  get "summary" bare_record = Ok (VStr "As a user I can sign in")
  /\ get "created" private_record = Ok (VStr "2024-05-01T09:00:00.000+0000")
  /\ path ["status"; "category"] bare_record = Ok (VStr "To Do").
Proof.
  pose proof (copied_fields sample_config sample_NumberToString bare_issue
                bare_record eq_refl) as B.
  pose proof (copied_fields sample_config sample_NumberToString private_issue
                private_record eq_refl) as P.
  cbv zeta in B, P.
  split; [exact (proj1 (proj2 B)) | ].
  split; [exact (proj1 (proj2 (proj2 P))) | ].
  exact (proj2 (proj2 (proj2 (proj2 (proj2 B))))).
Defined.

Lemma url_of_key_witness :
  get "url" bare_record
  = Ok (VStr "https://example.atlassian.net/browse/PROJ-3").
Proof.
  exact (proj1 (url_of_key sample_config sample_NumberToString bare_issue
                  bare_record "PROJ-3" eq_refl eq_refl)).
Defined.

Lemma bad_record_aborts_run_witness :
  files (run sample_config sample_NumberToString bad_batch_world) = []
  /\ existsb is_file_system
       (trace (run sample_config sample_NumberToString bad_batch_world)) = false
  /\ exit_code (trace (run sample_config sample_NumberToString bad_batch_world))
     = 1%Z.
Proof.
  destruct (bad_record_aborts_run sample_config sample_NumberToString
              bad_batch_world [full_issue] [bare_issue] untyped_link_issue
              (TypeError "Cannot read properties of undefined (reading 'name')"))
    as (F & S & X & _).
  - vm_compute. reflexivity.
  - eexists. vm_compute. reflexivity.
  - vm_compute. reflexivity.
  - repeat split; assumption.
Defined.


Lemma statusCounts_inherited_never_counted_witness :
  exists counts,
    statusCounts sample_NumberToString
      [story_with_status "Open"; story_with_status "constructor"] = Ok counts
    /\ (forall n, own_slot "constructor" counts <> Some (Count n))
    /\ own_slot "__proto__" counts = None.
Proof.
  refine (statusCounts_inherited_never_counted sample_NumberToString _
            ["Open"; "constructor"] "constructor" _ _).
  - repeat constructor.
  - vm_compute. discriminate.
Defined.

Lemma fetch_rethrows_witness :
  fst (fetchUserStories sample_NumberToString refused_world "PROJ" VUndefined
         initial)
  = Throw (mkExn "Request failed with status code 401"
             (VObj [("status", VNum (number_of_N 401));
                    ("data", VObj [("errorMessages",
                                    VArr [VStr "Unauthorized"])])]))
  /\ exists first,
       trace (snd (fetchUserStories sample_NumberToString refused_world "PROJ"
                     VUndefined initial))
       = [first;
          search "PROJ" (VNum (number_of_N 100));
          Stderr [VStr "❌ Error fetching user stories:";
                  VObj [("errorMessages", VArr [VStr "Unauthorized"])]]].
Proof.
  exact (fetch_rethrows sample_NumberToString refused_world "PROJ" VUndefined
           initial _ eq_refl).
Defined.

Lemma save_then_read_witness :
  exists doc,
    read_file "/app/data/jira-user-story.json" (files saved_once)
    = Some (Whole doc)
    /\ is_json doc = true
    /\ path ["metadata"; "totalStories"] doc = Ok (VNum (number_of_N 1))
    /\ read_file "/app/data/other.json" (files saved_once) = None.
Proof.
  destruct (save_then_read sample_config sample_NumberToString ok_world
              [full_record] "jira-user-story.json"
              "/app/data/jira-user-story.json" initial saved_once)
    as (R & J & _ & T & O & _).
  - vm_compute. reflexivity.
  - eexists. split; [exact R | ]. split; [exact J | ]. split; [exact T | ].
    rewrite (O "/app/data/other.json"); [reflexivity | discriminate].
Defined.

(** A write that fails on a full disk after a write that went through
    leaves the file torn, and a write that may not open the file leaves
    the document of the first write there. *)
Lemma save_failure_leaves_witness :
  read_file "/app/data/jira-user-story.json" (files torn_save) = Some Torn
  /\ files refused_save = files saved_once.
Proof.
  split.
  - destruct (save_failure_leaves sample_config sample_NumberToString
                full_disk_world [bare_record] "jira-user-story.json"
                saved_once torn_save disk_full)
      as (_ & [(H & _) | (_ & _ & T)] & _).
    + vm_compute. reflexivity.
    + discriminate H.
    + rewrite (T eq_refl). reflexivity.
  - destruct (save_failure_leaves sample_config sample_NumberToString
                read_only_world [bare_record] "jira-user-story.json"
                saved_once refused_save not_permitted)
      as (_ & [(H & _) | (_ & K & _)] & _).
    + vm_compute. reflexivity.
    + discriminate H.
    + exact (K eq_refl).
Defined.

Lemma save_twice_overwrites_witness :
  length (files saved_twice) = 1
  /\ exists doc,
       read_file "/app/data/jira-user-story.json" (files saved_twice)
       = Some (Whole doc)
       /\ path ["metadata"; "totalStories"] doc = Ok (VNum (number_of_N 2)).
Proof.
  destruct (save_twice_overwrites sample_config sample_NumberToString ok_world
              [full_record] [full_record; bare_record] "jira-user-story.json"
              "/app/data/jira-user-story.json" "/app/data/jira-user-story.json"
              initial saved_once saved_twice)
    as (_ & R & L).
  - vm_compute. reflexivity.
  - vm_compute. reflexivity.
  - split; [rewrite L; reflexivity | ].
    eexists. split; [exact R | reflexivity].
Defined.

Lemma empty_batch_run_witness :
  exit_code (trace (run sample_config sample_NumberToString empty_world)) = 0%Z
  /\ exists doc,
       files (run sample_config sample_NumberToString empty_world)
       = [("/app/data/jira-user-story.json", Whole doc)]
       /\ get "userStories" doc = Ok (VArr []).
Proof.
  destruct (empty_batch_run sample_config sample_NumberToString empty_world)
    as (F & _ & U & X & _).
  - vm_compute. reflexivity.
  - right. reflexivity.
  - reflexivity.
  - split; [exact X | ]. eexists. split; [exact F | exact U].
Defined.

Lemma script_stops_on_missing_setting_witness :
  script sample_NumberToString sample_process ok_world
  = mkState missing_configuration [] 0.
Proof.
  refine (proj1 (script_stops_on_missing_setting sample_NumberToString
                   sample_process ok_world "JIRA_PROJECT_KEY" _ _)).
  - simpl. tauto.
  - intros (text & E & Hne). vm_compute in E. injection E as <-.
    apply Hne. reflexivity.
Defined.

(** The record without a description, with fields the request does not
    ask for, and a record that carries no dates. *)
Definition voted_issue : value :=
  issue_with "PROJ-3"
    [("votes", VObj [("votes", VNum (number_of_N 4))]);
     ("watches", VObj [("watchCount", VNum (number_of_N 2))])].

Definition undated_issue : value :=
  VObj [("key", VStr "PROJ-11");
        ("fields", VObj [("summary", VStr "As a user I can sign out");
                         ("status", status "Done" "Done")])].

Definition undated_record : value :=
  Eval vm_compute in returned (normalize undated_issue).

Lemma requested_fields_suffice_witness :
  normalize voted_issue = normalize bare_issue.
Proof.
  refine (requested_fields_suffice sample_config sample_NumberToString
            voted_issue bare_issue eq_refl eq_refl eq_refl eq_refl eq_refl _).
  intros field Hin. unfold requested_fields in Hin. cbn [In] in Hin.
  repeat (destruct Hin as [<- | Hin]; [reflexivity | ]). destruct Hin.
Defined.

Lemma undefined_is_left_out_witness :
  own_of (JSON_stringify undated_record) "created" = None
  /\ own_of (JSON_stringify undated_record) "assignee" = Some VNull.
Proof.
  split.
  - refine (proj2 (proj1 (undefined_is_left_out sample_config
                            sample_NumberToString undated_issue undated_record
                            "created" eq_refl _)) eq_refl).
    unfold record_keys. cbn [In]. tauto.
  - refine (proj2 (undefined_is_left_out sample_config sample_NumberToString
                     undated_issue undated_record "assignee" eq_refl _)
              VNull eq_refl _).
    + unfold record_keys. cbn [In]. tauto.
    + discriminate.
Defined.

Lemma linkedIssue_is_present_side_witness :
  get "linkedIssue" (link_projection inward_link) = Ok (VStr "PROJ-7")
  /\ get "linkedIssue" (link_projection outward_link) = Ok (VStr "PROJ-8").
Proof.
  split.
  - exact (linkedIssue_is_present_side inward_link
             (link_projection inward_link) eq_refl).
  - exact (linkedIssue_is_present_side outward_link
             (link_projection outward_link) eq_refl).
Defined.

(** ** The normalizer called twice in memory *)

(** A configuration with the base address of the first one and another
    account and project. *)
Definition other_config : Config :=
  mkConfig "https://example.atlassian.net" "ops@example.com" "other" "OPS".

(** The record with every field filled in, laid out in an empty memory,
    and the two calls from there. *)
Definition laid_out : word * list cell :=
  Eval vm_compute in lay_out full_issue [].

Definition start : Machine := mkMachine (snd laid_out) initial.

Definition first_call : result word * Machine :=
  Eval vm_compute in
    transformUserStory_in_memory sample_config sample_NumberToString
      (fst laid_out) start.

Definition second_call : result word * Machine :=
  Eval vm_compute in
    transformUserStory_in_memory other_config sample_NumberToString
      (fst laid_out) (snd first_call).

Lemma full_issue_laid_out : denotes (memory start) (fst laid_out) full_issue.
Proof. exact (proj2 (lay_out_denotes full_issue [])). Qed.

(** C9, at the record with every field filled in: the two calls return
    the objects at the addresses 34 and 44, the memory has grown from 25
    cells to 35 and then to 45, and the run has seen no event. *)
Lemma transformUserStory_deterministic_witness :
  grows start (snd first_call)
  /\ grows (snd first_call) (snd second_call)
  /\ denotes (memory (snd second_call)) (fst laid_out) full_issue
  /\ agree (memory (snd second_call)) (fst first_call) (fst second_call)
  /\ same_outcome (normalize full_issue)
       (transformUserStory other_config sample_NumberToString full_issue)
     = true
  /\ exists o,
       fst first_call = Ok o /\ denotes (memory (snd first_call)) o full_record.
Proof.
  exact (transformUserStory_deterministic sample_config other_config
           sample_NumberToString start (fst laid_out) full_issue eq_refl
           full_issue_laid_out).
Defined.
